(** * The k-armed bandit testbed and the epsilon-greedy agent

    A shallow embedding of
      - [rl/environment/bandits/k_armed_bandit.py]  (KArmedTestbed, Bandit)
      - [rl/algorithms/bandits/epsilon_greedy.py]   (EpsilonGreedy)
    and the properties of the specification that concern them.

    Conventions of the embedding.
      - A Python method is a computation in a state-and-exception monad whose
        state is the receiver object, the process-wide [np.random] stream, or
        both.  An exception leaves the state as it was when it was raised.
      - numpy's [float64] is an instance of the interface [Scalar].  All the
        code is written once over that interface; it is read at the exact
        rationals [Q] for the algebraic properties and at the IEEE binary64
        numbers of the kernel for the behaviour of the rounded arithmetic.
      - numpy's [dtype=int] counters are 64-bit two's complement integers:
        [Z] with the wrap-around written out ([wrap_int64]).
      - Indexing follows numpy and Python: an index [i] with [-n <= i < 0]
        addresses element [n + i]; anything outside [-n, n) raises
        [IndexError]. *)

From Stdlib Require Import ZArith QArith Lia Bool.
From Stdlib Require Import Floats.PrimFloat Floats.SpecFloat Floats.FloatOps.
From Stdlib Require Import Floats.FloatAxioms Numbers.Cyclic.Int63.Uint63.
From stdpp Require Import base list.

Local Open Scope Z_scope.

(** ** Exceptions and the two monads *)

Inductive exn : Type :=
| IndexError
| ValueError.

Inductive result (A : Type) : Type :=
| Ok (a : A)
| Raise (e : exn).
Arguments Ok {A} a.
Arguments Raise {A} e.

Definition is_ok {A} (r : result A) : bool :=
  match r with Ok _ => true | Raise _ => false end.

Definition rbind {A B} (r : result A) (k : A -> result B) : result B :=
  match r with
  | Ok a => k a
  | Raise e => Raise e
  end.

(** [M S A]: a computation over a state [S] that returns an [A] or raises.
    The state survives the exception, as a Python object does. *)
Definition M (S A : Type) : Type := S -> result A * S.

Definition ret {S A} (a : A) : M S A := fun s => (Ok a, s).

Definition raise {S A} (e : exn) : M S A := fun s => (Raise e, s).

Definition bind {S A B} (m : M S A) (k : A -> M S B) : M S B :=
  fun s =>
    match m s with
    | (Ok a, s') => k a s'
    | (Raise e, s') => (Raise e, s')
    end.

Definition get {S} : M S S := fun s => (Ok s, s).

Definition put {S} (s : S) : M S unit := fun _ => (Ok tt, s).

Definition lift_result {S A} (r : result A) : M S A := fun s => (r, s).

(** Running a computation on one component of a pair of states. *)
Definition on_fst {S1 S2 A} (m : M S1 A) : M (S1 * S2) A :=
  fun s => let '(r, s1) := m (fst s) in (r, (s1, snd s)).

Definition on_snd {S1 S2 A} (m : M S2 A) : M (S1 * S2) A :=
  fun s => let '(r, s2) := m (snd s) in (r, (fst s, s2)).

Declare Scope monad_scope.
Delimit Scope monad_scope with monad.
Notation "'let*' x ':=' m 'in' k" := (bind m (fun x => k))
  (at level 10, x name, m at level 100, k at level 200) : monad_scope.
Notation "'let*' ' p ':=' m 'in' k" := (bind m (fun x => match x with p => k end))
  (at level 10, p pattern, m at level 100, k at level 200) : monad_scope.
Notation "'run' m 'in' k" := (bind m (fun _ => k))
  (at level 10, m at level 100, k at level 200) : monad_scope.
Local Open Scope monad_scope.

(** ** Scalars: what the code asks of [float64] *)

Class Scalar (T : Type) : Type := {
  s_of_Z : Z -> T;            (* conversion of an integer, [float(n)] *)
  s_add : T -> T -> T;
  s_sub : T -> T -> T;
  s_mul : T -> T -> T;
  s_div : T -> T -> T;
  s_ltb : T -> T -> bool;     (* [x < y] *)
  s_eqb : T -> T -> bool;     (* [x == y] *)
}.

Definition Qlt_bool (x y : Q) : bool :=
  (Qnum x * QDen y <? Qnum y * QDen x)%Z.

(** Exact arithmetic. *)
#[export] Instance Q_scalar : Scalar Q := {
  s_of_Z := inject_Z;
  s_add := Qplus;
  s_sub := Qminus;
  s_mul := Qmult;
  s_div := Qdiv;
  s_ltb := Qlt_bool;
  s_eqb := Qeq_bool;
}.

(** Conversion of a 64-bit integer to binary64 (round to nearest), for the
    integers of [[-2^63, 2^63)] that the code converts.  [of_uint63] takes
    the magnitudes below [2^63]; [-2^63] is a power of two. *)
Definition float_of_Z (z : Z) : float :=
  match z with
  | Z0 => PrimFloat.zero
  | Zpos _ => PrimFloat.of_uint63 (Uint63.of_Z z)
  | Zneg _ =>
      if z =? - 2 ^ 63 then (-0x1p63)%float
      else PrimFloat.opp (PrimFloat.of_uint63 (Uint63.of_Z (- z)))
  end.

(** IEEE 754 binary64, the arithmetic numpy runs. *)
#[export] Instance float_scalar : Scalar float := {
  s_of_Z := float_of_Z;
  s_add := PrimFloat.add;
  s_sub := PrimFloat.sub;
  s_mul := PrimFloat.mul;
  s_div := PrimFloat.div;
  s_ltb := PrimFloat.ltb;
  s_eqb := PrimFloat.eqb;
}.

(** ** 64-bit counters *)

Definition int64_min : Z := - 2 ^ 63.
Definition int64_max : Z := 2 ^ 63 - 1.

Definition wrap_int64 (z : Z) : Z := (z + 2 ^ 63) mod 2 ^ 64 - 2 ^ 63.

(** ** Indexing, as numpy arrays and Python lists do it *)

Definition np_index (n : nat) (i : Z) : result nat :=
  if (0 <=? i) && (i <? Z.of_nat n) then Ok (Z.to_nat i)
  else if (- Z.of_nat n <=? i) && (i <? 0) then Ok (Z.to_nat (i + Z.of_nat n))
  else Raise IndexError.

Definition getitem {A} (l : list A) (i : Z) : result A :=
  rbind (np_index (length l) i) (fun j =>
  match l !! j with
  | Some x => Ok x
  | None => Raise IndexError
  end).

Definition setitem {A} (l : list A) (i : Z) (v : A) : result (list A) :=
  rbind (np_index (length l) i) (fun j => Ok (<[j:=v]> l)).

(** [np.zeros(n)] and [np.full(n, v)]: a negative dimension is a
    [ValueError]. *)
Definition np_full {A} (n : Z) (v : A) : result (list A) :=
  if n <? 0 then Raise ValueError else Ok (replicate (Z.to_nat n) v).

(** [range(n)] *)
Definition range (n : Z) : list Z := map Z.of_nat (seq 0 (Z.to_nat n)).

(** A [for] loop whose body threads the loop-carried local variables [acc]. *)
Fixpoint for_loop {S A X} (xs : list X) (body : X -> A -> M S A) (acc : A) : M S A :=
  match xs with
  | [] => ret acc
  | x :: xs' => let* acc' := body x acc in for_loop xs' body acc'
  end.

(** A list comprehension [[f x for x in xs]]. *)
Fixpoint comprehension {S X B} (xs : list X) (f : X -> M S B) : M S (list B) :=
  match xs with
  | [] => ret []
  | x :: xs' =>
      let* y := f x in
      let* ys := comprehension xs' f in
      ret (y :: ys)
  end.

(** ** The process-wide random stream [np.random]

    The generator algorithm is left open: [generator seed n] is the [n]-th
    raw draw of the stream seeded with [seed], carrying the random bits an
    integer or uniform draw uses and the standard normal deviate a Gaussian
    draw uses.  Every primitive consumes one raw draw. *)

Record draw (T : Type) : Type := {
  bits : Z;
  gauss : T;
}.
Arguments bits {T} _.
Arguments gauss {T} _.

Record RandomState (T : Type) : Type := {
  generator : Z -> nat -> draw T;
  seed : Z;
  cursor : nat;
}.
Arguments generator {T} _.
Arguments seed {T} _.
Arguments cursor {T} _.

Module np_random.
Section Stream.
Context {T : Type} {ST : Scalar T}.

Definition next_draw : M (RandomState T) (draw T) :=
  fun g =>
    (Ok (generator g (seed g) (cursor g)),
     {| generator := generator g; seed := seed g; cursor := S (cursor g) |}).

(** [np.random.seed(s)]: the seed is a 32-bit unsigned integer. *)
Definition seed_ (s : Z) : M (RandomState T) unit :=
  if (0 <=? s) && (s <? 2 ^ 32) then
    fun g => (Ok tt, {| generator := generator g; seed := s; cursor := O |})
  else raise ValueError.

(** [np.random.random()]: 53 random bits scaled into [0, 1). *)
Definition random : M (RandomState T) T :=
  let* d := next_draw in
  ret (s_div (s_of_Z (bits d mod 2 ^ 53)) (s_of_Z (2 ^ 53))).

(** [np.random.randint(n)]: an integer of [0, n); [ValueError] when the
    range is empty. *)
Definition randint (n : Z) : M (RandomState T) Z :=
  if n <=? 0 then raise ValueError
  else let* d := next_draw in ret (bits d mod n).

(** The scales numpy rejects: the numbers whose sign bit is set.  Those
    are the negative numbers and, in binary64, the negative zero, the zero
    whose reciprocal is negative.  A nan is not rejected. *)
Definition negative_scale (scale : T) : bool :=
  s_ltb scale (s_of_Z 0)
  || (s_eqb scale (s_of_Z 0) && s_ltb (s_div (s_of_Z 1) scale) (s_of_Z 0)).

(** [np.random.normal(loc, scale)]; a negative [scale] is a
    [ValueError]. *)
Definition normal (loc scale : T) : M (RandomState T) T :=
  if negative_scale scale then raise ValueError
  else let* d := next_draw in ret (s_add loc (s_mul scale (gauss d))).

(** [np.random.normal(loc, scale, size)]: [size] independent draws; the
    scale is checked first, then the dimension. *)
Definition normal_n (loc scale : T) (size : Z) : M (RandomState T) (list T) :=
  if negative_scale scale then raise ValueError
  else if size <? 0 then raise ValueError
  else comprehension (range size) (fun _ => normal loc scale).
End Stream.
End np_random.

(** [np.argmax]: the index of the first occurrence of the maximum, where
    a nan counts as the maximum: the first nan is the result when there is
    one.  [ValueError] on an empty array. *)
Section Argmax.
Context {T : Type} {ST : Scalar T}.

(** [np.isnan]: a nan is the one value that differs from itself. *)
Definition isnan (x : T) : bool := negb (s_eqb x x).

Fixpoint argmax_from (i best : Z) (best_val : T) (l : list T) : Z :=
  match l with
  | [] => best
  | x :: l' =>
      if s_ltb best_val x || (isnan x && negb (isnan best_val))
      then argmax_from (i + 1) i x l'
      else argmax_from (i + 1) best best_val l'
  end.

Definition np_argmax (l : list T) : result Z :=
  match l with
  | [] => Raise ValueError
  | x :: l' => Ok (argmax_from 1 0 x l')
  end.
End Argmax.

(** ** rl/environment/bandits/k_armed_bandit.py *)

Module Bandit.
(** [oid] is the identity of the Python object: [Bandit] defines neither
    [__eq__] nor [__hash__], so a dictionary keyed by bandits compares
    them by identity. *)
Record t (T : Type) : Type := mk {
  oid : nat;
  k : Z;
  bandit_std : T;
  q_star : list T;
  best_action : Z;
}.
Arguments mk {T} _ _ _ _ _.
Arguments oid {T} _.
Arguments k {T} _.
Arguments bandit_std {T} _.
Arguments q_star {T} _.
Arguments best_action {T} _.

Section Methods.
Context {T : Type} {ST : Scalar T}.

Definition init (id : nat) (k_ : Z) (k_mean k_std bandit_std_ : T)
  : M (RandomState T) (t T) :=
  let* q := np_random.normal_n k_mean k_std k_ in
  let* best := lift_result (np_argmax q) in
  ret (mk id k_ bandit_std_ q best).

Definition step (action : Z) : M (t T * RandomState T) T :=
  let* self := on_fst get in
  let* mu := lift_result (getitem (q_star self) action) in
  on_snd (np_random.normal mu (bandit_std self)).
End Methods.
End Bandit.

Module KArmedTestbed.
Record t (T : Type) : Type := mk {
  num_runs : Z;
  k : Z;
  k_mean : T;
  k_std : T;
  bandit_std : T;
  bandits : list (Bandit.t T);
}.
Arguments mk {T} _ _ _ _ _ _.
Arguments num_runs {T} _.
Arguments k {T} _.
Arguments k_mean {T} _.
Arguments k_std {T} _.
Arguments bandit_std {T} _.
Arguments bandits {T} _.

Section Methods.
Context {T : Type} {ST : Scalar T}.

Definition init (num_runs_ k_ : Z) (k_mean_ k_std_ bandit_std_ : T) (seed_ : Z)
  : M (RandomState T) (t T) :=
  run np_random.seed_ seed_ in
  let* bs := comprehension (range num_runs_)
               (fun i => Bandit.init (Z.to_nat i) k_ k_mean_ k_std_ bandit_std_) in
  ret (mk num_runs_ k_ k_mean_ k_std_ bandit_std_ bs).

Definition set_bandits (self : t T) (bs : list (Bandit.t T)) : t T :=
  mk (num_runs self) (k self) (k_mean self) (k_std self) (bandit_std self) bs.
End Methods.
End KArmedTestbed.

(** ** rl/utils/general.py *)

Section ArgmaxTies.
Context {T : Type} {ST : Scalar T}.

(** Modelled from the spec: "iterate to find the maximum value", the first
    step of [argmax_ties_random] below; [x] is the first entry of the
    array. *)
Definition list_max (x : T) (l : list T) : T :=
  fold_left (fun m y => if s_ltb m y then y else m) l x.

(** Modelled from the spec: "collect all indices attaining it", the second
    step of [argmax_ties_random]; [i] is the index of the head of [l]. *)
Fixpoint indices_of (m : T) (i : Z) (l : list T) : list Z :=
  match l with
  | [] => []
  | x :: l' =>
      if s_eqb x m then i :: indices_of m (i + 1) l'
      else indices_of m (i + 1) l'
  end.

(** Modelled from the spec: [argmax_ties_random] of [rl/utils/general.py],
    which [epsilon_greedy.py] imports and whose source is not at hand.  The
    specification fixes it as: iterate to find the maximum value, collect
    all indices attaining it, sample one uniformly.  An empty array has no
    maximum: [ValueError]. *)
Definition argmax_ties_random (q : list T) : M (RandomState T) Z :=
  match q with
  | [] => raise ValueError
  | x :: q' =>
      let ties := indices_of (list_max x q') 0 q in
      let* j := np_random.randint (Z.of_nat (length ties)) in
      lift_result (getitem ties j)
  end.
End ArgmaxTies.

(** ** Dictionaries and data frames

    A Python [dict] keeps its keys in insertion order; assigning to a key
    that is present replaces the value in place.  [pd.DataFrame(d)] makes one
    column per key, in that order; the columns must agree on their length,
    which is the number of rows. *)

Definition dict (V : Type) : Type := list (nat * V).

Fixpoint dict_set {V} (d : dict V) (key : nat) (v : V) : dict V :=
  match d with
  | [] => [(key, v)]
  | (key', v') :: d' =>
      if Nat.eqb key' key then (key, v) :: d'
      else (key', v') :: dict_set d' key v
  end.

Record DataFrame (V : Type) : Type := {
  df_columns : list (nat * list V);
  df_rows : nat;
}.
Arguments df_columns {V} _.
Arguments df_rows {V} _.

Definition df_shape {V} (df : DataFrame V) : nat * nat :=
  (df_rows df, length (df_columns df)).

Definition pd_DataFrame {V} (d : dict (list V)) : result (DataFrame V) :=
  match d with
  | [] => Ok {| df_columns := []; df_rows := O |}
  | (_, c) :: _ =>
      if forallb (fun kv => Nat.eqb (length (snd kv)) (length c)) d
      then Ok {| df_columns := d; df_rows := length c |}
      else Raise ValueError
  end.

(** ** rl/algorithms/bandits/epsilon_greedy.py *)

Module EpsilonGreedy.
Record t (T : Type) : Type := mk {
  env : KArmedTestbed.t T;
  epsilon : T;
  max_steps : Z;
  num_actions : Z;
  use_weighted_average : bool;
  alpha : T;
  initialisation : T;
  q_values : list T;
  action_counts : list Z;
}.
Arguments mk {T} _ _ _ _ _ _ _ _ _.
Arguments env {T} _.
Arguments epsilon {T} _.
Arguments max_steps {T} _.
Arguments num_actions {T} _.
Arguments use_weighted_average {T} _.
Arguments alpha {T} _.
Arguments initialisation {T} _.
Arguments q_values {T} _.
Arguments action_counts {T} _.

Section Methods.
Context {T : Type} {ST : Scalar T}.

Definition set_q_values (self : t T) (q : list T) : t T :=
  mk (env self) (epsilon self) (max_steps self) (num_actions self)
     (use_weighted_average self) (alpha self) (initialisation self)
     q (action_counts self).

Definition set_action_counts (self : t T) (c : list Z) : t T :=
  mk (env self) (epsilon self) (max_steps self) (num_actions self)
     (use_weighted_average self) (alpha self) (initialisation self)
     (q_values self) c.

Definition set_env (self : t T) (e : KArmedTestbed.t T) : t T :=
  mk e (epsilon self) (max_steps self) (num_actions self)
     (use_weighted_average self) (alpha self) (initialisation self)
     (q_values self) (action_counts self).

Definition reset : M (t T) unit :=
  let* self := get in
  run (if s_eqb (initialisation self) (s_of_Z 0) then
         let* q := lift_result (np_full (num_actions self) (s_of_Z 0)) in
         put (set_q_values self q)
       else if s_ltb (s_of_Z 0) (initialisation self) then
         let* q := lift_result (np_full (num_actions self) (initialisation self)) in
         put (set_q_values self q)
       else raise ValueError) in
  let* self := get in
  let* c := lift_result (np_full (num_actions self) 0) in
  put (set_action_counts self c).

(** The two [np.zeros] arrays of [__init__] are replaced by [reset] before
    anything reads them; the float zeros of [action_counts] are written as
    the integer 0. *)
Definition init (env_ : KArmedTestbed.t T) (epsilon_ : T) (max_steps_ : Z)
    (initialisation_ : T) (use_weighted_average_ : bool) (alpha_ : T)
  : result (t T) :=
  rbind (getitem (KArmedTestbed.bandits env_) 0) (fun b0 =>
  let num_actions_ := Bandit.k b0 in
  rbind (np_full num_actions_ (s_of_Z 0)) (fun q =>
  rbind (np_full num_actions_ 0) (fun c =>
  let self := mk env_ epsilon_ max_steps_ num_actions_ use_weighted_average_
                 alpha_ initialisation_ q c in
  match reset self with
  | (Ok _, self') => Ok self'
  | (Raise e, _) => Raise e
  end))).

Definition act : M (t T * RandomState T) Z :=
  let* self := on_fst get in
  let* u := on_snd np_random.random in
  if s_ltb u (epsilon self) then
    on_snd (np_random.randint (num_actions self))
  else
    on_snd (argmax_ties_random (q_values self)).

Definition simple_update (action : Z) (reward : T) : M (t T) unit :=
  let* self := get in
  let* n := lift_result (getitem (action_counts self) action) in
  let* c := lift_result (setitem (action_counts self) action (wrap_int64 (n + 1))) in
  run put (set_action_counts self c) in
  let* self := get in
  let* n := lift_result (getitem (action_counts self) action) in
  let step_size := s_div (s_of_Z 1) (s_of_Z n) in
  let* q := lift_result (getitem (q_values self) action) in
  let* qs := lift_result
    (setitem (q_values self) action (s_add q (s_mul step_size (s_sub reward q)))) in
  put (set_q_values self qs).

Definition weighted_update (action : Z) (reward : T) : M (t T) unit :=
  let* self := get in
  let* q := lift_result (getitem (q_values self) action) in
  let* qs := lift_result
    (setitem (q_values self) action
       (s_add q (s_mul (alpha self) (s_sub reward q)))) in
  put (set_q_values self qs).

(** A method call on the [i]-th bandit of [self.env.bandits]: the object
    lives in the testbed the agent refers to, and what the method leaves
    of it is what the testbed holds afterwards. *)
Definition call_bandit {A} (i : nat) (m : M (Bandit.t T * RandomState T) A)
  : M (t T * RandomState T) A :=
  fun s =>
    match KArmedTestbed.bandits (env (fst s)) !! i with
    | None => (Raise IndexError, s)
    | Some b =>
        let '(r, (b', g')) := m (b, snd s) in
        (r, (set_env (fst s)
               (KArmedTestbed.set_bandits (env (fst s))
                  (<[i:=b']> (KArmedTestbed.bandits (env (fst s))))), g'))
    end.

Definition train_step (i : nat) (step : Z) (acc : list T * list bool)
  : M (t T * RandomState T) (list T * list bool) :=
  let '(rewards, optimal_action) := acc in
  let* action := act in
  let* reward := call_bandit i (Bandit.step action) in
  let* self := on_fst get in
  run (if use_weighted_average self
       then on_fst (weighted_update action reward)
       else on_fst (simple_update action reward)) in
  let* rewards := lift_result (setitem rewards step reward) in
  let* k_armed_bandit := call_bandit i (on_fst get) in
  let* optimal_action :=
    (if action =? Bandit.best_action k_armed_bandit
     then lift_result (setitem optimal_action step true)
     else ret optimal_action) in
  ret (rewards, optimal_action).

Definition train_run (i : nat) (acc : dict (list T) * dict (list bool))
  : M (t T * RandomState T) (dict (list T) * dict (list bool)) :=
  let '(rewards_testbed, optimal_action_testbed) := acc in
  run on_fst reset in
  let* self := on_fst get in
  let* rewards := lift_result (np_full (max_steps self) (s_of_Z 0)) in
  let optimal_action := replicate (Z.to_nat (max_steps self)) false in
  let* '(rewards, optimal_action) :=
    for_loop (range (max_steps self)) (train_step i) (rewards, optimal_action) in
  let* k_armed_bandit := call_bandit i (on_fst get) in
  ret (dict_set rewards_testbed (Bandit.oid k_armed_bandit) rewards,
       dict_set optimal_action_testbed (Bandit.oid k_armed_bandit) optimal_action).

Definition train : M (t T * RandomState T) (DataFrame T * DataFrame bool) :=
  let* self := on_fst get in
  let* '(rewards_testbed, optimal_action_testbed) :=
    for_loop (seq 0 (length (KArmedTestbed.bandits (env self)))) train_run ([], []) in
  let* rewards_testbed_df := lift_result (pd_DataFrame rewards_testbed) in
  let* optimal_action_testbed_df := lift_result (pd_DataFrame optimal_action_testbed) in
  ret (rewards_testbed_df, optimal_action_testbed_df).
End Methods.
End EpsilonGreedy.

(** * Vocabulary of the properties *)

(** The arithmetic mean of a list of rewards. *)
Definition mean (rs : list Q) : Q :=
  (fold_right Qplus 0 rs / inject_Z (Z.of_nat (length rs)))%Q.

Section Vocabulary.
Context {T : Type} {ST : Scalar T}.

(** [simple_update(a, r)] for each reward [r] of [rs], in order. *)
Definition simple_updates (a : Z) (rs : list T) : M (EpsilonGreedy.t T) unit :=
  for_loop rs (fun r _ => EpsilonGreedy.simple_update a r) tt.

(** The agent after one more method call; an exception propagates. *)
Definition after (ag : result (EpsilonGreedy.t T)) (m : M (EpsilonGreedy.t T) unit)
  : result (EpsilonGreedy.t T) :=
  rbind ag (fun self =>
  match m self with
  | (Ok _, self') => Ok self'
  | (Raise e, _) => Raise e
  end).

Definition estimate (ag : result (EpsilonGreedy.t T)) (a : Z) : result T :=
  rbind ag (fun self => getitem (EpsilonGreedy.q_values self) a).

Definition selection_count (ag : result (EpsilonGreedy.t T)) (a : Z) : result Z :=
  rbind ag (fun self => getitem (EpsilonGreedy.action_counts self) a).

(** A small world for the concrete scenarios: a generator, the stream
    seeded with it, a testbed of [runs] bandits with two arms, and an
    agent on that testbed. *)
Definition demo_generator : Z -> nat -> draw T :=
  fun s n => {| bits := s + 7 * Z.of_nat n;
                gauss := s_of_Z (Z.of_nat n mod 3 - 1) |}.

Definition demo_stream : RandomState T :=
  {| generator := demo_generator; seed := 0; cursor := O |}.

Definition demo_testbed (runs : Z) : result (KArmedTestbed.t T) * RandomState T :=
  KArmedTestbed.init runs 2 (s_of_Z 0) (s_of_Z 1) (s_of_Z 1) 0 demo_stream.

Definition demo_agent (initialisation : T) (weighted : bool) (alpha : T)
  : result (EpsilonGreedy.t T) :=
  rbind (fst (demo_testbed 3)) (fun env =>
  EpsilonGreedy.init env (s_div (s_of_Z 1) (s_of_Z 10)) 4
    initialisation weighted alpha).
End Vocabulary.

(** A computed rational result, compared as a number. *)
Definition returns (r : result Q) (q : Q) : Prop :=
  match r with
  | Ok v => (v == q)%Q
  | Raise _ => False
  end.

(** The agent of the concrete scenarios: two actions, initial value 0,
    sample averages; before and after [reset]. *)
Definition scenario_bandit : Bandit.t Q := Bandit.mk 0 2 1%Q [0%Q; 1%Q] 1.

Definition scenario_used : EpsilonGreedy.t Q :=
  EpsilonGreedy.mk (KArmedTestbed.mk 1 2 0%Q 1%Q 1%Q [scenario_bandit])
    (1 # 10)%Q 1000 2 false (1 # 10)%Q 0%Q [(7 # 2)%Q; (-1)%Q] [4; 1].

Definition scenario_fresh : EpsilonGreedy.t Q :=
  EpsilonGreedy.mk (KArmedTestbed.mk 1 2 0%Q 1%Q 1%Q [scenario_bandit])
    (1 # 10)%Q 1000 2 false (1 # 10)%Q 0%Q [0%Q; 0%Q] [0; 0].

(** ** Specifications of computations *)

(** [m] keeps [I], whether it returns or raises. *)
Definition preserves {S A} (I : S -> Prop) (m : M S A) : Prop :=
  forall s, I s -> I (snd (m s)).

(** From a state in [P], [m] returns, with a value and a state in [Q]. *)
Definition succeeds {S A} (P : S -> Prop) (m : M S A) (Q : A -> S -> Prop) : Prop :=
  forall s, P s -> exists a s', m s = (Ok a, s') /\ Q a s'.

Section WellFormed.
Context {T : Type} {ST : Scalar T}.

(** What [Bandit.__init__] establishes. *)
Definition bandit_wf (b : Bandit.t T) : Prop :=
  1 <= Bandit.k b /\
  Z.of_nat (length (Bandit.q_star b)) = Bandit.k b /\
  np_argmax (Bandit.q_star b) = Ok (Bandit.best_action b).

(** What [KArmedTestbed.__init__] establishes. *)
Definition testbed_wf (env : KArmedTestbed.t T) : Prop :=
  Z.of_nat (length (KArmedTestbed.bandits env)) = Z.max 0 (KArmedTestbed.num_runs env) /\
  forall (i : nat) (b : Bandit.t T),
    KArmedTestbed.bandits env !! i = Some b ->
    bandit_wf b /\ Bandit.oid b = i /\
    Bandit.k b = KArmedTestbed.k env /\
    Bandit.bandit_std b = KArmedTestbed.bandit_std env.

(** A property of the agent, as a property of the agent and the stream. *)
Definition on_agent (I : EpsilonGreedy.t T -> Prop)
  : EpsilonGreedy.t T * RandomState T -> Prop :=
  fun s => I (fst s).

(** Both arrays have length [num_actions]. *)
Definition lengths_ok (self : EpsilonGreedy.t T) : Prop :=
  Z.of_nat (length (EpsilonGreedy.q_values self)) = EpsilonGreedy.num_actions self /\
  Z.of_nat (length (EpsilonGreedy.action_counts self)) = EpsilonGreedy.num_actions self.

(** What [EpsilonGreedy.__init__] establishes on such a testbed, and every
    method keeps. *)
Definition agent_wf (self : EpsilonGreedy.t T) : Prop :=
  testbed_wf (EpsilonGreedy.env self) /\
  1 <= KArmedTestbed.num_runs (EpsilonGreedy.env self) /\
  EpsilonGreedy.num_actions self = KArmedTestbed.k (EpsilonGreedy.env self) /\
  (s_eqb (EpsilonGreedy.initialisation self) (s_of_Z 0)
   || s_ltb (s_of_Z 0) (EpsilonGreedy.initialisation self)) = true /\
  lengths_ok self.

(** A well-formed agent on the testbed [e0] with the step budget [ms], in
    any arithmetic. *)
Definition training_on (e0 : KArmedTestbed.t T) (ms : Z) (self : EpsilonGreedy.t T) : Prop :=
  agent_wf self /\ EpsilonGreedy.env self = e0 /\ EpsilonGreedy.max_steps self = ms.

(** ** The operations of the agent, and the states they reach *)

Inductive op : Type :=
| Reset
| Act
| SimpleUpdate (action : Z) (reward : T)
| WeightedUpdate (action : Z) (reward : T)
| Train.

Definition run_op (o : op) : M (EpsilonGreedy.t T * RandomState T) unit :=
  match o with
  | Reset => on_fst EpsilonGreedy.reset
  | Act => let* _ := EpsilonGreedy.act in ret tt
  | SimpleUpdate a r => on_fst (EpsilonGreedy.simple_update a r)
  | WeightedUpdate a r => on_fst (EpsilonGreedy.weighted_update a r)
  | Train => let* _ := EpsilonGreedy.train in ret tt
  end.

(** The states an agent built by the two constructors reaches through
    operations that [allowed] permits.  An operation that raises leaves a
    reachable state too. *)
Inductive reachable_by
    (allowed : EpsilonGreedy.t T * RandomState T -> op -> Prop)
  : EpsilonGreedy.t T * RandomState T -> Prop :=
| reachable_init num_runs k k_mean k_std bandit_std seed g env g'
      epsilon max_steps initialisation weighted alpha self :
    KArmedTestbed.init num_runs k k_mean k_std bandit_std seed g = (Ok env, g') ->
    EpsilonGreedy.init env epsilon max_steps initialisation weighted alpha = Ok self ->
    reachable_by allowed (self, g')
| reachable_step s o :
    reachable_by allowed s -> allowed s o ->
    reachable_by allowed (snd (run_op o s)).

Definition reachable : EpsilonGreedy.t T * RandomState T -> Prop :=
  reachable_by (fun _ _ => True).

(** The operations of an agent that learns by sample averages, with
    counters that stay within 64 bits. *)
Definition sample_average_op (s : EpsilonGreedy.t T * RandomState T) (o : op) : Prop :=
  match o with
  | Reset | Act => True
  | SimpleUpdate a _ =>
      forall n, getitem (EpsilonGreedy.action_counts (fst s)) a = Ok n -> n < int64_max
  | WeightedUpdate _ _ => False
  | Train =>
      EpsilonGreedy.use_weighted_average (fst s) = false /\
      EpsilonGreedy.max_steps (fst s) <= int64_max
  end.
End WellFormed.

(** A greedy agent ([epsilon = 0]) on the demonstration testbed, after one
    reward 5 for action 1: a state the constructors and one update reach. *)
Definition demo_env : KArmedTestbed.t Q :=
  match fst (demo_testbed 3) with
  | Ok e => e
  | Raise _ => KArmedTestbed.mk 0 0 0%Q 0%Q 0%Q []
  end.

Definition demo_stream_after : RandomState Q := snd (demo_testbed 3).

Definition greedy_agent : EpsilonGreedy.t Q :=
  match EpsilonGreedy.init demo_env 0%Q 4 0%Q false (1 # 10)%Q with
  | Ok a => a
  | Raise _ => scenario_fresh
  end.

Definition greedy_state : EpsilonGreedy.t Q * RandomState Q :=
  snd (run_op (SimpleUpdate 1 5%Q) (greedy_agent, demo_stream_after)).


(** The same world in binary64: a greedy agent that learns by sample
    averages, after one reward 5 for action 1; and after the three rewards
    [2^1023], [-2^1023] and [0] for action 0, whose differences overflow. *)
Definition binary64_env : KArmedTestbed.t float :=
  match fst (demo_testbed 3) with
  | Ok e => e
  | Raise _ => KArmedTestbed.mk 0 0 0%float 0%float 0%float []
  end.

Definition binary64_stream_after : RandomState float := snd (demo_testbed 3).

Definition binary64_agent : EpsilonGreedy.t float :=
  match EpsilonGreedy.init binary64_env 0%float 4 0%float false 0.5%float with
  | Ok a => a
  | Raise _ => EpsilonGreedy.mk binary64_env 0%float 4 0 false 0.5%float 0%float [] []
  end.




(** ** The invariant of the agent state *)

(** An action never selected still has the initial estimate. *)
Definition count_zero_means_initial (self : EpsilonGreedy.t Q) : Prop :=
  forall (a n : Z),
    getitem (EpsilonGreedy.action_counts self) a = Ok n -> n = 0 ->
    exists v, getitem (EpsilonGreedy.q_values self) a = Ok v /\
              (v == EpsilonGreedy.initialisation self)%Q.

(** The same, position by position, with the counters between 0 and
    [bound]. *)
Definition sample_average_inv (bound : Z) (self : EpsilonGreedy.t Q) : Prop :=
  lengths_ok self /\
  forall (j : nat) (n : Z),
    EpsilonGreedy.action_counts self !! j = Some n ->
    0 <= n <= bound /\
    (n = 0 -> exists v, EpsilonGreedy.q_values self !! j = Some v /\
                        (v == EpsilonGreedy.initialisation self)%Q).

(** An agent with the constant step size [alpha = 1/2] on the demonstration
    testbed, after one [weighted_update(0, 4)]. *)
Definition weighted_agent : EpsilonGreedy.t Q :=
  match EpsilonGreedy.init demo_env (1 # 10)%Q 4 0%Q true (1 # 2)%Q with
  | Ok a => a
  | Raise _ => scenario_fresh
  end.

Definition weighted_state : EpsilonGreedy.t Q * RandomState Q :=
  snd (run_op (WeightedUpdate 0 4%Q) (weighted_agent, demo_stream_after)).

(** What training by sample averages keeps: the configuration and the
    invariant, for some bound on the counters. *)
Definition sample_average_training (ms : Z)
    (s : EpsilonGreedy.t Q * RandomState Q) : Prop :=
  EpsilonGreedy.use_weighted_average (fst s) = false /\
  EpsilonGreedy.max_steps (fst s) = ms /\
  exists b, sample_average_inv b (fst s).

(** ** Training *)

(** A well-formed agent on the testbed [e0], with the step budget [ms]. *)
Definition trainable (e0 : KArmedTestbed.t Q) (ms : Z)
    (s : EpsilonGreedy.t Q * RandomState Q) : Prop :=
  agent_wf (fst s) /\ EpsilonGreedy.env (fst s) = e0 /\
  EpsilonGreedy.max_steps (fst s) = ms.

(** The dictionaries of [train] after [r] runs: one entry per run, in run
    order, each of [n] steps. *)
Definition trajectories {V} (r n : nat) (d : dict (list V)) : Prop :=
  map fst d = seq 0 r /\ Forall (fun kv => length (snd kv) = n) d.

(** A table [train] returns for the agent [self]: [max_steps] rows and one
    column per run of the testbed, keyed by the bandits in run order, each
    column of [max_steps] entries. *)
Definition trajectory_table {T V} (self : EpsilonGreedy.t T) (df : DataFrame V) : Prop :=
  df_shape df
  = (Z.to_nat (EpsilonGreedy.max_steps self),
     Z.to_nat (KArmedTestbed.num_runs (EpsilonGreedy.env self))) /\
  map fst (df_columns df)
  = map Bandit.oid (KArmedTestbed.bandits (EpsilonGreedy.env self)) /\
  Forall (fun col => length (snd col) = Z.to_nat (EpsilonGreedy.max_steps self))
         (df_columns df).

(** In binary64: a testbed of one run with one arm whose true value is
    [-2^1023], without noise, and a greedy agent that learns by sample
    averages from the optimistic initial value [2^1023], for three steps. *)
Definition overflow_testbed : result (KArmedTestbed.t float) * RandomState float :=
  KArmedTestbed.init 1 1 (-0x1p1023)%float 0%float 0%float 0 demo_stream.

Definition overflow_env : KArmedTestbed.t float :=
  match fst overflow_testbed with
  | Ok e => e
  | Raise _ => KArmedTestbed.mk 0 0 0%float 0%float 0%float []
  end.

Definition overflow_trainee : EpsilonGreedy.t float :=
  match EpsilonGreedy.init overflow_env 0%float 3 0x1p1023%float false 0.5%float with
  | Ok a => a
  | Raise _ => EpsilonGreedy.mk overflow_env 0%float 3 0 false 0.5%float 0%float [] []
  end.

(** * Vocabulary of the further properties *)

Section Configuration.
Context {T : Type} {ST : Scalar T}.

(** Two agents that differ at most in their two arrays. *)
Definition same_config (self self' : EpsilonGreedy.t T) : Prop :=
  EpsilonGreedy.env self' = EpsilonGreedy.env self /\
  EpsilonGreedy.epsilon self' = EpsilonGreedy.epsilon self /\
  EpsilonGreedy.max_steps self' = EpsilonGreedy.max_steps self /\
  EpsilonGreedy.num_actions self' = EpsilonGreedy.num_actions self /\
  EpsilonGreedy.use_weighted_average self' = EpsilonGreedy.use_weighted_average self /\
  EpsilonGreedy.alpha self' = EpsilonGreedy.alpha self /\
  EpsilonGreedy.initialisation self' = EpsilonGreedy.initialisation self.

(** [simple_update(a, r)] for each pair [(a, r)] of a history, in order. *)
Definition simple_update_all (h : list (Z * T)) : M (EpsilonGreedy.t T) unit :=
  for_loop h (fun p _ => EpsilonGreedy.simple_update (fst p) (snd p)) tt.

(** [weighted_update(a, r)] for each reward [r] of [rs], in order. *)
Definition weighted_updates (a : Z) (rs : list T) : M (EpsilonGreedy.t T) unit :=
  for_loop rs (fun r _ => EpsilonGreedy.weighted_update a r) tt.
End Configuration.

(** The rewards a history gives to action [a], in order. *)
Definition rewards_of (a : Z) (h : list (Z * Q)) : list Q :=
  map snd (filter (fun p => fst p = a) h).

Definition Qsum (l : list Q) : Q := fold_right Qplus 0%Q l.

Fixpoint Qpow (x : Q) (n : nat) : Q :=
  match n with
  | O => 1%Q
  | S n' => (x * Qpow x n')%Q
  end.

(** The weight [alpha * (1 - alpha)^(n - i)] of the [i]-th of [n] rewards,
    summed over the rewards. *)
Fixpoint recency_weighted_sum (alpha : Q) (rs : list Q) : Q :=
  match rs with
  | [] => 0%Q
  | r :: rest =>
      (alpha * Qpow (1 - alpha) (length rest) * r + recency_weighted_sum alpha rest)%Q
  end.

(** An agent with three estimates and counts in use, for the concrete
    instances. *)
Definition three_armed : EpsilonGreedy.t Q :=
  EpsilonGreedy.mk (KArmedTestbed.mk 1 3 0%Q 1%Q 1%Q [Bandit.mk 0 3 1%Q [0%Q; 1%Q; 2%Q] 2])
    (1 # 10)%Q 10 3 false (1 # 4)%Q 0%Q [1%Q; 2%Q; 4%Q] [1; 0; 3].

(** The arrays of the agent account for the history [h] of sample-average
    updates: each count is the number of rewards of the action, each
    estimate times the count is their sum, and an action without rewards
    has the initial value. *)
Definition tracks_history (h : list (Z * Q)) (self : EpsilonGreedy.t Q) : Prop :=
  lengths_ok self /\
  forall j : nat,
    Z.of_nat j < EpsilonGreedy.num_actions self ->
    EpsilonGreedy.action_counts self !! j
      = Some (Z.of_nat (length (rewards_of (Z.of_nat j) h))) /\
    exists v,
      EpsilonGreedy.q_values self !! j = Some v /\
      (v * inject_Z (Z.of_nat (length (rewards_of (Z.of_nat j) h)))
       == Qsum (rewards_of (Z.of_nat j) h))%Q /\
      (rewards_of (Z.of_nat j) h = [] -> (v == EpsilonGreedy.initialisation self)%Q).

(** A short history: action 0 receives 1 and 3, action 1 receives 10. *)
Definition demo_history : list (Z * Q) := [(0, 1%Q); (1, 10%Q); (0, 3%Q)].

(** The update rule the agent is configured with. *)
Definition update_rule {T : Type} {ST : Scalar T} (self : EpsilonGreedy.t T)
    (action : Z) (reward : T) : M (EpsilonGreedy.t T) unit :=
  if EpsilonGreedy.use_weighted_average self
  then EpsilonGreedy.weighted_update action reward
  else EpsilonGreedy.simple_update action reward.

Definition Zsum (l : list Z) : Z := fold_right Z.add 0 l.

(** The sum over the actions of count times estimate. *)
Definition weighted_total (counts : list Z) (q : list Q) : Q :=
  Qsum (zip_with (fun c v => (inject_Z c * v)%Q) counts q).

(** What a run of sample-average training keeps after [i] steps: the
    counts are non-negative and add up to [i], the entries of [rewards] not
    yet written are 0, and the counts times the estimates add up to the
    rewards recorded. *)
Definition run_accounts (i : nat) (rewards : list Q) (self : EpsilonGreedy.t Q) : Prop :=
  EpsilonGreedy.use_weighted_average self = false /\
  length (EpsilonGreedy.q_values self) = length (EpsilonGreedy.action_counts self) /\
  Forall (fun c => 0 <= c) (EpsilonGreedy.action_counts self) /\
  Zsum (EpsilonGreedy.action_counts self) = Z.of_nat i /\
  (forall t, (i <= t)%nat -> (t < length rewards)%nat -> rewards !! t = Some 0%Q) /\
  (weighted_total (EpsilonGreedy.action_counts self) (EpsilonGreedy.q_values self)
   == Qsum rewards)%Q.

(** What constant-step-size training keeps from the first [reset] on, in
    any arithmetic: a well-formed agent of [n] actions with that rule, whose
    counts are all 0. *)
Definition uncounted {T : Type} {ST : Scalar T} (n : Z) (self : EpsilonGreedy.t T) : Prop :=
  agent_wf self /\ EpsilonGreedy.num_actions self = n /\
  EpsilonGreedy.use_weighted_average self = true /\
  Forall (fun c => c = 0) (EpsilonGreedy.action_counts self).

(** An agent the constructor accepts with the step budget [-5]. *)
Definition negative_budget_agent : EpsilonGreedy.t Q :=
  match EpsilonGreedy.init demo_env (1 # 10)%Q (-5) 0%Q false (1 # 10)%Q with
  | Ok a => a
  | Raise _ => scenario_fresh
  end.

(** An agent the constructor builds with the step budget [0]. *)
Definition zero_budget_agent : EpsilonGreedy.t Q :=
  match EpsilonGreedy.init demo_env (1 # 10)%Q 0 0%Q false (1 # 10)%Q with
  | Ok a => a
  | Raise _ => scenario_fresh
  end.

(** * Properties *)

(** ** Indexing *)

Lemma np_index_nonneg (n : nat) (i : Z) :
  0 <= i < Z.of_nat n -> np_index n i = Ok (Z.to_nat i).
Proof.
  intros Hi. unfold np_index.
  destruct (Z.leb_spec 0 i); [|lia].
  destruct (Z.ltb_spec i (Z.of_nat n)); [|lia].
  reflexivity.
Qed.

Lemma np_index_negative (n : nat) (i : Z) :
  - Z.of_nat n <= i < 0 -> np_index n i = Ok (Z.to_nat (i + Z.of_nat n)).
Proof.
  intros Hi. unfold np_index.
  destruct (Z.leb_spec 0 i); [lia|]. simpl.
  destruct (Z.leb_spec (- Z.of_nat n) i); [|lia].
  destruct (Z.ltb_spec i 0); [|lia].
  reflexivity.
Qed.

Lemma np_index_outside (n : nat) (i : Z) :
  i < - Z.of_nat n \/ Z.of_nat n <= i -> np_index n i = Raise IndexError.
Proof.
  intros Hi. unfold np_index.
  destruct (Z.leb_spec 0 i), (Z.ltb_spec i (Z.of_nat n)),
    (Z.leb_spec (- Z.of_nat n) i), (Z.ltb_spec i 0); simpl; try reflexivity; lia.
Qed.

Lemma np_index_Ok (n : nat) (i : Z) (j : nat) :
  np_index n i = Ok j ->
  (j < n)%nat /\
  ((0 <= i < Z.of_nat n /\ j = Z.to_nat i) \/
   (- Z.of_nat n <= i < 0 /\ j = Z.to_nat (i + Z.of_nat n))).
Proof.
  unfold np_index.
  destruct (Z.leb_spec 0 i), (Z.ltb_spec i (Z.of_nat n)),
    (Z.leb_spec (- Z.of_nat n) i), (Z.ltb_spec i 0); simpl;
    intros [= <-]; (split; [lia|]); first [left; split; [lia|reflexivity] | right; split; [lia|reflexivity]].
Qed.

Lemma getitem_lookup {A} (l : list A) (i : Z) (j : nat) (x : A) :
  np_index (length l) i = Ok j -> l !! j = Some x -> getitem l i = Ok x.
Proof. intros Hi Hx. unfold getitem. rewrite Hi. simpl. rewrite Hx. reflexivity. Qed.

Lemma getitem_Ok {A} (l : list A) (i : Z) (x : A) :
  getitem l i = Ok x ->
  exists j, np_index (length l) i = Ok j /\ l !! j = Some x.
Proof.
  unfold getitem. destruct (np_index (length l) i) as [j|e] eqn:Hi; simpl; [|discriminate].
  destruct (l !! j) as [y|] eqn:Hy; [|discriminate].
  intros [= <-]. exists j. split; [reflexivity|assumption].
Qed.

Lemma getitem_index_Ok {A} (l : list A) (i : Z) (j : nat) :
  np_index (length l) i = Ok j -> exists x, l !! j = Some x /\ getitem l i = Ok x.
Proof.
  intros Hi. destruct (np_index_Ok _ _ _ Hi) as [Hlt _].
  destruct (lookup_lt_is_Some_2 l j Hlt) as [x Hx].
  exists x. split; [assumption|]. eapply getitem_lookup; eassumption.
Qed.

Lemma getitem_Raise {A} (l : list A) (i : Z) (e : exn) :
  getitem l i = Raise e ->
  e = IndexError /\ (i < - Z.of_nat (length l) \/ Z.of_nat (length l) <= i).
Proof.
  unfold getitem. destruct (np_index (length l) i) as [j|e'] eqn:Hi; simpl.
  - destruct (np_index_Ok _ _ _ Hi) as [Hlt _].
    destruct (lookup_lt_is_Some_2 l j Hlt) as [x Hx]. rewrite Hx. discriminate.
  - intros [= <-]. revert Hi. unfold np_index.
    destruct (Z.leb_spec 0 i), (Z.ltb_spec i (Z.of_nat (length l))),
      (Z.leb_spec (- Z.of_nat (length l)) i), (Z.ltb_spec i 0); simpl;
      try discriminate; intros [= <-]; split; try reflexivity; lia.
Qed.

Lemma setitem_index {A} (l : list A) (i : Z) (j : nat) (v : A) :
  np_index (length l) i = Ok j -> setitem l i v = Ok (<[j:=v]> l).
Proof. intros Hi. unfold setitem. rewrite Hi. reflexivity. Qed.

Lemma setitem_Ok {A} (l l' : list A) (i : Z) (v : A) :
  setitem l i v = Ok l' ->
  exists j, np_index (length l) i = Ok j /\ l' = <[j:=v]> l.
Proof.
  unfold setitem. destruct (np_index (length l) i) as [j|e]; simpl; [|discriminate].
  intros [= <-]. exists j. split; reflexivity.
Qed.

Lemma setitem_length {A} (l l' : list A) (i : Z) (v : A) :
  setitem l i v = Ok l' -> length l' = length l.
Proof.
  intros H. destruct (setitem_Ok _ _ _ _ H) as (j & _ & ->).
  apply length_insert.
Qed.

Lemma np_full_Ok {A} (n : Z) (v : A) :
  0 <= n -> np_full n v = Ok (replicate (Z.to_nat n) v).
Proof. intros Hn. unfold np_full. destruct (Z.ltb_spec n 0); [lia|reflexivity]. Qed.

Lemma np_full_Raise {A} (n : Z) (v : A) :
  n < 0 -> np_full n v = Raise ValueError.
Proof. intros Hn. unfold np_full. destruct (Z.ltb_spec n 0); [reflexivity|lia]. Qed.

Lemma np_full_inv {A} (n : Z) (v : A) (l : list A) :
  np_full n v = Ok l -> 0 <= n /\ l = replicate (Z.to_nat n) v.
Proof.
  unfold np_full. destruct (Z.ltb_spec n 0); [discriminate|].
  intros [= <-]. split; [assumption|reflexivity].
Qed.

Lemma wrap_int64_small (z : Z) :
  int64_min <= z <= int64_max -> wrap_int64 z = z.
Proof.
  unfold int64_min, int64_max, wrap_int64. intros Hz.
  rewrite Z.mod_small by lia. lia.
Qed.

(** ** Rules for [preserves] and [succeeds] *)

Section Rules.
Context {S : Type}.

Lemma bind_Ok {A B} (m : M S A) (k : A -> M S B) (s s' : S) (a : A) :
  m s = (Ok a, s') -> bind m k s = k a s'.
Proof. intros H. unfold bind. rewrite H. reflexivity. Qed.

Lemma bind_Raise {A B} (m : M S A) (k : A -> M S B) (s s' : S) (e : exn) :
  m s = (Raise e, s') -> bind m k s = (Raise e, s').
Proof. intros H. unfold bind. rewrite H. reflexivity. Qed.

Lemma preserves_ret {A} (I : S -> Prop) (a : A) : preserves I (ret a).
Proof. intros s Hs. exact Hs. Qed.

Lemma preserves_raise {A} (I : S -> Prop) (e : exn) : preserves I (@raise S A e).
Proof. intros s Hs. exact Hs. Qed.

Lemma preserves_get (I : S -> Prop) : preserves I get.
Proof. intros s Hs. exact Hs. Qed.

Lemma preserves_lift_result {A} (I : S -> Prop) (r : result A) :
  preserves I (lift_result r).
Proof. intros s Hs. exact Hs. Qed.

Lemma preserves_bind {A B} (I : S -> Prop) (m : M S A) (k : A -> M S B) :
  preserves I m -> (forall a, preserves I (k a)) -> preserves I (bind m k).
Proof.
  intros Hm Hk s Hs. unfold bind.
  specialize (Hm s Hs). destruct (m s) as [[a|e] s']; cbn [snd] in *.
  - apply Hk. exact Hm.
  - exact Hm.
Qed.

Lemma preserves_if {A} (I : S -> Prop) (b : bool) (m1 m2 : M S A) :
  preserves I m1 -> preserves I m2 -> preserves I (if b then m1 else m2).
Proof. destruct b; auto. Qed.

Lemma preserves_for_loop {A X} (I : S -> Prop) (xs : list X)
    (body : X -> A -> M S A) :
  (forall x acc, preserves I (body x acc)) ->
  forall acc, preserves I (for_loop xs body acc).
Proof.
  intros Hbody. induction xs as [|x xs IH]; intros acc; cbn [for_loop].
  - apply preserves_ret.
  - apply preserves_bind; [apply Hbody|]. intros acc'. apply IH.
Qed.

(** A loop whose invariant depends on the number of iterations begun. *)
Lemma for_loop_indexed {A X} (I : nat -> S -> Prop) (xs : list X)
    (body : X -> A -> M S A) :
  (forall i x acc s, xs !! i = Some x -> I i s -> I (Datatypes.S i) (snd (body x acc s))) ->
  (forall i s, I i s -> I (Datatypes.S i) s) ->
  forall acc s, I O s -> I (length xs) (snd (for_loop xs body acc s)).
Proof.
  intros Hbody Hmono.
  assert (Hge : forall n i s, I i s -> I (n + i)%nat s).
  { induction n; intros i s Hs; [exact Hs|]. apply Hmono. apply IHn. exact Hs. }
  assert (Hgen : forall ys off acc s,
    (forall i x, ys !! i = Some x -> xs !! (off + i)%nat = Some x) ->
    I off s -> I (length ys + off)%nat (snd (for_loop ys body acc s))).
  { induction ys as [|y ys IH]; intros off acc s Hsub Hs; cbn [for_loop length].
    - exact Hs.
    - unfold bind.
      pose proof (Hbody off y acc s) as Hstep.
      rewrite <- (Nat.add_0_r off) in Hstep at 1.
      specialize (Hstep (Hsub O y eq_refl) Hs).
      destruct (body y acc s) as [[acc'|e] s1]; cbn [snd] in *.
      + replace (Datatypes.S (length ys) + off)%nat
          with (length ys + Datatypes.S off)%nat by lia.
        apply IH; [|exact Hstep].
        intros i x Hx. replace (Datatypes.S off + i)%nat with (off + Datatypes.S i)%nat by lia.
        apply Hsub. exact Hx.
      + replace (Datatypes.S (length ys) + off)%nat
          with (length ys + Datatypes.S off)%nat by lia.
        apply Hge. exact Hstep. }
  intros acc s Hs.
  rewrite <- (Nat.add_0_r (length xs)).
  apply Hgen; [|exact Hs]. intros i x Hx. exact Hx.
Qed.

Lemma succeeds_ret {A} (P : S -> Prop) (a : A) (Q : A -> S -> Prop) :
  (forall s, P s -> Q a s) -> succeeds P (ret a) Q.
Proof. intros H s Hs. exists a, s. split; [reflexivity|auto]. Qed.

Lemma succeeds_bind {A B} (P : S -> Prop) (m : M S A) (R : A -> S -> Prop)
    (k : A -> M S B) (Q : B -> S -> Prop) :
  succeeds P m R -> (forall a, succeeds (R a) (k a) Q) -> succeeds P (bind m k) Q.
Proof.
  intros Hm Hk s Hs.
  destruct (Hm s Hs) as (a & s' & Hrun & HR).
  destruct (Hk a s' HR) as (b & s'' & Hrun' & HQ).
  exists b, s''. split; [|exact HQ].
  rewrite (bind_Ok _ _ _ _ _ Hrun). exact Hrun'.
Qed.

Lemma succeeds_weaken {A} (P P' : S -> Prop) (m : M S A) (Q Q' : A -> S -> Prop) :
  succeeds P m Q -> (forall s, P' s -> P s) -> (forall a s, Q a s -> Q' a s) ->
  succeeds P' m Q'.
Proof.
  intros Hm HP HQ s Hs. destruct (Hm s (HP s Hs)) as (a & s' & Hrun & Ha).
  exists a, s'. split; [exact Hrun|]. apply HQ. exact Ha.
Qed.

(** A loop that returns: [I i acc] after [i] iterations. *)
Lemma succeeds_for_loop {A X} (I : nat -> A -> S -> Prop) (xs : list X)
    (body : X -> A -> M S A) :
  (forall i x acc, xs !! i = Some x ->
     succeeds (I i acc) (body x acc) (I (Datatypes.S i))) ->
  forall acc, succeeds (I O acc) (for_loop xs body acc) (I (length xs)).
Proof.
  intros Hbody.
  assert (Hgen : forall ys off acc,
    (forall i x, ys !! i = Some x -> xs !! (off + i)%nat = Some x) ->
    succeeds (I off acc) (for_loop ys body acc) (I (length ys + off)%nat)).
  { induction ys as [|y ys IH]; intros off acc Hsub; cbn [for_loop length].
    - apply succeeds_ret. auto.
    - eapply succeeds_bind.
      + apply (Hbody off y acc). rewrite <- (Nat.add_0_r off). apply Hsub. reflexivity.
      + intros acc'.
        replace (Datatypes.S (length ys) + off)%nat
          with (length ys + Datatypes.S off)%nat by lia.
        apply IH. intros i x Hx.
        replace (Datatypes.S off + i)%nat with (off + Datatypes.S i)%nat by lia.
        apply Hsub. exact Hx. }
  intros acc. rewrite <- (Nat.add_0_r (length xs)).
  apply Hgen. intros i x Hx. exact Hx.
Qed.
End Rules.

Section PairRules.
Context {S1 S2 : Type}.

Lemma on_fst_run {A} (m : M S1 A) (s : S1 * S2) :
  on_fst m s = (fst (m (fst s)), (snd (m (fst s)), snd s)).
Proof. unfold on_fst. destruct (m (fst s)); reflexivity. Qed.

Lemma on_snd_run {A} (m : M S2 A) (s : S1 * S2) :
  on_snd m s = (fst (m (snd s)), (fst s, snd (m (snd s)))).
Proof. unfold on_snd. destruct (m (snd s)); reflexivity. Qed.

(** A computation on the second component keeps what is known of the
    first. *)
Lemma preserves_on_snd {A} (I : S1 -> Prop) (m : M S2 A) :
  preserves (fun s : S1 * S2 => I (fst s)) (on_snd m).
Proof. intros s Hs. rewrite on_snd_run. exact Hs. Qed.

Lemma preserves_on_fst {A} (I : S1 -> Prop) (m : M S1 A) :
  preserves I m -> preserves (fun s : S1 * S2 => I (fst s)) (on_fst m).
Proof. intros Hm s Hs. rewrite on_fst_run. cbn [fst snd]. apply Hm. exact Hs. Qed.
End PairRules.

(** ** The update rules, run *)

Section UpdateRules.
Context {T : Type} {ST : Scalar T}.
Import EpsilonGreedy.

Lemma weighted_update_unfold (self : t T) (a : Z) (r : T) :
  weighted_update a r self =
  match getitem (q_values self) a with
  | Raise e => (Raise e, self)
  | Ok q =>
      match setitem (q_values self) a (s_add q (s_mul (alpha self) (s_sub r q))) with
      | Raise e => (Raise e, self)
      | Ok qs => (Ok tt, set_q_values self qs)
      end
  end.
Proof.
  unfold weighted_update, bind, get, lift_result, put.
  destruct (getitem (q_values self) a) as [q|e]; [|reflexivity].
  destruct (setitem (q_values self) a _); reflexivity.
Qed.

Lemma weighted_update_at (self : t T) (a : Z) (r : T) (j : nat) (q : T) :
  np_index (length (q_values self)) a = Ok j ->
  q_values self !! j = Some q ->
  weighted_update a r self =
  (Ok tt, set_q_values self
            (<[j := s_add q (s_mul (alpha self) (s_sub r q))]> (q_values self))).
Proof.
  intros Hj Hq. rewrite weighted_update_unfold.
  rewrite (getitem_lookup _ _ _ _ Hj Hq), (setitem_index _ _ _ _ Hj).
  reflexivity.
Qed.

Lemma weighted_update_invalid (self : t T) (a : Z) (r : T) :
  np_index (length (q_values self)) a = Raise IndexError ->
  weighted_update a r self = (Raise IndexError, self).
Proof.
  intros Hj. rewrite weighted_update_unfold. unfold getitem. rewrite Hj. reflexivity.
Qed.

Lemma simple_update_at (self : t T) (a : Z) (r : T) (j : nat) (n : Z) (q : T) :
  np_index (length (action_counts self)) a = Ok j ->
  np_index (length (q_values self)) a = Ok j ->
  action_counts self !! j = Some n ->
  q_values self !! j = Some q ->
  simple_update a r self =
  (Ok tt,
   set_q_values
     (set_action_counts self (<[j := wrap_int64 (n + 1)]> (action_counts self)))
     (<[j := s_add q (s_mul (s_div (s_of_Z 1) (s_of_Z (wrap_int64 (n + 1))))
                            (s_sub r q))]> (q_values self))).
Proof.
  intros Hc Hq Hn Hv.
  assert (Hlt : (j < length (action_counts self))%nat)
    by (eapply lookup_lt_Some; eassumption).
  unfold simple_update, bind, get, lift_result, put.
  rewrite (getitem_lookup _ _ _ _ Hc Hn), (setitem_index _ _ _ _ Hc).
  cbn [action_counts set_action_counts q_values].
  assert (Hc' : np_index (length (<[j:=wrap_int64 (n + 1)]> (action_counts self))) a = Ok j)
    by (rewrite length_insert; exact Hc).
  rewrite (getitem_lookup _ _ j (wrap_int64 (n + 1)) Hc')
    by (apply list_lookup_insert_eq; exact Hlt).
  rewrite (getitem_lookup _ _ _ _ Hq Hv), (setitem_index _ _ _ _ Hq).
  reflexivity.
Qed.

Lemma simple_update_invalid (self : t T) (a : Z) (r : T) :
  np_index (length (action_counts self)) a = Raise IndexError ->
  simple_update a r self = (Raise IndexError, self).
Proof.
  intros Hj. unfold simple_update, bind, get, lift_result, put, getitem.
  rewrite Hj. reflexivity.
Qed.

(** What an update can do to the two arrays, whatever its outcome. *)
Lemma weighted_update_changes (self : t T) (a : Z) (r : T) :
  let self' := snd (weighted_update a r self) in
  action_counts self' = action_counts self /\
  (q_values self' = q_values self \/
   exists j v, np_index (length (q_values self)) a = Ok j /\
               q_values self' = <[j:=v]> (q_values self)) /\
  env self' = env self /\ epsilon self' = epsilon self /\
  max_steps self' = max_steps self /\ num_actions self' = num_actions self /\
  use_weighted_average self' = use_weighted_average self /\
  alpha self' = alpha self /\ initialisation self' = initialisation self.
Proof.
  rewrite weighted_update_unfold.
  destruct (getitem (q_values self) a) as [q|e] eqn:Hg; cbn [snd]; [|tauto].
  destruct (setitem (q_values self) a _) as [qs|e] eqn:Hs; cbn [snd]; [|tauto].
  destruct (setitem_Ok _ _ _ _ Hs) as (j & Hj & ->).
  cbn. repeat split; try reflexivity. right. eauto.
Qed.

Lemma simple_update_changes (self : t T) (a : Z) (r : T) :
  let self' := snd (simple_update a r self) in
  (action_counts self' = action_counts self \/
   exists j n, np_index (length (action_counts self)) a = Ok j /\
               action_counts self' = <[j:=n]> (action_counts self)) /\
  (q_values self' = q_values self \/
   exists j v, np_index (length (q_values self)) a = Ok j /\
               q_values self' = <[j:=v]> (q_values self)) /\
  env self' = env self /\ epsilon self' = epsilon self /\
  max_steps self' = max_steps self /\ num_actions self' = num_actions self /\
  use_weighted_average self' = use_weighted_average self /\
  alpha self' = alpha self /\ initialisation self' = initialisation self.
Proof.
  unfold simple_update, bind, get, lift_result, put.
  destruct (getitem (action_counts self) a) as [n|e] eqn:Hg; cbn [snd]; [|tauto].
  destruct (setitem (action_counts self) a _) as [c|e] eqn:Hs; cbn [snd]; [|tauto].
  destruct (setitem_Ok _ _ _ _ Hs) as (j & Hj & ->).
  cbn [action_counts set_action_counts q_values].
  destruct (getitem (<[j:=_]> (action_counts self)) a) as [n'|e]; cbn [snd];
    [|cbn; repeat split; eauto].
  destruct (getitem (q_values self) a) as [q|e] eqn:Hq; cbn [snd];
    [|cbn; repeat split; eauto].
  destruct (setitem (q_values self) a _) as [qs|e] eqn:Hqs; cbn [snd];
    [|cbn; repeat split; eauto].
  destruct (setitem_Ok _ _ _ _ Hqs) as (j' & Hj' & ->).
  cbn. repeat split; eauto.
Qed.

Lemma getitem_insert_other {A} (l : list A) (a b : Z) (j : nat) (v : A) :
  np_index (length l) a = Ok j ->
  np_index (length l) b <> np_index (length l) a ->
  getitem (<[j:=v]> l) b = getitem l b.
Proof.
  intros Ha Hb. unfold getitem. rewrite length_insert.
  destruct (np_index (length l) b) as [i|e]; [|reflexivity].
  cbn. rewrite list_lookup_insert_ne; [reflexivity|].
  intros ->. apply Hb. symmetry. exact Ha.
Qed.
End UpdateRules.

(** ** [reset] and [__init__], run *)

Section Reset.
Context {T : Type} {ST : Scalar T}.
Import EpsilonGreedy.

(** The value [reset] fills [q_values] with, when it accepts
    [initialisation]. *)
Lemma reset_unfold (self : t T) :
  reset self =
  if s_eqb (initialisation self) (s_of_Z 0) || s_ltb (s_of_Z 0) (initialisation self)
  then
    if num_actions self <? 0 then (Raise ValueError, self)
    else
      (Ok tt,
       set_action_counts
         (set_q_values self
            (replicate (Z.to_nat (num_actions self))
               (if s_eqb (initialisation self) (s_of_Z 0) then s_of_Z 0
                else initialisation self)))
         (replicate (Z.to_nat (num_actions self)) 0))
  else (Raise ValueError, self).
Proof.
  unfold reset, bind, get, lift_result, put, raise, np_full.
  destruct (s_eqb (initialisation self) (s_of_Z 0)); cbn [orb].
  - destruct (num_actions self <? 0) eqn:Hn; [reflexivity|].
    cbn [num_actions set_q_values]. rewrite Hn. reflexivity.
  - destruct (s_ltb (s_of_Z 0) (initialisation self)); [|reflexivity].
    destruct (num_actions self <? 0) eqn:Hn; [reflexivity|].
    cbn [num_actions set_q_values]. rewrite Hn. reflexivity.
Qed.

Lemma reset_state (self : t T) :
  let self' := snd (reset self) in
  env self' = env self /\ epsilon self' = epsilon self /\
  max_steps self' = max_steps self /\ num_actions self' = num_actions self /\
  use_weighted_average self' = use_weighted_average self /\
  alpha self' = alpha self /\ initialisation self' = initialisation self.
Proof.
  rewrite reset_unfold.
  destruct (_ || _); [destruct (_ <? _)|]; cbn; repeat split; reflexivity.
Qed.

Lemma reset_Ok (self self' : t T) (u : unit) :
  reset self = (Ok u, self') ->
  0 <= num_actions self /\
  (s_eqb (initialisation self) (s_of_Z 0) || s_ltb (s_of_Z 0) (initialisation self)) = true /\
  action_counts self' = replicate (Z.to_nat (num_actions self)) 0 /\
  q_values self' =
    replicate (Z.to_nat (num_actions self))
      (if s_eqb (initialisation self) (s_of_Z 0) then s_of_Z 0
       else initialisation self).
Proof.
  rewrite reset_unfold.
  destruct (_ || _); [|discriminate].
  destruct (Z.ltb_spec (num_actions self) 0); [discriminate|].
  intros [= _ <-]. cbn. repeat split; try reflexivity. assumption.
Qed.

Lemma reset_Raise (self self' : t T) (e : exn) :
  reset self = (Raise e, self') -> e = ValueError /\ self' = self.
Proof.
  rewrite reset_unfold.
  destruct (_ || _); [destruct (_ <? _)|]; intros [= <- <-] || discriminate;
    split; reflexivity.
Qed.

Lemma init_unfold (env_ : KArmedTestbed.t T) (epsilon_ : T) (max_steps_ : Z)
    (initialisation_ : T) (weighted : bool) (alpha_ : T) :
  init env_ epsilon_ max_steps_ initialisation_ weighted alpha_ =
  match KArmedTestbed.bandits env_ with
  | [] => Raise IndexError
  | b0 :: _ =>
      if Bandit.k b0 <? 0 then Raise ValueError
      else if s_eqb initialisation_ (s_of_Z 0) || s_ltb (s_of_Z 0) initialisation_
      then
        Ok (mk env_ epsilon_ max_steps_ (Bandit.k b0) weighted alpha_ initialisation_
              (replicate (Z.to_nat (Bandit.k b0))
                 (if s_eqb initialisation_ (s_of_Z 0) then s_of_Z 0
                  else initialisation_))
              (replicate (Z.to_nat (Bandit.k b0)) 0))
      else Raise ValueError
  end.
Proof.
  unfold init.
  destruct (KArmedTestbed.bandits env_) as [|b0 bs] eqn:Hb.
  - reflexivity.
  - unfold getitem. rewrite np_index_nonneg by (cbn [length]; lia).
    change (Z.to_nat 0) with O. cbn [rbind lookup list_lookup].
    unfold np_full.
    destruct (Bandit.k b0 <? 0) eqn:Hk; [reflexivity|]. cbn [rbind].
    rewrite reset_unfold. cbn [initialisation num_actions].
    rewrite Hk.
    destruct (_ || _); reflexivity.
Qed.
End Reset.

(** ** Comparisons of rationals *)

Lemma Qlt_bool_iff (x y : Q) : Qlt_bool x y = true <-> (x < y)%Q.
Proof. unfold Qlt_bool, Qlt. apply Z.ltb_lt. Qed.

Lemma Qlt_bool_false (x y : Q) : Qlt_bool x y = false <-> (y <= x)%Q.
Proof. unfold Qlt_bool, Qle. rewrite Z.ltb_ge. reflexivity. Qed.

(** Among the rationals the scales numpy rejects are the negative ones. *)
Lemma Q_negative_scale (x : Q) : np_random.negative_scale x = Qlt_bool x 0.
Proof.
  unfold np_random.negative_scale. cbn [s_ltb s_eqb s_div s_of_Z Q_scalar].
  change (inject_Z 0) with 0%Q.
  destruct (Qeq_bool x 0) eqn:Hx; [|rewrite orb_false_r; reflexivity].
  apply Qeq_bool_iff in Hx.
  assert (H : Qlt_bool (inject_Z 1 / x) 0 = false).
  { apply Qlt_bool_false. rewrite Hx. discriminate. }
  rewrite H, orb_false_r. reflexivity.
Qed.

(** No rational is a nan. *)
Lemma Q_isnan (x : Q) : isnan x = false.
Proof.
  unfold isnan. cbn [s_eqb Q_scalar].
  rewrite (proj2 (Qeq_bool_iff x x) (Qeq_refl x)). reflexivity.
Qed.

Lemma Q_accepts_initialisation (x : Q) :
  (s_eqb x (s_of_Z 0) || s_ltb (s_of_Z 0) x) = true <-> (0 <= x)%Q.
Proof.
  cbn [s_eqb s_ltb s_of_Z Q_scalar]. change (inject_Z 0) with 0%Q.
  rewrite orb_true_iff, Qeq_bool_iff, Qlt_bool_iff. split.
  - intros [H|H]; [rewrite H; apply Qle_refl | apply Qlt_le_weak; exact H].
  - intros H. destruct (Qlt_le_dec 0 x) as [Hlt|Hle]; [right; exact Hlt|].
    left. apply Qle_antisym; assumption.
Qed.

Lemma Q_initial_value (x : Q) :
  ((if s_eqb x (s_of_Z 0) then s_of_Z 0 else x) == x)%Q.
Proof.
  cbn [s_eqb s_of_Z Q_scalar]. change (inject_Z 0) with 0%Q.
  destruct (Qeq_bool x 0) eqn:H; [|reflexivity].
  apply Qeq_bool_iff in H. symmetry. exact H.
Qed.

(** ** The random stream, the bandits and the testbed, run *)

Lemma range_length (n : Z) : length (range n) = Z.to_nat n.
Proof. unfold range. rewrite length_map, length_seq. reflexivity. Qed.

Lemma range_lookup (n : Z) (i : nat) (x : Z) :
  range n !! i = Some x -> x = Z.of_nat i /\ (i < Z.to_nat n)%nat.
Proof.
  unfold range. rewrite list_lookup_fmap.
  destruct (seq 0 (Z.to_nat n) !! i) as [y|] eqn:Hy; [|discriminate].
  apply lookup_seq in Hy. cbn. intros [= <-]. destruct Hy as [-> Hlt].
  split; [reflexivity|exact Hlt].
Qed.

Section Comprehension.
Context {S X B : Type}.

Lemma comprehension_Ok (P : nat -> B -> Prop) (f : X -> M S B) (xs : list X) :
  (forall i x s y s', xs !! i = Some x -> f x s = (Ok y, s') -> P i y) ->
  forall s ys s', comprehension xs f s = (Ok ys, s') ->
    length ys = length xs /\ forall i y, ys !! i = Some y -> P i y.
Proof.
  intros Hf.
  assert (Hgen : forall zs off,
    (forall i x, zs !! i = Some x -> xs !! (off + i)%nat = Some x) ->
    forall s ys s', comprehension zs f s = (Ok ys, s') ->
      length ys = length zs /\ forall i y, ys !! i = Some y -> P (off + i)%nat y).
  { induction zs as [|z zs IH]; intros off Hsub s ys s'; cbn [comprehension].
    - intros [= <- <-]. split; [reflexivity|]. intros i y [=].
    - unfold bind at 1. destruct (f z s) as [[y|e] s1] eqn:Hz; [|discriminate].
      unfold bind at 1.
      destruct (comprehension zs f s1) as [[ys'|e] s2] eqn:Hrest; [|discriminate].
      intros [= <- <-].
      destruct (IH (Datatypes.S off)) with (1 := fun i x (H : zs !! i = Some x) =>
          eq_ind _ (fun n => xs !! n = Some x) (Hsub (Datatypes.S i) x H) _
            (eq_sym (Nat.add_succ_comm off i)))
          (2 := Hrest) as [Hlen Hall].
      split; [cbn [length]; congruence|].
      intros [|i] y'; cbn.
      + intros [= <-]. rewrite Nat.add_0_r. eapply Hf; [|exact Hz].
        rewrite <- (Nat.add_0_r off). apply Hsub. reflexivity.
      + intros Hy. rewrite <- Nat.add_succ_comm. apply Hall. exact Hy. }
  intros s ys s' Hrun.
  destruct (Hgen xs O (fun i x H => H) s ys s' Hrun) as [Hlen Hall].
  split; [exact Hlen|exact Hall].
Qed.

Lemma comprehension_Raise (f : X -> M S B) (x : X) (xs : list X) (s : S) (e : exn) :
  fst (f x s) = Raise e -> fst (comprehension (x :: xs) f s) = Raise e.
Proof.
  cbn [comprehension]. unfold bind at 1.
  destruct (f x s) as [[y|e'] s1]; cbn [fst]; intros H; [discriminate|congruence].
Qed.
End Comprehension.

Section Testbed.
Context {T : Type} {ST : Scalar T}.

Lemma normal_n_Ok (loc scale : T) (size : Z) (g g' : RandomState T) (l : list T) :
  np_random.normal_n loc scale size g = (Ok l, g') ->
  0 <= size /\ Z.of_nat (length l) = size.
Proof.
  unfold np_random.normal_n. destruct (np_random.negative_scale scale); [discriminate|].
  destruct (Z.ltb_spec size 0); [discriminate|].
  intros Hrun.
  destruct (comprehension_Ok (fun _ _ => True) _ _ (fun _ _ _ _ _ _ _ => I) _ _ _ Hrun)
    as [Hlen _].
  rewrite range_length in Hlen. split; [assumption|lia].
Qed.

Lemma normal_n_negative (loc scale : T) (size : Z) (g : RandomState T) :
  size < 0 -> np_random.normal_n loc scale size g = (Raise ValueError, g).
Proof.
  intros H. unfold np_random.normal_n. destruct (np_random.negative_scale scale); [reflexivity|].
  destruct (Z.ltb_spec size 0); [reflexivity|lia].
Qed.

Lemma normal_n_zero (loc scale : T) (g : RandomState T) :
  np_random.normal_n loc scale 0 g = (Ok [], g) \/
  np_random.normal_n loc scale 0 g = (Raise ValueError, g).
Proof.
  unfold np_random.normal_n. destruct (np_random.negative_scale scale); [right|left]; reflexivity.
Qed.

Lemma np_argmax_Ok (l : list T) (m : Z) :
  np_argmax l = Ok m -> l <> [].
Proof. destruct l; [discriminate|discriminate]. Qed.

Lemma Bandit_init_Ok (id : nat) (k : Z) (k_mean k_std bandit_std : T)
    (g g' : RandomState T) (b : Bandit.t T) :
  Bandit.init id k k_mean k_std bandit_std g = (Ok b, g') ->
  bandit_wf b /\ Bandit.oid b = id /\ Bandit.k b = k /\ Bandit.bandit_std b = bandit_std.
Proof.
  unfold Bandit.init. unfold bind at 1.
  destruct (np_random.normal_n k_mean k_std k g) as [[q|e] g1] eqn:Hq; [|discriminate].
  unfold bind, lift_result, ret.
  destruct (np_argmax q) as [best|e] eqn:Hbest; [|discriminate].
  intros [= <- <-]. cbn.
  destruct (normal_n_Ok _ _ _ _ _ _ Hq) as [Hk Hlen].
  pose proof (np_argmax_Ok _ _ Hbest) as Hne.
  unfold bandit_wf. cbn. repeat split; try assumption; try reflexivity.
  destruct q; [congruence|]. cbn [length] in Hlen. lia.
Qed.

Lemma Bandit_init_no_arms (id : nat) (k : Z) (k_mean k_std bandit_std : T)
    (g : RandomState T) :
  k <= 0 -> fst (Bandit.init id k k_mean k_std bandit_std g) = Raise ValueError.
Proof.
  intros Hk. unfold Bandit.init. unfold bind at 1.
  destruct (Z.eq_dec k 0) as [->|Hnz].
  - destruct (normal_n_zero k_mean k_std g) as [-> | ->]; reflexivity.
  - rewrite normal_n_negative by lia. reflexivity.
Qed.

Lemma seed_unfold (s : Z) (g : RandomState T) :
  np_random.seed_ s g =
  if (0 <=? s) && (s <? 2 ^ 32)
  then (Ok tt, {| generator := generator g; seed := s; cursor := O |})
  else (Raise ValueError, g).
Proof. unfold np_random.seed_. destruct (_ && _); reflexivity. Qed.

Lemma KArmedTestbed_init_Ok (num_runs k : Z) (k_mean k_std bandit_std : T) (seed : Z)
    (g g' : RandomState T) (env : KArmedTestbed.t T) :
  KArmedTestbed.init num_runs k k_mean k_std bandit_std seed g = (Ok env, g') ->
  testbed_wf env /\
  KArmedTestbed.num_runs env = num_runs /\ KArmedTestbed.k env = k /\
  KArmedTestbed.bandit_std env = bandit_std.
Proof.
  unfold KArmedTestbed.init. unfold bind at 1. rewrite seed_unfold.
  destruct (_ && _); [|discriminate].
  unfold bind at 1.
  destruct (comprehension _ _ _) as [[bs|e] g1] eqn:Hbs; [|discriminate].
  unfold ret. intros [= <- <-]. cbn.
  assert (Hpre : forall i x s y s', range num_runs !! i = Some x ->
    Bandit.init (Z.to_nat x) k k_mean k_std bandit_std s = (Ok y, s') ->
    bandit_wf y /\ Bandit.oid y = i /\ Bandit.k y = k /\
    Bandit.bandit_std y = bandit_std).
  { intros i x s y s' Hx Hrun. apply range_lookup in Hx. destruct Hx as [-> _].
    rewrite Nat2Z.id in Hrun. eapply Bandit_init_Ok. exact Hrun. }
  destruct (comprehension_Ok _ _ _ Hpre _ _ _ Hbs) as [Hlen Hall].
  rewrite range_length in Hlen.
  unfold testbed_wf. cbn. split; [split|repeat split; reflexivity].
  - lia.
  - intros i b Hb. exact (Hall i b Hb).
Qed.

Lemma KArmedTestbed_init_no_runs (num_runs k : Z) (k_mean k_std bandit_std : T) (seed : Z)
    (g : RandomState T) :
  num_runs <= 0 -> 0 <= seed < 2 ^ 32 ->
  fst (KArmedTestbed.init num_runs k k_mean k_std bandit_std seed g)
  = Ok (KArmedTestbed.mk num_runs k k_mean k_std bandit_std []).
Proof.
  intros Hn Hs. unfold KArmedTestbed.init. unfold bind at 1. rewrite seed_unfold.
  destruct (Z.leb_spec 0 seed); [|lia]. destruct (Z.ltb_spec seed (2 ^ 32)); [|lia].
  cbn [andb]. unfold range. replace (Z.to_nat num_runs) with O by lia.
  reflexivity.
Qed.

Lemma KArmedTestbed_init_no_arms (num_runs k : Z) (k_mean k_std bandit_std : T) (seed : Z)
    (g : RandomState T) :
  1 <= num_runs -> k <= 0 ->
  fst (KArmedTestbed.init num_runs k k_mean k_std bandit_std seed g) = Raise ValueError.
Proof.
  intros Hn Hk. unfold KArmedTestbed.init. unfold bind at 1. rewrite seed_unfold.
  destruct (_ && _); [|reflexivity].
  unfold bind at 1.
  set (g1 := {| generator := generator g; seed := seed; cursor := O |}).
  assert (Hr : exists xs, range num_runs = 0 :: xs).
  { unfold range. destruct (Z.to_nat num_runs) as [|n] eqn:Hz; [lia|].
    cbn. eexists. reflexivity. }
  destruct Hr as [xs ->].
  pose proof (comprehension_Raise
    (fun i => Bandit.init (Z.to_nat i) k k_mean k_std bandit_std) 0 xs g1 ValueError
    (Bandit_init_no_arms _ _ _ _ _ _ Hk)) as Hc.
  destruct (comprehension _ _ g1) as [[bs|e] g2]; cbn [fst] in *; congruence.
Qed.
End Testbed.

(** ** Frame of the two update rules *)

(** C10. [weighted_update(a, r)] leaves [action_counts] as it is and
    changes no entry of [q_values] other than the one [a] addresses;
    [simple_update(a, r)] changes only the entry [a] addresses in each of
    the two arrays.  The arrays keep their lengths, and this holds whether
    the call returns or raises. *)
Theorem update_frame {T : Type} {ST : Scalar T}
    (self : EpsilonGreedy.t T) (a : Z) (r : T) :
  (let self' := snd (EpsilonGreedy.weighted_update a r self) in
   EpsilonGreedy.action_counts self' = EpsilonGreedy.action_counts self /\
   length (EpsilonGreedy.q_values self') = length (EpsilonGreedy.q_values self) /\
   forall b : Z,
     np_index (length (EpsilonGreedy.q_values self)) b
       <> np_index (length (EpsilonGreedy.q_values self)) a ->
     getitem (EpsilonGreedy.q_values self') b = getitem (EpsilonGreedy.q_values self) b)
  /\
  (let self' := snd (EpsilonGreedy.simple_update a r self) in
   length (EpsilonGreedy.action_counts self') = length (EpsilonGreedy.action_counts self) /\
   length (EpsilonGreedy.q_values self') = length (EpsilonGreedy.q_values self) /\
   (forall b : Z,
     np_index (length (EpsilonGreedy.action_counts self)) b
       <> np_index (length (EpsilonGreedy.action_counts self)) a ->
     getitem (EpsilonGreedy.action_counts self') b
       = getitem (EpsilonGreedy.action_counts self) b) /\
   (forall b : Z,
     np_index (length (EpsilonGreedy.q_values self)) b
       <> np_index (length (EpsilonGreedy.q_values self)) a ->
     getitem (EpsilonGreedy.q_values self') b = getitem (EpsilonGreedy.q_values self) b)).
Proof.
  split.
  - destruct (weighted_update_changes self a r) as (Hc & Hq & _).
    cbv zeta. split; [exact Hc|].
    destruct Hq as [-> | (j & v & Hj & ->)].
    + split; [reflexivity|]. intros; reflexivity.
    + split; [apply length_insert|].
      intros b Hb. eapply getitem_insert_other; eassumption.
  - destruct (simple_update_changes self a r) as (Hc & Hq & _).
    cbv zeta.
    assert (Hframe : forall (A : Type) (l l' : list A),
      (l' = l \/ exists j v, np_index (length l) a = Ok j /\ l' = <[j:=v]> l) ->
      length l' = length l /\
      forall b, np_index (length l) b <> np_index (length l) a ->
                getitem l' b = getitem l b).
    { intros A l l' [-> | (j & v & Hj & ->)].
      - split; [reflexivity|]. intros; reflexivity.
      - split; [apply length_insert|].
        intros b Hb. eapply getitem_insert_other; eassumption. }
    destruct (Hframe _ _ _ Hc) as [Hlc Hfc].
    destruct (Hframe _ _ _ Hq) as [Hlq Hfq].
    repeat split; assumption.
Qed.

Lemma update_frame_witness :
  EpsilonGreedy.action_counts (snd (EpsilonGreedy.weighted_update 0 4%Q scenario_used)) = [4; 1]
  /\ getitem (EpsilonGreedy.q_values (snd (EpsilonGreedy.weighted_update 0 4%Q scenario_used))) 1
     = Ok (-1)%Q
  /\ getitem (EpsilonGreedy.action_counts (snd (EpsilonGreedy.simple_update (-2) 4%Q scenario_used))) 1
     = Ok 1
  /\ getitem (EpsilonGreedy.q_values (snd (EpsilonGreedy.simple_update (-2) 4%Q scenario_used))) (-1)
     = Ok (-1)%Q.
Proof.
  destruct (update_frame scenario_used 0 4%Q) as [(Hc & _ & Hq) _].
  destruct (update_frame scenario_used (-2) 4%Q) as [_ (_ & _ & Hc' & Hq')].
  cbv zeta in *.
  split; [rewrite Hc; reflexivity|].
  split; [rewrite (Hq 1) by discriminate; reflexivity|].
  split; [rewrite (Hc' 1) by discriminate; reflexivity|].
  rewrite (Hq' (-1)) by discriminate. reflexivity.
Defined.

(** ** The constant step size with [alpha = 1] *)

Lemma Q_weighted_step_one (alpha q r : Q) :
  (alpha == 1)%Q -> (s_add q (s_mul alpha (s_sub r q)) == r)%Q.
Proof.
  intros Ha. cbn [s_add s_mul s_sub Q_scalar]. rewrite Ha. ring.
Qed.

(** C8, amended.  In exact arithmetic [weighted_update] with [alpha = 1]
    sets the estimate of the action to the reward, whatever the estimate
    was.  With [alpha = 0.5], from the estimate 0, the reward 4 gives 2 and
    a second reward 4 gives 3, in exact arithmetic and in binary64 alike. *)
Theorem weighted_update_alpha_one :
  (forall (self : EpsilonGreedy.t Q) (a : Z) (r : Q),
     (EpsilonGreedy.alpha self == 1)%Q ->
     0 <= a < Z.of_nat (length (EpsilonGreedy.q_values self)) ->
     exists self' v,
       EpsilonGreedy.weighted_update a r self = (Ok tt, self') /\
       getitem (EpsilonGreedy.q_values self') a = Ok v /\ (v == r)%Q)
  /\ returns (estimate (after (demo_agent 0%Q true (1 # 2))
                          (EpsilonGreedy.weighted_update 0 4%Q)) 0) 2
  /\ returns (estimate (after (after (demo_agent 0%Q true (1 # 2))
                                 (EpsilonGreedy.weighted_update 0 4%Q))
                          (EpsilonGreedy.weighted_update 0 4%Q)) 0) 3
  /\ estimate (after (demo_agent 0%float true 0.5%float)
                 (EpsilonGreedy.weighted_update 0 4%float)) 0 = Ok 2%float
  /\ estimate (after (after (demo_agent 0%float true 0.5%float)
                        (EpsilonGreedy.weighted_update 0 4%float))
                 (EpsilonGreedy.weighted_update 0 4%float)) 0 = Ok 3%float.
Proof.
  split; [|repeat split; vm_compute; reflexivity].
  intros self a r Halpha Ha.
  pose proof (np_index_nonneg _ _ Ha) as Hj.
  destruct (getitem_index_Ok _ _ _ Hj) as (q & Hq & _).
  eexists. eexists. split; [apply (weighted_update_at self a r _ q Hj Hq)|].
  cbn [EpsilonGreedy.q_values EpsilonGreedy.set_q_values].
  split.
  - eapply getitem_lookup.
    + rewrite length_insert. exact Hj.
    + apply list_lookup_insert_eq. eapply lookup_lt_Some; exact Hq.
  - apply Q_weighted_step_one. exact Halpha.
Qed.

Lemma weighted_update_alpha_one_witness :
  exists self' v,
    EpsilonGreedy.weighted_update 1 (7 # 3)
      (EpsilonGreedy.mk (KArmedTestbed.mk 0 2 0%Q 0%Q 0%Q []) 0%Q 1 2 true 1%Q 0%Q
         [5%Q; (-2)%Q] [0; 0])
    = (Ok tt, self') /\
    getitem (EpsilonGreedy.q_values self') 1 = Ok v /\ (v == 7 # 3)%Q.
Proof.
  apply (proj1 weighted_update_alpha_one).
  - reflexivity.
  - simpl. lia.
Defined.

(** C8, counterexample.  In binary64 the same call can miss the reward:
    with [alpha = 1], from the estimate [1e20], the reward 1 gives
    [1e20 + 1 * (1 - 1e20)]; [1 - 1e20] rounds to [-1e20] and the new
    estimate is 0, not 1. *)
Lemma weighted_update_alpha_one_binary64_counterexample :
  rbind (demo_agent 1e20%float true 1%float)
        (fun self => Ok (EpsilonGreedy.alpha self)) = Ok 1%float /\
  estimate (demo_agent 1e20%float true 1%float) 0 = Ok 1e20%float /\
  estimate (after (demo_agent 1e20%float true 1%float)
              (EpsilonGreedy.weighted_update 0 1%float)) 0 = Ok 0%float /\
  PrimFloat.eqb 0%float 1%float = false.
Proof. repeat split; vm_compute; reflexivity. Qed.

(** ** The sample average *)

Section SampleAverage.
Import EpsilonGreedy.

Lemma Q_sample_step (v r : Q) (m : Z) :
  0 <= m ->
  (s_add v (s_mul (s_div (s_of_Z 1) (s_of_Z (m + 1))) (s_sub r v)) * inject_Z (m + 1)
   == v * inject_Z m + r)%Q.
Proof.
  intros Hm. cbn [s_add s_mul s_sub s_div s_of_Z Q_scalar].
  rewrite inject_Z_plus.
  assert (Hnz : ~ (inject_Z m + inject_Z 1 == 0)%Q).
  { rewrite <- inject_Z_plus. change 0%Q with (inject_Z 0).
    rewrite inject_Z_injective. lia. }
  field. exact Hnz.
Qed.

Lemma simple_updates_run (a : Z) (j : nat) (rs : list Q) :
  forall (self : t Q) (m : Z) (v : Q),
    np_index (length (action_counts self)) a = Ok j ->
    np_index (length (q_values self)) a = Ok j ->
    action_counts self !! j = Some m ->
    q_values self !! j = Some v ->
    0 <= m ->
    m + Z.of_nat (length rs) <= int64_max ->
    exists self' v',
      simple_updates a rs self = (Ok tt, self') /\
      action_counts self' !! j = Some (m + Z.of_nat (length rs)) /\
      q_values self' !! j = Some v' /\
      (v' * inject_Z (m + Z.of_nat (length rs))
       == v * inject_Z m + fold_right Qplus 0 rs)%Q /\
      length (action_counts self') = length (action_counts self) /\
      length (q_values self') = length (q_values self).
Proof.
  induction rs as [|r rs IH]; intros self m v Hc Hq Hm Hv Hm0 Hbound.
  - exists self, v. cbn [length fold_right Z.of_nat]. rewrite Z.add_0_r.
    repeat split; try assumption. ring.
  - cbn [length] in Hbound. rewrite Nat2Z.inj_succ in Hbound.
    unfold simple_updates. cbn [for_loop]. unfold bind at 1.
    rewrite (simple_update_at self a r j m v Hc Hq Hm Hv).
    rewrite wrap_int64_small by (unfold int64_min, int64_max in *; lia).
    set (self1 := set_q_values _ _).
    assert (Hjc : (j < length (action_counts self))%nat)
      by (eapply lookup_lt_Some; eassumption).
    assert (Hjq : (j < length (q_values self))%nat)
      by (eapply lookup_lt_Some; eassumption).
    destruct (IH self1 (m + 1)
                (s_add v (s_mul (s_div (s_of_Z 1) (s_of_Z (m + 1))) (s_sub r v))))
      as (self' & v' & Hrun & Hc' & Hv' & Hsum & Hlc & Hlq).
    + subst self1. cbn. rewrite length_insert. exact Hc.
    + subst self1. cbn. rewrite length_insert. exact Hq.
    + subst self1. cbn. apply list_lookup_insert_eq. exact Hjc.
    + subst self1. cbn. apply list_lookup_insert_eq. exact Hjq.
    + lia.
    + lia.
    + exists self', v'. split; [exact Hrun|].
      cbn [length fold_right]. rewrite Nat2Z.inj_succ.
      replace (m + Z.succ (Z.of_nat (length rs)))
        with (m + 1 + Z.of_nat (length rs)) by lia.
      split; [exact Hc'|]. split; [exact Hv'|].
      split; [|split].
      * rewrite Hsum, Q_sample_step by exact Hm0. ring.
      * rewrite Hlc. subst self1. cbn. apply length_insert.
      * rewrite Hlq. subst self1. cbn. apply length_insert.
Qed.
End SampleAverage.

(** C1.  From a freshly reset agent, [n >= 1] calls [simple_update(a, r)]
    for one action [a] leave in [q_values[a]] the arithmetic mean of the
    rewards, in exact arithmetic, and in [action_counts[a]] their number
    (a 64-bit counter: [n] is below [2^63]). *)
Theorem simple_update_sample_mean
    (self0 self : EpsilonGreedy.t Q) (a : Z) (rs : list Q) :
  EpsilonGreedy.reset self0 = (Ok tt, self) ->
  0 <= a < EpsilonGreedy.num_actions self ->
  rs <> [] ->
  Z.of_nat (length rs) <= int64_max ->
  exists self' v,
    simple_updates a rs self = (Ok tt, self') /\
    getitem (EpsilonGreedy.q_values self') a = Ok v /\
    (v == mean rs)%Q /\
    getitem (EpsilonGreedy.action_counts self') a = Ok (Z.of_nat (length rs)).
Proof.
  intros Hreset Ha Hrs Hlen.
  destruct (reset_Ok _ _ _ Hreset) as (Hn & _ & Hc & Hq).
  pose proof (reset_state self0) as Hst. rewrite Hreset in Hst.
  cbn [snd] in Hst. destruct Hst as (_ & _ & _ & Hnum & _).
  rewrite Hnum in Ha.
  set (n := Z.to_nat (EpsilonGreedy.num_actions self0)) in *.
  set (j := Z.to_nat a).
  assert (Hj : (j < n)%nat) by (subst j n; lia).
  assert (Hic : np_index (length (EpsilonGreedy.action_counts self)) a = Ok j).
  { rewrite Hc, length_replicate. apply np_index_nonneg. subst n. lia. }
  assert (Hiq : np_index (length (EpsilonGreedy.q_values self)) a = Ok j).
  { rewrite Hq, length_replicate. apply np_index_nonneg. subst n. lia. }
  destruct (simple_updates_run a j rs self 0
              (if s_eqb (EpsilonGreedy.initialisation self0) (s_of_Z 0)
               then s_of_Z 0 else EpsilonGreedy.initialisation self0))
    as (self' & v & Hrun & Hc' & Hv' & Hsum & Hlc & Hlq);
    try assumption; try lia.
  - rewrite Hc. apply lookup_replicate_2. exact Hj.
  - rewrite Hq. apply lookup_replicate_2. exact Hj.
  - exists self', v. split; [exact Hrun|].
    split; [|split].
    + eapply getitem_lookup; [rewrite Hlq; exact Hiq | exact Hv'].
    + unfold mean. rewrite Z.add_0_l in Hsum.
      assert (Hnz : ~ (inject_Z (Z.of_nat (length rs)) == 0)%Q).
      { change 0%Q with (inject_Z 0). rewrite inject_Z_injective.
        destruct rs; [congruence|cbn [length]; lia]. }
      apply (Qmult_inj_r _ _ _ Hnz). rewrite Hsum.
      change (inject_Z 0) with 0%Q. field. exact Hnz.
    + eapply getitem_lookup; [rewrite Hlc; exact Hic | exact Hc'].
Qed.

(** The scenario of the specification: two actions, initial value 0, the
    rewards 1 then 3 for action 0. *)
Lemma simple_update_sample_mean_witness :
  exists self' v,
    simple_updates 0 [1%Q; 3%Q] scenario_fresh = (Ok tt, self') /\
    getitem (EpsilonGreedy.q_values self') 0 = Ok v /\
    (v == 2)%Q /\
    getitem (EpsilonGreedy.action_counts self') 0 = Ok 2.
Proof.
  destruct (simple_update_sample_mean scenario_used scenario_fresh 0 [1%Q; 3%Q])
    as (self' & v & Hrun & Hv & Hmean & Hcount).
  - reflexivity.
  - simpl. lia.
  - discriminate.
  - vm_compute. discriminate.
  - exists self', v. repeat split; try assumption.
    rewrite Hmean. reflexivity.
Defined.

(** The same scenario in binary64. *)
Example simple_update_scenario_binary64 :
  estimate (after (demo_agent 0%float false 0.5%float)
              (simple_updates 0 [1%float; 3%float])) 0 = Ok 2%float /\
  selection_count (after (demo_agent 0%float false 0.5%float)
                     (simple_updates 0 [1%float; 3%float])) 0 = Ok 2.
Proof. split; vm_compute; reflexivity. Qed.

(** ** The initial value *)

(** C9.  A negative [initialisation] makes the constructor raise (a
    [ValueError], from the [reset] it ends with, when the testbed has a
    first bandit with a valid number of arms).  With [initialisation >= 0]
    the constructor succeeds on such a testbed, and [reset] sets every
    estimate to the initial value and every count to 0, whatever the arrays
    held before. *)
Theorem initialisation_checked_by_reset :
  (forall (env : KArmedTestbed.t Q) (epsilon : Q) (max_steps : Z)
          (initialisation : Q) (weighted : bool) (alpha : Q),
     (initialisation < 0)%Q ->
     exists e,
       EpsilonGreedy.init env epsilon max_steps initialisation weighted alpha = Raise e /\
       (forall b0, KArmedTestbed.bandits env !! O = Some b0 -> 0 <= Bandit.k b0 ->
                   e = ValueError))
  /\
  (forall (env : KArmedTestbed.t Q) (b0 : Bandit.t Q) (epsilon : Q) (max_steps : Z)
          (initialisation : Q) (weighted : bool) (alpha : Q),
     (0 <= initialisation)%Q ->
     KArmedTestbed.bandits env !! O = Some b0 -> 0 <= Bandit.k b0 ->
     exists self,
       EpsilonGreedy.init env epsilon max_steps initialisation weighted alpha = Ok self /\
       EpsilonGreedy.initialisation self = initialisation /\
       EpsilonGreedy.num_actions self = Bandit.k b0 /\
       Z.of_nat (length (EpsilonGreedy.q_values self)) = Bandit.k b0 /\
       Z.of_nat (length (EpsilonGreedy.action_counts self)) = Bandit.k b0 /\
       Forall (fun v => (v == initialisation)%Q) (EpsilonGreedy.q_values self) /\
       Forall (fun c => c = 0) (EpsilonGreedy.action_counts self))
  /\
  (forall self : EpsilonGreedy.t Q,
     (0 <= EpsilonGreedy.initialisation self)%Q ->
     0 <= EpsilonGreedy.num_actions self ->
     exists self',
       EpsilonGreedy.reset self = (Ok tt, self') /\
       Z.of_nat (length (EpsilonGreedy.q_values self')) = EpsilonGreedy.num_actions self /\
       Z.of_nat (length (EpsilonGreedy.action_counts self')) = EpsilonGreedy.num_actions self /\
       Forall (fun v => (v == EpsilonGreedy.initialisation self)%Q)
              (EpsilonGreedy.q_values self') /\
       Forall (fun c => c = 0) (EpsilonGreedy.action_counts self')).
Proof.
  split; [|split].
  - intros env epsilon max_steps initialisation weighted alpha Hneg.
    rewrite init_unfold.
    assert (Hrej : (s_eqb initialisation (s_of_Z 0) || s_ltb (s_of_Z 0) initialisation) = false).
    { apply not_true_is_false. rewrite Q_accepts_initialisation.
      intros H. exact (Qlt_not_le _ _ Hneg H). }
    rewrite Hrej.
    destruct (KArmedTestbed.bandits env) as [|b bs].
    + exists IndexError. split; [reflexivity|]. intros b0 [=].
    + exists ValueError. split; [destruct (_ <? _); reflexivity|]. reflexivity.
  - intros env b0 epsilon max_steps initialisation weighted alpha Hinit Hb0 Hk.
    rewrite init_unfold.
    destruct (KArmedTestbed.bandits env) as [|b bs]; [discriminate|].
    cbn in Hb0. injection Hb0 as ->.
    destruct (Z.ltb_spec (Bandit.k b0) 0); [lia|].
    rewrite (proj2 (Q_accepts_initialisation initialisation) Hinit).
    eexists. split; [reflexivity|]. cbn.
    rewrite !length_replicate.
    repeat split; try lia.
    + apply Forall_replicate. apply Q_initial_value.
    + apply Forall_replicate. reflexivity.
  - intros self Hinit Hn.
    rewrite reset_unfold.
    rewrite (proj2 (Q_accepts_initialisation _) Hinit).
    destruct (Z.ltb_spec (EpsilonGreedy.num_actions self) 0); [lia|].
    eexists. split; [reflexivity|]. cbn.
    rewrite !length_replicate.
    repeat split; try lia.
    + apply Forall_replicate. apply Q_initial_value.
    + apply Forall_replicate. reflexivity.
Qed.

Lemma initialisation_checked_by_reset_witness :
  (exists e,
     EpsilonGreedy.init (EpsilonGreedy.env scenario_fresh) (1 # 10) 1000 (-1)%Q false (1 # 10)
       = Raise e /\
     (forall b0,
        KArmedTestbed.bandits (EpsilonGreedy.env scenario_fresh) !! O = Some b0 ->
        0 <= Bandit.k b0 -> e = ValueError))
  /\
  (exists self',
     EpsilonGreedy.reset scenario_used = (Ok tt, self') /\
     Z.of_nat (length (EpsilonGreedy.q_values self')) = 2 /\
     Z.of_nat (length (EpsilonGreedy.action_counts self')) = 2 /\
     Forall (fun v => (v == 0)%Q) (EpsilonGreedy.q_values self') /\
     Forall (fun c => c = 0) (EpsilonGreedy.action_counts self')).
Proof.
  split.
  - apply (proj1 initialisation_checked_by_reset). reflexivity.
  - apply (proj2 (proj2 initialisation_checked_by_reset) scenario_used).
    + discriminate.
    + simpl. lia.
Defined.

(** ** Actions outside the range *)

Section Step.
Context {T : Type} {ST : Scalar T}.

Lemma step_unfold (action : Z) (b : Bandit.t T) (g : RandomState T) :
  Bandit.step action (b, g) =
  match getitem (Bandit.q_star b) action with
  | Raise e => (Raise e, (b, g))
  | Ok mu =>
      (fst (np_random.normal mu (Bandit.bandit_std b) g),
       (b, snd (np_random.normal mu (Bandit.bandit_std b) g)))
  end.
Proof.
  unfold Bandit.step, bind, on_fst, get, lift_result. cbn [fst snd].
  destruct (getitem (Bandit.q_star b) action) as [mu|e]; [|reflexivity].
  apply on_snd_run.
Qed.

Lemma step_keeps_bandit (action : Z) (b : Bandit.t T) (g : RandomState T) :
  fst (snd (Bandit.step action (b, g))) = b.
Proof.
  rewrite step_unfold. destruct (getitem _ _); reflexivity.
Qed.

Lemma normal_unfold (loc scale : T) (g : RandomState T) :
  np_random.normal loc scale g =
  if np_random.negative_scale scale then (Raise ValueError, g)
  else (Ok (s_add loc (s_mul scale (gauss (generator g (seed g) (cursor g))))),
        {| generator := generator g; seed := seed g; cursor := S (cursor g) |}).
Proof. unfold np_random.normal. destruct (np_random.negative_scale _); reflexivity. Qed.
End Step.

(** C3, amended.  [step(action)] raises [IndexError], and draws nothing,
    when [action >= K] or [action < -K].  An action of [-K, 0) is not
    rejected: it addresses arm [K + action], as a numpy index does, and
    [step] behaves as for that arm. *)
Theorem step_index_error {T : Type} {ST : Scalar T}
    (b : Bandit.t T) (action : Z) (g : RandomState T) :
  (action < - Z.of_nat (length (Bandit.q_star b))
   \/ Z.of_nat (length (Bandit.q_star b)) <= action ->
   Bandit.step action (b, g) = (Raise IndexError, (b, g)))
  /\
  (- Z.of_nat (length (Bandit.q_star b)) <= action < 0 ->
   Bandit.step action (b, g)
   = Bandit.step (action + Z.of_nat (length (Bandit.q_star b))) (b, g)).
Proof.
  split; intros Ha; rewrite !step_unfold; unfold getitem.
  - rewrite np_index_outside by exact Ha. reflexivity.
  - rewrite np_index_negative by exact Ha.
    rewrite np_index_nonneg by lia. reflexivity.
Qed.

Lemma step_index_error_witness :
  Bandit.step 2 (scenario_bandit, demo_stream) = (Raise IndexError, (scenario_bandit, demo_stream))
  /\ Bandit.step (-3) (scenario_bandit, demo_stream)
     = (Raise IndexError, (scenario_bandit, demo_stream))
  /\ Bandit.step (-2) (scenario_bandit, demo_stream)
     = Bandit.step (-2 + 2) (scenario_bandit, demo_stream).
Proof.
  split; [|split].
  - apply (proj1 (step_index_error scenario_bandit 2 demo_stream)). right. simpl. lia.
  - apply (proj1 (step_index_error scenario_bandit (-3) demo_stream)). left. simpl. lia.
  - apply (proj2 (step_index_error scenario_bandit (-2) demo_stream)). simpl. lia.
Defined.

(** C3, counterexample.  A bandit with K = 2 arms and the action -1, which
    is outside [0, 2): [step] returns a reward, drawn around the true value
    of arm 1. *)
Lemma step_negative_action_counterexample :
  Bandit.k scenario_bandit = 2 /\
  Z.of_nat (length (Bandit.q_star scenario_bandit)) = 2 /\
  ~ (0 <= -1 < 2) /\
  returns (fst (Bandit.step (-1) (scenario_bandit, demo_stream))) 0 /\
  fst (Bandit.step (-1) (scenario_bandit, demo_stream))
  = fst (Bandit.step 1 (scenario_bandit, demo_stream)).
Proof.
  split; [reflexivity|]. split; [reflexivity|]. split; [lia|].
  split; vm_compute; reflexivity.
Qed.

(** ** What the constructors check *)

(** C4, amended.  The agent's constructor does not look at [epsilon],
    [alpha] or [max_steps]: whether it succeeds does not depend on them, and
    it stores them as given.  The testbed's constructor accepts
    [num_runs <= 0] and builds a testbed without bandits; with at least one
    run, a number of arms [k <= 0] raises [ValueError]. *)
Theorem constructors_validate_little {T : Type} {ST : Scalar T} :
  (forall (env : KArmedTestbed.t T) (epsilon epsilon' : T) (max_steps max_steps' : Z)
          (initialisation : T) (weighted : bool) (alpha alpha' : T),
     is_ok (EpsilonGreedy.init env epsilon max_steps initialisation weighted alpha)
     = is_ok (EpsilonGreedy.init env epsilon' max_steps' initialisation weighted alpha'))
  /\
  (forall (env : KArmedTestbed.t T) (epsilon : T) (max_steps : Z)
          (initialisation : T) (weighted : bool) (alpha : T) (self : EpsilonGreedy.t T),
     EpsilonGreedy.init env epsilon max_steps initialisation weighted alpha = Ok self ->
     EpsilonGreedy.epsilon self = epsilon /\ EpsilonGreedy.alpha self = alpha /\
     EpsilonGreedy.max_steps self = max_steps)
  /\
  (forall (num_runs k : Z) (k_mean k_std bandit_std : T) (seed : Z) (g : RandomState T),
     num_runs <= 0 -> 0 <= seed < 2 ^ 32 ->
     fst (KArmedTestbed.init num_runs k k_mean k_std bandit_std seed g)
     = Ok (KArmedTestbed.mk num_runs k k_mean k_std bandit_std []))
  /\
  (forall (num_runs k : Z) (k_mean k_std bandit_std : T) (seed : Z) (g : RandomState T),
     1 <= num_runs -> k <= 0 ->
     fst (KArmedTestbed.init num_runs k k_mean k_std bandit_std seed g) = Raise ValueError).
Proof.
  split; [|split; [|split]].
  - intros. rewrite !init_unfold.
    destruct (KArmedTestbed.bandits env); [reflexivity|].
    destruct (_ <? _); [reflexivity|]. destruct (_ || _); reflexivity.
  - intros env epsilon max_steps initialisation weighted alpha self.
    rewrite init_unfold.
    destruct (KArmedTestbed.bandits env); [discriminate|].
    destruct (_ <? _); [discriminate|]. destruct (_ || _); [|discriminate].
    intros [= <-]. repeat split; reflexivity.
  - intros. apply KArmedTestbed_init_no_runs; assumption.
  - intros. apply KArmedTestbed_init_no_arms; assumption.
Qed.

Lemma constructors_validate_little_witness :
  (exists self,
     EpsilonGreedy.init (EpsilonGreedy.env scenario_fresh) 2%Q (-5) 0%Q false 7%Q = Ok self /\
     EpsilonGreedy.epsilon self = 2%Q /\ EpsilonGreedy.alpha self = 7%Q /\
     EpsilonGreedy.max_steps self = -5)
  /\ fst (KArmedTestbed.init (-3) 2 0%Q 1%Q 1%Q 0 demo_stream)
     = Ok (KArmedTestbed.mk (-3) 2 0%Q 1%Q 1%Q [])
  /\ fst (KArmedTestbed.init 3 0 0%Q 1%Q 1%Q 0 demo_stream) = Raise ValueError.
Proof.
  split; [|split].
  - exists (EpsilonGreedy.mk (EpsilonGreedy.env scenario_fresh) 2%Q (-5) 2 false 7%Q 0%Q
              [0%Q; 0%Q] [0; 0]).
    split; [reflexivity|].
    apply (proj1 (proj2 constructors_validate_little)
             (EpsilonGreedy.env scenario_fresh) 2%Q (-5) 0%Q false 7%Q).
    reflexivity.
  - apply (proj1 (proj2 (proj2 constructors_validate_little))); lia.
  - apply (proj2 (proj2 (proj2 constructors_validate_little))); lia.
Defined.

(** C4, counterexample.  On a testbed of three bandits the agent's
    constructor accepts [epsilon = 2], [alpha = 7] and [max_steps = -5]; the
    testbed's constructor accepts [num_runs = 0] and [num_runs = -3]. *)
Lemma invalid_configuration_accepted_counterexample :
  rbind (rbind (fst (demo_testbed 3))
           (fun env => EpsilonGreedy.init env 2%Q (-5) 0%Q false 7%Q))
        (fun self => Ok (EpsilonGreedy.epsilon self, EpsilonGreedy.alpha self,
                         EpsilonGreedy.max_steps self))
  = Ok (2%Q, 7%Q, -5)
  /\ rbind (fst (demo_testbed (T:=Q) 0)) (fun env => Ok (KArmedTestbed.bandits env)) = Ok []
  /\ rbind (fst (demo_testbed (T:=Q) (-3))) (fun env => Ok (KArmedTestbed.bandits env)) = Ok [].
Proof. repeat split; vm_compute; reflexivity. Qed.

(** ** What the agent's methods keep *)

Section AgentFrame.
Context {T : Type} {ST : Scalar T}.
Import EpsilonGreedy.

Lemma set_env_same (self : t T) (bs : list (Bandit.t T)) :
  bs = KArmedTestbed.bandits (env self) ->
  set_env self (KArmedTestbed.set_bandits (env self) bs) = self.
Proof. intros ->. destruct self as [[] ? ? ? ? ? ? ? ?]. reflexivity. Qed.

(** A method that leaves the bandit it is called on as it was leaves the
    agent, and the testbed it refers to, as they were. *)
Lemma call_bandit_run {A} (i : nat) (m : M (Bandit.t T * RandomState T) A)
    (s : t T * RandomState T) :
  (forall b g, fst (snd (m (b, g))) = b) ->
  call_bandit i m s =
  match KArmedTestbed.bandits (env (fst s)) !! i with
  | None => (Raise IndexError, s)
  | Some b => (fst (m (b, snd s)), (fst s, snd (snd (m (b, snd s)))))
  end.
Proof.
  intros Hm. unfold call_bandit.
  destruct (KArmedTestbed.bandits (env (fst s)) !! i) as [b|] eqn:Hb; [|reflexivity].
  specialize (Hm b (snd s)).
  destruct (m (b, snd s)) as [r [b' g']]. cbn [fst snd] in *. subst b'.
  rewrite set_env_same; [reflexivity|]. apply list_insert_id. exact Hb.
Qed.

Lemma call_bandit_step_keeps (i : nat) (action : Z) (s : t T * RandomState T) :
  fst (snd (call_bandit i (Bandit.step action) s)) = fst s.
Proof.
  rewrite call_bandit_run by (intros; apply step_keeps_bandit).
  destruct (_ !! i); reflexivity.
Qed.

Lemma call_bandit_get (i : nat) (s : t T * RandomState T) :
  call_bandit i (on_fst get) s =
  match KArmedTestbed.bandits (env (fst s)) !! i with
  | None => (Raise IndexError, s)
  | Some b => (Ok b, s)
  end.
Proof.
  rewrite call_bandit_run by reflexivity.
  destruct (_ !! i); [|reflexivity]. destruct s; reflexivity.
Qed.

(** Any property of the agent that [reset] and the two update rules keep is
    kept by [act] and by [train]. *)
Section Kept.
Variable I : t T -> Prop.
Hypothesis reset_keeps : preserves I reset.
Hypothesis simple_update_keeps : forall a r, preserves I (simple_update a r).
Hypothesis weighted_update_keeps : forall a r, preserves I (weighted_update a r).


Lemma act_keeps : preserves (on_agent I) act.
Proof.
  unfold act. apply preserves_bind; [apply (preserves_on_fst I), preserves_get|].
  intros self. apply preserves_bind; [apply (preserves_on_snd I)|].
  intros u. apply preserves_if; apply (preserves_on_snd I).
Qed.

Lemma call_bandit_step_preserves (i : nat) (action : Z) :
  preserves (on_agent I) (call_bandit i (Bandit.step action)).
Proof. intros s Hs. unfold on_agent. rewrite call_bandit_step_keeps. exact Hs. Qed.

Lemma call_bandit_get_preserves (i : nat) :
  preserves (on_agent I) (call_bandit i (on_fst get)).
Proof.
  intros s Hs. rewrite call_bandit_get. destruct (_ !! i); exact Hs.
Qed.

Lemma train_step_keeps (i : nat) (step : Z) (acc : list T * list bool) :
  preserves (on_agent I) (train_step i step acc).
Proof.
  unfold train_step. destruct acc as [rewards optimal_action].
  apply preserves_bind; [apply act_keeps|]. intros action.
  apply preserves_bind; [apply call_bandit_step_preserves|]. intros reward.
  apply preserves_bind; [apply (preserves_on_fst I), preserves_get|]. intros self.
  apply preserves_bind.
  { apply preserves_if; apply (preserves_on_fst I); auto. }
  intros _. apply preserves_bind; [apply preserves_lift_result|]. intros rewards'.
  apply preserves_bind; [apply call_bandit_get_preserves|]. intros b.
  apply preserves_bind.
  { apply preserves_if; [apply preserves_lift_result|apply preserves_ret]. }
  intros optimal'. apply preserves_ret.
Qed.

Lemma train_run_keeps (i : nat) (acc : dict (list T) * dict (list bool)) :
  preserves (on_agent I) (train_run i acc).
Proof.
  unfold train_run. destruct acc as [rewards_testbed optimal_action_testbed].
  apply preserves_bind; [apply (preserves_on_fst I), reset_keeps|]. intros _.
  apply preserves_bind; [apply (preserves_on_fst I), preserves_get|]. intros self.
  apply preserves_bind; [apply preserves_lift_result|]. intros rewards.
  apply preserves_bind; [apply preserves_for_loop; apply train_step_keeps|].
  intros [rewards' optimal']. 
  apply preserves_bind; [apply call_bandit_get_preserves|]. intros b.
  apply preserves_ret.
Qed.

Lemma train_keeps : preserves (on_agent I) train.
Proof.
  unfold train.
  apply preserves_bind; [apply (preserves_on_fst I), preserves_get|]. intros self.
  apply preserves_bind; [apply preserves_for_loop; apply train_run_keeps|].
  intros [rewards_testbed optimal_action_testbed].
  apply preserves_bind; [apply preserves_lift_result|]. intros df1.
  apply preserves_bind; [apply preserves_lift_result|]. intros df2.
  apply preserves_ret.
Qed.

Lemma run_op_keeps (o : op) : preserves (on_agent I) (run_op o).
Proof.
  destruct o; cbn [run_op].
  - apply (preserves_on_fst I), reset_keeps.
  - apply preserves_bind; [apply act_keeps|]. intros; apply preserves_ret.
  - apply (preserves_on_fst I), simple_update_keeps.
  - apply (preserves_on_fst I), weighted_update_keeps.
  - apply preserves_bind; [apply train_keeps|]. intros; apply preserves_ret.
Qed.
End Kept.

(** The testbed the agent refers to. *)
Lemma run_op_keeps_env (o : op) (s : t T * RandomState T) :
  env (fst (snd (run_op o s))) = env (fst s).
Proof.
  apply (run_op_keeps (fun self => env self = env (fst s))).
  - intros self Hself. rewrite <- Hself. apply reset_state.
  - intros a r self Hself. rewrite <- Hself. apply simple_update_changes.
  - intros a r self Hself. rewrite <- Hself. apply weighted_update_changes.
  - reflexivity.
Qed.
End AgentFrame.

(** ** Action selection, in exact arithmetic *)

Section Act.
Import EpsilonGreedy.

Lemma random_run (g : RandomState Q) :
  exists u g', np_random.random g = (Ok u, g') /\ (0 <= u)%Q /\ (u < 1)%Q.
Proof.
  eexists. eexists. split; [reflexivity|].
  cbn [s_div s_of_Z Q_scalar].
  set (b := bits _ mod 2 ^ 53).
  assert (Hb : 0 <= b < 2 ^ 53) by (apply Z.mod_pos_bound; lia).
  assert (Hpos : (0 < inject_Z (2 ^ 53))%Q).
  { change 0%Q with (inject_Z 0). rewrite <- Zlt_Qlt. lia. }
  split.
  - apply Qle_shift_div_l; [exact Hpos|]. rewrite Qmult_0_l.
    change 0%Q with (inject_Z 0). rewrite <- Zle_Qle. lia.
  - apply Qlt_shift_div_r; [exact Hpos|]. rewrite Qmult_1_l.
    rewrite <- Zlt_Qlt. lia.
Qed.

Lemma randint_run (n : Z) (g : RandomState Q) :
  1 <= n ->
  exists a g', np_random.randint (T:=Q) n g = (Ok a, g') /\ 0 <= a < n /\
               a = bits (generator g (seed g) (cursor g)) mod n.
Proof.
  intros Hn. unfold np_random.randint.
  destruct (Z.leb_spec n 0); [lia|].
  eexists. eexists. split; [reflexivity|].
  split; [apply Z.mod_pos_bound; lia|reflexivity].
Qed.

Lemma list_max_spec (l : list Q) :
  forall x : Q,
    In (list_max x l) (x :: l) /\
    forall y, In y (x :: l) -> (y <= list_max x l)%Q.
Proof.
  induction l as [|z l IH]; intros x.
  - cbn. split; [left; reflexivity|]. intros y [<-|[]]. apply Qle_refl.
  - change (list_max x (z :: l)) with (list_max (if Qlt_bool x z then z else x) l).
    destruct (IH (if Qlt_bool x z then z else x)) as [Hin Hge].
    assert (Hx : (x <= (if Qlt_bool x z then z else x))%Q /\
                 (z <= (if Qlt_bool x z then z else x))%Q).
    { destruct (Qlt_bool x z) eqn:Hlt.
      - apply Qlt_bool_iff in Hlt. split; [apply Qlt_le_weak; exact Hlt|apply Qle_refl].
      - apply Qlt_bool_false in Hlt. split; [apply Qle_refl|exact Hlt]. }
    split.
    + destruct Hin as [Hin|Hin].
      * rewrite <- Hin. destruct (Qlt_bool x z); [right; left|left]; reflexivity.
      * right. right. exact Hin.
    + intros y [<-|[<-|Hy]].
      * eapply Qle_trans; [apply Hx|]. apply Hge. left. reflexivity.
      * eapply Qle_trans; [apply Hx|]. apply Hge. left. reflexivity.
      * apply Hge. right. exact Hy.
Qed.

Lemma indices_of_spec (m : Q) (l : list Q) :
  forall (i j : Z),
    In j (indices_of m i l) <->
    exists (p : nat) (v : Q), j = i + Z.of_nat p /\ l !! p = Some v /\ (v == m)%Q.
Proof.
  induction l as [|x l IH]; intros i j; cbn [indices_of].
  - split; [intros []|]. intros (p & v & _ & Hp & _). discriminate.
  - cbn [s_eqb Q_scalar]. destruct (Qeq_bool x m) eqn:Hx.
    + apply Qeq_bool_iff in Hx. cbn [In]. rewrite IH. split.
      * intros [<-|(p & v & -> & Hp & Hv)].
        -- exists O, x. split; [lia|]. split; [reflexivity|exact Hx].
        -- exists (S p), v. split; [lia|]. split; assumption.
      * intros ([|p] & v & -> & Hp & Hv).
        -- left. lia.
        -- right. exists p, v. split; [lia|]. split; assumption.
    + apply Qeq_bool_neq in Hx. rewrite IH. split.
      * intros (p & v & -> & Hp & Hv). exists (S p), v. split; [lia|]. split; assumption.
      * intros ([|p] & v & -> & Hp & Hv).
        -- cbn in Hp. injection Hp as ->. contradiction.
        -- exists p, v. split; [lia|]. split; assumption.
Qed.



Lemma argmax_ties_random_run (q : list Q) (g : RandomState Q) :
  q <> [] ->
  exists a g', argmax_ties_random q g = (Ok a, g') /\ 0 <= a < Z.of_nat (length q).
Proof.
  intros Hq. destruct q as [|x q']; [congruence|].
  unfold argmax_ties_random.
  set (m := list_max x q'). set (ties := indices_of m 0 (x :: q')).
  assert (Hties : ties <> []).
  { destruct (list_max_spec q' x) as [Hin _]. fold m in Hin.
    apply list_elem_of_In, list_elem_of_lookup in Hin. destruct Hin as [p Hp].
    assert (Hi : In (0 + Z.of_nat p) ties).
    { apply indices_of_spec. exists p, m. split; [reflexivity|]. split; [exact Hp|reflexivity]. }
    intros Heq. rewrite Heq in Hi. destruct Hi. }
  destruct (randint_run (Z.of_nat (length ties)) g) as (j & g' & Hrun & Hj & _).
  { destruct ties; [congruence|cbn [length]; lia]. }
  unfold bind. rewrite Hrun. unfold lift_result.
  destruct (getitem_index_Ok ties j (Z.to_nat j)) as (a & Ha & Hget).
  { apply np_index_nonneg. exact Hj. }
  exists a, g'. rewrite Hget. split; [reflexivity|].
  assert (Hin : In a ties).
  { apply list_elem_of_In, list_elem_of_lookup. exists (Z.to_nat j). exact Ha. }
  apply indices_of_spec in Hin. destruct Hin as (p & v & -> & Hp & _).
  apply lookup_lt_Some in Hp. lia.
Qed.


Lemma act_run (s : t Q * RandomState Q) :
  1 <= num_actions (fst s) ->
  Z.of_nat (length (q_values (fst s))) = num_actions (fst s) ->
  exists a g', act s = (Ok a, (fst s, g')) /\ 0 <= a < num_actions (fst s).
Proof.
  intros Hn Hlen. destruct s as [self g]. cbn [fst] in *.
  unfold act. unfold bind at 1. rewrite on_fst_run. cbn [get fst snd].
  unfold bind at 1. rewrite on_snd_run. cbn [fst snd].
  destruct (random_run g) as (u & g1 & Hu & _). rewrite Hu. cbn [fst snd].
  destruct (s_ltb u (epsilon self)).
  - rewrite on_snd_run. cbn [fst snd].
    destruct (randint_run (num_actions self) g1 Hn) as (a & g2 & Hrun & Ha & _).
    rewrite Hrun. exists a, g2. split; [reflexivity|exact Ha].
  - rewrite on_snd_run. cbn [fst snd].
    destruct (argmax_ties_random_run (q_values self) g1) as (a & g2 & Hrun & Ha).
    { intros Hnil. rewrite Hnil in Hlen. cbn in Hlen. lia. }
    rewrite Hrun. exists a, g2. split; [reflexivity|lia].
Qed.

End Act.

(** ** Action selection, in any arithmetic

    What [act] needs of the estimates to return: that none is a nan.  The
    maximum that [argmax_ties_random] finds is one of the estimates; when it
    equals itself, its index is among the ties. *)

Section ActRange.
Context {T : Type} {ST : Scalar T}.
Import EpsilonGreedy.






End ActRange.

(** The greedy choice, in any arithmetic whose comparisons are those of an
    order and whose uniform draws are not below zero. *)
Section GreedyAny.
Context {T : Type} {ST : Scalar T}.
Import EpsilonGreedy.
Hypothesis ltb_asym : forall x y : T, s_ltb x y = true -> s_ltb y x = false.
Hypothesis ltb_neq : forall x y : T, s_ltb x y = true -> s_eqb x y = false.
Hypothesis unit_draw :
  forall (b : Z) (e : T), 0 <= b -> s_eqb e (s_of_Z 0) = true ->
    s_ltb (s_div (s_of_Z b) (s_of_Z (2 ^ 53))) e = false.







End GreedyAny.

(** ** Well-formed agents *)

Section AgentWf.
Context {T : Type} {ST : Scalar T}.
Import EpsilonGreedy.

Lemma lengths_ok_reset : preserves lengths_ok (reset (T:=T)).
Proof.
  intros self [Hq Hc]. rewrite reset_unfold.
  destruct (_ || _); [|split; assumption].
  destruct (Z.ltb_spec (num_actions self) 0); [split; assumption|].
  unfold lengths_ok. cbn. rewrite !length_replicate. lia.
Qed.

Lemma lengths_ok_simple_update (a : Z) (r : T) :
  preserves lengths_ok (simple_update a r).
Proof.
  intros self [Hq Hc].
  destruct (simple_update_changes self a r) as (Hc' & Hq' & _ & _ & _ & Hn & _).
  cbv zeta in *. unfold lengths_ok. rewrite Hn.
  destruct Hc' as [->|(j & n & _ & ->)], Hq' as [->|(j' & v & _ & ->)];
    rewrite ?length_insert; split; assumption.
Qed.

Lemma lengths_ok_weighted_update (a : Z) (r : T) :
  preserves lengths_ok (weighted_update a r).
Proof.
  intros self [Hq Hc].
  destruct (weighted_update_changes self a r) as (Hc' & Hq' & _ & _ & _ & Hn & _).
  cbv zeta in *. unfold lengths_ok. rewrite Hn, Hc'.
  destruct Hq' as [->|(j' & v & _ & ->)];
    rewrite ?length_insert; split; assumption.
Qed.

Lemma agent_wf_from (self self' : t T) :
  agent_wf self -> env self' = env self -> num_actions self' = num_actions self ->
  initialisation self' = initialisation self -> lengths_ok self' -> agent_wf self'.
Proof.
  intros (Htb & Hruns & Hk & Hinit & _) He Hn Hi Hl.
  unfold agent_wf. rewrite He, Hn, Hi.
  split; [|split; [|split; [|split]]]; assumption.
Qed.

Lemma agent_wf_reset : preserves agent_wf (reset (T:=T)).
Proof.
  intros self Hwf. pose proof (reset_state self) as (He & _ & _ & Hn & _ & _ & Hi).
  apply (agent_wf_from self); try assumption.
  apply lengths_ok_reset, Hwf.
Qed.

Lemma agent_wf_simple_update (a : Z) (r : T) : preserves agent_wf (simple_update a r).
Proof.
  intros self Hwf.
  pose proof (simple_update_changes self a r) as (_ & _ & He & _ & _ & Hn & _ & _ & Hi).
  apply (agent_wf_from self); try assumption.
  apply lengths_ok_simple_update, Hwf.
Qed.

Lemma agent_wf_weighted_update (a : Z) (r : T) : preserves agent_wf (weighted_update a r).
Proof.
  intros self Hwf.
  pose proof (weighted_update_changes self a r) as (_ & _ & He & _ & _ & Hn & _ & _ & Hi).
  apply (agent_wf_from self); try assumption.
  apply lengths_ok_weighted_update, Hwf.
Qed.

Lemma init_wf (env_ : KArmedTestbed.t T) (epsilon_ : T) (max_steps_ : Z)
    (initialisation_ : T) (weighted : bool) (alpha_ : T) (self : t T) :
  testbed_wf env_ ->
  init env_ epsilon_ max_steps_ initialisation_ weighted alpha_ = Ok self ->
  agent_wf self /\ env self = env_ /\ epsilon self = epsilon_ /\
  max_steps self = max_steps_ /\ use_weighted_average self = weighted /\
  alpha self = alpha_ /\ initialisation self = initialisation_.
Proof.
  intros [Hlen Hall]. rewrite init_unfold.
  destruct (KArmedTestbed.bandits env_) as [|b0 bs] eqn:Hbs; [discriminate|].
  destruct (Z.ltb_spec (Bandit.k b0) 0); [discriminate|].
  destruct (_ || _) eqn:Hinit; [|discriminate].
  intros [= <-]. split; [|cbn; repeat split; reflexivity].
  destruct (Hall O b0) as (_ & _ & Hk & _); [reflexivity|].
  unfold agent_wf, lengths_ok. cbn. rewrite !length_replicate.
  split; [|split; [|split; [|split; [|split]]]]; try assumption; try lia.
  - split; rewrite ?Hbs; assumption.
  - cbn [length] in Hlen. lia.
Qed.

Lemma agent_wf_first_bandit (self : t T) :
  agent_wf self ->
  1 <= num_actions self /\
  (0 < length (KArmedTestbed.bandits (env self)))%nat /\
  Z.of_nat (length (KArmedTestbed.bandits (env self))) = KArmedTestbed.num_runs (env self).
Proof.
  intros ([Hlen Hall] & Hruns & Hk & _).
  assert (Hpos : (0 < length (KArmedTestbed.bandits (env self)))%nat) by lia.
  destruct (lookup_lt_is_Some_2 _ _ Hpos) as [b0 Hb0].
  destruct (Hall O b0 Hb0) as ((Hk1 & _) & _ & Hkb & _).
  repeat split; lia.
Qed.

Lemma reachable_by_wf (allowed : t T * RandomState T -> op -> Prop)
    (s : t T * RandomState T) :
  reachable_by allowed s -> agent_wf (fst s).
Proof.
  induction 1 as [? ? ? ? ? ? ? ? ? ? ? ? ? ? ? Henv Hinit|s o _ IH _].
  - apply KArmedTestbed_init_Ok in Henv. destruct Henv as [Htb _].
    cbn [fst]. apply (init_wf _ _ _ _ _ _ _ Htb Hinit).
  - apply (run_op_keeps agent_wf agent_wf_reset agent_wf_simple_update
             agent_wf_weighted_update o s IH).
Qed.
End AgentWf.

(** ** The comparisons of binary64 *)






Lemma greedy_agent_reachable (allowed : EpsilonGreedy.t Q * RandomState Q -> op -> Prop) :
  reachable_by allowed (greedy_agent, demo_stream_after).
Proof.
  apply (reachable_init allowed 3 2 0%Q 1%Q 1%Q 0 demo_stream demo_env demo_stream_after
           0%Q 4 0%Q false (1 # 10)%Q greedy_agent); reflexivity.
Qed.


Lemma binary64_agent_reachable
    (allowed : EpsilonGreedy.t float * RandomState float -> op -> Prop) :
  reachable_by allowed (binary64_agent, binary64_stream_after).
Proof.
  apply (reachable_init allowed 3 2 0%float 1%float 1%float 0 demo_stream
           binary64_env binary64_stream_after
           0%float 4 0%float false 0.5%float binary64_agent); reflexivity.
Qed.






(** ** The best action *)

Lemma argmax_from_spec (l : list Q) :
  forall (pre : list Q) (best : Z) (bv : Q),
    0 <= best < Z.of_nat (length pre) ->
    pre !! Z.to_nat best = Some bv ->
    (forall j v, pre !! j = Some v ->
       (v <= bv)%Q /\ (Z.of_nat j < best -> (v < bv)%Q)) ->
    exists vm,
      0 <= argmax_from (Z.of_nat (length pre)) best bv l < Z.of_nat (length (pre ++ l)) /\
      (pre ++ l) !! Z.to_nat (argmax_from (Z.of_nat (length pre)) best bv l) = Some vm /\
      forall j v, (pre ++ l) !! j = Some v ->
        (v <= vm)%Q /\
        (Z.of_nat j < argmax_from (Z.of_nat (length pre)) best bv l -> (v < vm)%Q).
Proof.
  induction l as [|x l IH]; intros pre best bv Hbest Hbv Hmax.
  - cbn [argmax_from]. rewrite app_nil_r. exists bv. repeat split; try lia; try assumption;
      apply (Hmax _ _ H).
  - cbn [argmax_from]. rewrite (Q_isnan x). cbn [andb]. rewrite orb_false_r.
    cbn [s_ltb Q_scalar].
    replace (pre ++ x :: l) with ((pre ++ [x]) ++ l) by (rewrite <- app_assoc; reflexivity).
    replace (Z.of_nat (length pre) + 1) with (Z.of_nat (length (pre ++ [x])))
      by (rewrite length_app; cbn [length]; lia).
    destruct (Qlt_bool bv x) eqn:Hlt.
    + apply Qlt_bool_iff in Hlt.
      apply (IH (pre ++ [x]) (Z.of_nat (length pre)) x).
      * rewrite length_app. cbn [length]. lia.
      * rewrite Nat2Z.id. rewrite lookup_app_r by lia.
        rewrite Nat.sub_diag. reflexivity.
      * intros j v Hj. destruct (Nat.lt_ge_cases j (length pre)) as [Hjl|Hjl].
        -- rewrite lookup_app_l in Hj by exact Hjl.
           destruct (Hmax j v Hj) as [Hle _].
           split; [|intros _]; [apply Qlt_le_weak|]; eapply Qle_lt_trans; eassumption.
        -- rewrite lookup_app_r in Hj by exact Hjl.
           destruct (j - length pre)%nat as [|d] eqn:Hd; [|destruct d; discriminate].
           cbn in Hj. injection Hj as <-. split; [apply Qle_refl|lia].
    + apply Qlt_bool_false in Hlt.
      apply (IH (pre ++ [x]) best bv).
      * rewrite length_app. cbn [length]. lia.
      * rewrite lookup_app_l by lia. exact Hbv.
      * intros j v Hj. destruct (Nat.lt_ge_cases j (length pre)) as [Hjl|Hjl].
        -- rewrite lookup_app_l in Hj by exact Hjl. apply Hmax. exact Hj.
        -- rewrite lookup_app_r in Hj by exact Hjl.
           destruct (j - length pre)%nat as [|d] eqn:Hd; [|destruct d; discriminate].
           cbn in Hj. injection Hj as <-. split; [exact Hlt|lia].
Qed.

Lemma np_argmax_spec (l : list Q) (m : Z) :
  np_argmax l = Ok m ->
  exists vm,
    0 <= m < Z.of_nat (length l) /\
    l !! Z.to_nat m = Some vm /\
    forall j v, l !! j = Some v -> (v <= vm)%Q /\ (Z.of_nat j < m -> (v < vm)%Q).
Proof.
  destruct l as [|x l]; [discriminate|]. cbn [np_argmax]. intros [= <-].
  destruct (argmax_from_spec l [x] 0 x) as (vm & Hrange & Hvm & Hmax).
  - cbn [length]. lia.
  - reflexivity.
  - intros [|j] v Hj; [|discriminate]. cbn in Hj. injection Hj as <-.
    split; [apply Qle_refl|lia].
  - exists vm. cbn [app length] in *. change (Z.of_nat 1) with 1 in *.
    repeat split; try lia; try assumption; apply (Hmax _ _ H).
Qed.

(** C6.  [best_action] is what [np.argmax] returns on [q_star]: the first
    index of the maximum.  [step] leaves the bandit as it is, and every
    operation of the agent (training included) leaves the testbed, hence
    the true values and best actions of its bandits, as they are. *)
Theorem best_action_first_argmax_and_stationary :
  (forall (id : nat) (k : Z) (k_mean k_std bandit_std : Q)
          (g g' : RandomState Q) (b : Bandit.t Q),
     Bandit.init id k k_mean k_std bandit_std g = (Ok b, g') ->
     np_argmax (Bandit.q_star b) = Ok (Bandit.best_action b) /\
     exists vm,
       0 <= Bandit.best_action b < Bandit.k b /\
       Bandit.q_star b !! Z.to_nat (Bandit.best_action b) = Some vm /\
       forall j v, Bandit.q_star b !! j = Some v ->
         (v <= vm)%Q /\ (Z.of_nat j < Bandit.best_action b -> (v < vm)%Q))
  /\
  (forall (b : Bandit.t Q) (action : Z) (g : RandomState Q),
     fst (snd (Bandit.step action (b, g))) = b)
  /\
  (forall (o : op) (s : EpsilonGreedy.t Q * RandomState Q),
     EpsilonGreedy.env (fst (snd (run_op o s))) = EpsilonGreedy.env (fst s)).
Proof.
  split; [|split].
  - intros id k k_mean k_std bandit_std g g' b Hinit.
    destruct (Bandit_init_Ok _ _ _ _ _ _ _ _ Hinit) as ((_ & Hlen & Hbest) & _).
    split; [exact Hbest|].
    destruct (np_argmax_spec _ _ Hbest) as (vm & Hrange & Hvm & Hmax).
    exists vm. rewrite <- Hlen. repeat split; try lia; try assumption; apply (Hmax _ _ H).
  - intros. apply step_keeps_bandit.
  - intros. apply run_op_keeps_env.
Qed.

Lemma best_action_first_argmax_and_stationary_witness :
  np_argmax [1%Q; 3%Q; 3%Q] = Ok 1 /\
  exists vm,
    0 <= 1 < 3 /\
    [1%Q; 3%Q; 3%Q] !! Z.to_nat 1 = Some vm /\
    forall j v, [1%Q; 3%Q; 3%Q] !! j = Some v -> (v <= vm)%Q /\ (Z.of_nat j < 1 -> (v < vm)%Q).
Proof.
  apply (proj1 best_action_first_argmax_and_stationary O 3 1%Q 2%Q 1%Q
           {| generator := fun _ n => {| bits := 0; gauss := inject_Z (Z.min (Z.of_nat n) 1) |};
              seed := 0; cursor := O |}
           {| generator := fun _ n => {| bits := 0; gauss := inject_Z (Z.min (Z.of_nat n) 1) |};
              seed := 0; cursor := 3%nat |}
           (Bandit.mk O 3 1%Q [1%Q; 3%Q; 3%Q] 1)).
  vm_compute. reflexivity.
Defined.

(** ** The invariant of the agent state *)

Section TrainStepAgent.
Context {T : Type} {ST : Scalar T}.
Import EpsilonGreedy.

(** One step of training leaves the agent as it is (when it raises before
    the update) or as the update rule in use leaves it. *)
Lemma train_step_agent (P : t T -> Prop) (i : nat) (step : Z)
    (acc : list T * list bool) (s : t T * RandomState T) :
  P (fst s) ->
  (forall a r,
     P (snd ((if use_weighted_average (fst s) then weighted_update a r
              else simple_update a r) (fst s)))) ->
  P (fst (snd (train_step i step acc s))).
Proof.
  intros Hsame Hupdated.
  unfold train_step. destruct acc as [rw opt].
  unfold bind at 1.
  pose proof (act_keeps (eq (fst s)) s eq_refl) as Hact. unfold on_agent in Hact.
  destruct (act s) as [[a|e] s1]; cbn [snd] in Hact; [|cbn [snd]; rewrite <- Hact; exact Hsame].
  unfold bind at 1.
  pose proof (call_bandit_step_keeps i a s1) as Hstep.
  destruct (call_bandit i (Bandit.step a) s1) as [[r|e] [self2 g2]]; cbn [fst snd] in Hstep;
    [|cbn [fst snd]; rewrite Hstep, <- Hact; exact Hsame].
  assert (Hs2 : self2 = fst s) by congruence. rewrite Hs2. clear Hs2 Hstep.
  unfold bind at 1. rewrite on_fst_run. cbn [get fst snd].
  unfold bind at 1.
  set (upd := if use_weighted_average (fst s)
              then on_fst (S2:=RandomState T) (weighted_update a r)
              else on_fst (simple_update a r)).
  assert (Hupd : fst (snd (upd (fst s, g2))) =
                 snd ((if use_weighted_average (fst s) then weighted_update a r
                       else simple_update a r) (fst s))).
  { subst upd.
    destruct (use_weighted_average (fst s)); rewrite on_fst_run; reflexivity. }
  specialize (Hupdated a r). rewrite <- Hupd in Hupdated.
  destruct (upd (fst s, g2)) as [[u|e] s3]; cbn [snd] in *; [|exact Hupdated].
  match goal with
  | |- P (fst (snd (?m s3))) =>
      enough (H : preserves (on_agent P) m) by (apply (H s3 Hupdated))
  end.
  apply preserves_bind; [apply preserves_lift_result|]. intros rewards'.
  apply preserves_bind; [apply call_bandit_get_preserves|]. intros b.
  apply preserves_bind.
  { apply preserves_if; [apply preserves_lift_result|apply preserves_ret]. }
  intros optimal'. apply preserves_ret.
Qed.
End TrainStepAgent.

Section SampleAverageInvariant.
Import EpsilonGreedy.

Lemma sample_average_inv_mono (b b' : Z) (self : t Q) :
  b <= b' -> sample_average_inv b self -> sample_average_inv b' self.
Proof.
  intros Hb [Hl Hinv]. split; [exact Hl|].
  intros j n Hn. destruct (Hinv j n Hn) as [Hrange Hzero].
  split; [lia|exact Hzero].
Qed.

Lemma sample_average_inv_reset (self self' : t Q) (u : unit) :
  reset self = (Ok u, self') -> sample_average_inv 0 self'.
Proof.
  intros Hreset. destruct (reset_Ok _ _ _ Hreset) as (Hn & _ & Hc & Hq).
  pose proof (reset_state self) as Hst. rewrite Hreset in Hst. cbn [snd] in Hst.
  destruct Hst as (_ & _ & _ & Hnum & _ & _ & Hinit).
  split.
  - unfold lengths_ok. rewrite Hc, Hq, !length_replicate, Hnum. lia.
  - intros j n Hj. rewrite Hc in Hj. apply lookup_replicate in Hj.
    destruct Hj as [-> Hlt]. split; [lia|]. intros _.
    eexists. split; [rewrite Hq; apply lookup_replicate_2; exact Hlt|].
    rewrite Hinit. apply Q_initial_value.
Qed.

Lemma sample_average_inv_simple_update (b : Z) (self : t Q) (a : Z) (r : Q) :
  sample_average_inv b self ->
  (forall n, getitem (action_counts self) a = Ok n -> n < int64_max) ->
  sample_average_inv (b + 1) (snd (simple_update a r self)).
Proof.
  intros Hinv Hbound.
  destruct (np_index (length (action_counts self)) a) as [j|e] eqn:Hj.
  - destruct Hinv as [[Hlq Hlc] Hinv].
    assert (Hjq : np_index (length (q_values self)) a = Ok j).
    { replace (length (q_values self)) with (length (action_counts self)) by lia.
      exact Hj. }
    destruct (getitem_index_Ok _ _ _ Hj) as (n & Hn & Hgn).
    destruct (getitem_index_Ok _ _ _ Hjq) as (v & Hv & _).
    rewrite (simple_update_at self a r j n v Hj Hjq Hn Hv). cbn [snd].
    destruct (Hinv j n Hn) as [Hrange _].
    pose proof (Hbound n Hgn) as Hmax.
    rewrite wrap_int64_small by (unfold int64_min, int64_max in *; lia).
    split.
    + unfold lengths_ok. cbn. rewrite !length_insert. split; assumption.
    + cbn. intros j' n' Hn'.
      destruct (Nat.eq_dec j' j) as [->|Hne].
      * rewrite list_lookup_insert_eq in Hn' by (eapply lookup_lt_Some; exact Hn).
        injection Hn' as <-. split; [lia|]. intros Hz. lia.
      * rewrite list_lookup_insert_ne in Hn' by congruence.
        destruct (Hinv j' n' Hn') as [Hr Hz]. split; [lia|].
        intros Hz0. destruct (Hz Hz0) as (v' & Hv' & Heq).
        exists v'. split; [|exact Heq].
        rewrite list_lookup_insert_ne by congruence. exact Hv'.
  - assert (He : e = IndexError).
    { unfold np_index in Hj. destruct (_ && _); [discriminate|].
      destruct (_ && _); [discriminate|]. congruence. }
    subst e. rewrite (simple_update_invalid _ _ _ Hj). cbn [snd].
    apply (sample_average_inv_mono b); [lia|exact Hinv].
Qed.

Lemma sample_average_inv_count_zero (b : Z) (self : t Q) :
  sample_average_inv b self -> lengths_ok self /\ count_zero_means_initial self.
Proof.
  intros [[Hlq Hlc] Hinv]. split; [split; assumption|].
  intros a n Hget Hz.
  destruct (getitem_Ok _ _ _ Hget) as (j & Hj & Hn).
  destruct (Hinv j n Hn) as [_ Hzero]. destruct (Hzero Hz) as (v & Hv & Heq).
  exists v. split; [|exact Heq].
  eapply getitem_lookup; [|exact Hv].
  replace (length (q_values self)) with (length (action_counts self)) by lia.
  exact Hj.
Qed.
End SampleAverageInvariant.

Section SampleAverageTraining.
Import EpsilonGreedy.

Lemma sample_average_step (ms : Z) (nb i : nat) (step : Z) (acc : list Q * list bool)
    (s : t Q * RandomState Q) :
  ms <= int64_max -> Z.of_nat i < ms ->
  use_weighted_average (fst s) = false /\ max_steps (fst s) = ms /\
    sample_average_inv (Z.of_nat i) (fst s) ->
  let s' := snd (train_step nb step acc s) in
  use_weighted_average (fst s') = false /\ max_steps (fst s') = ms /\
    sample_average_inv (Z.of_nat (S i)) (fst s').
Proof.
  intros Hms Hi (Huwa & Hmax & Hinv). cbv zeta.
  apply (train_step_agent
           (fun self => use_weighted_average self = false /\ max_steps self = ms /\
                        sample_average_inv (Z.of_nat (S i)) self)).
  - split; [exact Huwa|]. split; [exact Hmax|].
    apply (sample_average_inv_mono (Z.of_nat i)); [lia|exact Hinv].
  - intros a r. rewrite Huwa.
    pose proof (simple_update_changes (fst s) a r) as (_ & _ & _ & _ & Hm & _ & Hu & _).
    cbv zeta in *. rewrite Hu, Hm. split; [exact Huwa|]. split; [exact Hmax|].
    rewrite Nat2Z.inj_succ. unfold Z.succ.
    apply sample_average_inv_simple_update; [exact Hinv|].
    intros n Hn. destruct (getitem_Ok _ _ _ Hn) as (j & _ & Hj).
    destruct Hinv as [_ Hinv]. destruct (Hinv j n Hj) as [Hr _]. lia.
Qed.

Lemma sample_average_run (ms : Z) (i : nat)
    (acc : dict (list Q) * dict (list bool)) :
  ms <= int64_max -> preserves (sample_average_training ms) (train_run i acc).
Proof.
  intros Hms s (Huwa & Hmax & b & Hinv).
  unfold train_run. destruct acc as [rewards_testbed optimal_action_testbed].
  unfold bind at 1. rewrite on_fst_run.
  pose proof (reset_state (fst s)) as (_ & _ & Hm & _ & Hu & _).
  destruct (reset (fst s)) as [[u|e] self1] eqn:Hreset; cbn [fst snd] in *.
  2:{ destruct (reset_Raise _ _ _ Hreset) as [_ ->].
      repeat split; try assumption. exists b. exact Hinv. }
  pose proof (sample_average_inv_reset _ _ _ Hreset) as Hinv1.
  unfold bind at 1. rewrite on_fst_run. cbn [get fst snd].
  unfold bind at 1. unfold lift_result at 1.
  assert (Hstart : sample_average_training ms (self1, snd s)).
  { repeat split; cbn [fst]; try congruence. exists 0. exact Hinv1. }
  destruct (np_full (max_steps self1) (s_of_Z 0)) as [rewards|e] eqn:Hfull;
    [|exact Hstart].
  unfold bind at 1.
  assert (Hloop : forall acc0,
    (fun n (s0 : t Q * RandomState Q) =>
       use_weighted_average (fst s0) = false /\ max_steps (fst s0) = ms /\
       sample_average_inv (Z.of_nat n) (fst s0))
      (length (range (max_steps self1)))
      (snd (for_loop (range (max_steps self1)) (train_step i) acc0 (self1, snd s)))).
  { intros acc0. apply for_loop_indexed.
    - intros n x acc s0 Hx H. apply range_lookup in Hx. destruct Hx as [_ Hx].
      apply sample_average_step; [exact Hms|lia|exact H].
    - intros n s0 (Hu' & Hm' & Hi'). split; [exact Hu'|]. split; [exact Hm'|].
      apply (sample_average_inv_mono (Z.of_nat n)); [lia|exact Hi'].
    - cbn [fst]. split; [congruence|]. split; [congruence|exact Hinv1]. }
  specialize (Hloop (rewards, replicate (Z.to_nat (max_steps self1)) false)).
  cbv beta in Hloop.
  destruct (for_loop _ _ _ _) as [[[rewards' optimal']|e] s2]; cbn [snd] in Hloop.
  2:{ destruct Hloop as (H1 & H2 & H3). repeat split; try assumption. eexists; exact H3. }
  unfold bind at 1. rewrite call_bandit_get.
  destruct Hloop as (H1 & H2 & H3).
  destruct (_ !! i); cbn [snd]; (repeat split; try assumption; eexists; exact H3).
Qed.

Lemma sample_average_train (ms : Z) :
  ms <= int64_max -> preserves (sample_average_training ms) train.
Proof.
  intros Hms. unfold train.
  apply preserves_bind; [intros s Hs; rewrite on_fst_run; destruct s; exact Hs|].
  intros self.
  apply preserves_bind.
  { apply preserves_for_loop. intros i acc. apply sample_average_run. exact Hms. }
  intros [rewards_testbed optimal_action_testbed].
  apply preserves_bind; [apply preserves_lift_result|]. intros df1.
  apply preserves_bind; [apply preserves_lift_result|]. intros df2.
  apply preserves_ret.
Qed.

Lemma reachable_sample_average (s : t Q * RandomState Q) :
  reachable_by sample_average_op s -> exists b, sample_average_inv b (fst s).
Proof.
  induction 1 as [? ? ? ? ? ? ? ? ? ? ? ? ? ? ? Henv Hinit|s o _ [b IH] Hallowed].
  - exists 0. cbn [fst]. rewrite init_unfold in Hinit.
    destruct (KArmedTestbed.bandits env0) as [|b0 bs]; [discriminate|].
    destruct (Z.ltb_spec (Bandit.k b0) 0); [discriminate|].
    destruct (_ || _); [|discriminate]. injection Hinit as <-.
    split.
    + unfold lengths_ok. cbn. rewrite !length_replicate. lia.
    + cbn. intros j n Hj. apply lookup_replicate in Hj. destruct Hj as [-> Hlt].
      split; [lia|]. intros _. eexists.
      split; [apply lookup_replicate_2; exact Hlt|apply Q_initial_value].
  - destruct o as [| |a r|a r|]; cbn [run_op sample_average_op] in *.
    + rewrite on_fst_run. cbn [fst snd].
      destruct (reset (fst s)) as [[u|e] self1] eqn:Hreset; cbn [snd].
      * exists 0. eapply sample_average_inv_reset. exact Hreset.
      * destruct (reset_Raise _ _ _ Hreset) as [_ ->]. exists b. exact IH.
    + exists b.
      apply (preserves_bind (on_agent (sample_average_inv b)) act (fun _ => ret tt));
        [apply act_keeps|intros; apply preserves_ret|exact IH].
    + rewrite on_fst_run. cbn [fst snd]. exists (b + 1).
      apply sample_average_inv_simple_update; assumption.
    + destruct Hallowed.
    + destruct Hallowed as [Huwa Hms].
      assert (Hk : sample_average_training (max_steps (fst s)) s).
      { repeat split; try assumption. exists b. exact IH. }
      pose proof (preserves_bind (sample_average_training (max_steps (fst s)))
                    train (fun _ => ret tt)
                    (sample_average_train _ Hms)
                    (fun _ => preserves_ret _ tt) s Hk) as (_ & _ & Hb).
      exact Hb.
Qed.
End SampleAverageTraining.

Lemma weighted_state_reachable : reachable weighted_state.
Proof.
  unfold weighted_state. apply reachable_step; [|exact I].
  apply (reachable_init _ 3 2 0%Q 1%Q 1%Q 0 demo_stream demo_env demo_stream_after
           (1 # 10)%Q 4 0%Q true (1 # 2)%Q weighted_agent); reflexivity.
Qed.

(** C2, amended.  In every state the agent reaches, both arrays have
    length [num_actions].  An action whose count is 0 has the initial
    estimate in every state reached through [reset], [act],
    [simple_update] and [train] with sample averages (counters within 64
    bits); [weighted_update] does not count the selections, so nothing is
    claimed after it. *)
Theorem agent_state_invariant :
  (forall s : EpsilonGreedy.t Q * RandomState Q,
     reachable s -> lengths_ok (fst s))
  /\
  (forall s : EpsilonGreedy.t Q * RandomState Q,
     reachable_by sample_average_op s ->
     lengths_ok (fst s) /\ count_zero_means_initial (fst s)).
Proof.
  split.
  - intros s Hs. apply (reachable_by_wf _ _ Hs).
  - intros s Hs. destruct (reachable_sample_average s Hs) as [b Hb].
    apply (sample_average_inv_count_zero b). exact Hb.
Qed.

Lemma agent_state_invariant_witness :
  lengths_ok (fst weighted_state) /\
  lengths_ok (fst greedy_state) /\ count_zero_means_initial (fst greedy_state).
Proof.
  split.
  - apply (proj1 agent_state_invariant). exact weighted_state_reachable.
  - apply (proj2 agent_state_invariant). unfold greedy_state.
    apply reachable_step; [apply greedy_agent_reachable|].
    cbn. intros n [= <-]. unfold int64_max. lia.
Defined.

(** C2, counterexample.  The agent with [alpha = 1/2] and initial value 0,
    after [weighted_update(0, 4)]: the count of action 0 is still 0 and its
    estimate is 2. *)
Lemma count_zero_invariant_counterexample :
  reachable weighted_state /\
  EpsilonGreedy.initialisation (fst weighted_state) = 0%Q /\
  getitem (EpsilonGreedy.action_counts (fst weighted_state)) 0 = Ok 0 /\
  returns (getitem (EpsilonGreedy.q_values (fst weighted_state)) 0) 2 /\
  ~ count_zero_means_initial (fst weighted_state).
Proof.
  split; [exact weighted_state_reachable|].
  split; [reflexivity|]. split; [reflexivity|]. split; [vm_compute; reflexivity|].
  intros H. destruct (H 0 0 eq_refl eq_refl) as (v & Hv & Heq).
  vm_compute in Hv. injection Hv as <-. vm_compute in Heq. discriminate.
Qed.

(** ** Training returns two tables *)

Section UpdatesReturn.
Context {T : Type} {ST : Scalar T}.
Import EpsilonGreedy.

Lemma weighted_update_returns (self : t T) (a : Z) (r : T) :
  lengths_ok self -> 0 <= a < num_actions self ->
  fst (weighted_update a r self) = Ok tt.
Proof.
  intros [Hq _] Ha.
  assert (Hj : np_index (length (q_values self)) a = Ok (Z.to_nat a))
    by (apply np_index_nonneg; lia).
  destruct (getitem_index_Ok _ _ _ Hj) as (q & Hv & _).
  rewrite (weighted_update_at self a r _ q Hj Hv). reflexivity.
Qed.

Lemma simple_update_returns (self : t T) (a : Z) (r : T) :
  lengths_ok self -> 0 <= a < num_actions self ->
  fst (simple_update a r self) = Ok tt.
Proof.
  intros [Hq Hc] Ha.
  assert (Hj : np_index (length (q_values self)) a = Ok (Z.to_nat a))
    by (apply np_index_nonneg; lia).
  assert (Hjc : np_index (length (action_counts self)) a = Ok (Z.to_nat a))
    by (apply np_index_nonneg; lia).
  destruct (getitem_index_Ok _ _ _ Hj) as (q & Hv & _).
  destruct (getitem_index_Ok _ _ _ Hjc) as (n & Hn & _).
  rewrite (simple_update_at self a r _ n q Hjc Hj Hn Hv). reflexivity.
Qed.

Lemma dict_set_fresh {V} (d : dict V) (r : nat) (v : V) :
  map fst d = seq 0 r -> dict_set d r v = d ++ [(r, v)].
Proof.
  intros Hkeys.
  assert (Hlt : Forall (fun kv => (fst kv < r)%nat) d).
  { apply Forall_forall. intros kv Hin.
    assert (Hk : fst kv ∈ seq 0 r).
    { rewrite <- Hkeys. apply list_elem_of_fmap. exists kv. split; [reflexivity|exact Hin]. }
    apply elem_of_seq in Hk. lia. }
  clear Hkeys. induction d as [|[k' v'] d IH]; [reflexivity|].
  cbn [dict_set app]. apply Forall_cons in Hlt. destruct Hlt as [Hk Hrest].
  cbn [fst] in Hk. destruct (Nat.eqb_spec k' r); [lia|].
  rewrite IH by exact Hrest. reflexivity.
Qed.

Lemma trajectories_add {V} (r n : nat) (d : dict (list V)) (col : list V) :
  trajectories r n d -> length col = n -> trajectories (S r) n (dict_set d r col).
Proof.
  intros [Hkeys Hcols] Hcol. rewrite (dict_set_fresh _ _ _ Hkeys). split.
  - rewrite map_app, Hkeys. cbn [map fst]. rewrite seq_S. reflexivity.
  - apply Forall_app. split; [exact Hcols|]. apply Forall_cons. split; [exact Hcol|].
    apply Forall_nil. exact I.
Qed.

Lemma pd_DataFrame_trajectories {V} (r n : nat) (d : dict (list V)) :
  (0 < r)%nat -> trajectories r n d ->
  pd_DataFrame d = Ok {| df_columns := d; df_rows := n |}.
Proof.
  intros Hr [Hkeys Hcols]. unfold pd_DataFrame.
  destruct d as [|[k c] d']; [destruct r; [lia|discriminate]|].
  assert (Hc : length c = n).
  { apply Forall_cons in Hcols. apply Hcols. }
  assert (Hall : forallb (fun kv => Nat.eqb (length (snd kv)) (length c)) ((k, c) :: d') = true).
  { apply forallb_forall. intros kv Hin.
    apply list_elem_of_In in Hin.
    pose proof (proj1 (Forall_forall _ _) Hcols kv Hin) as Hkv. cbn beta in Hkv.
    apply Nat.eqb_eq. congruence. }
  rewrite Hall, Hc. reflexivity.
Qed.
End UpdatesReturn.

Section TrainReturns.
Import EpsilonGreedy.
Variable e0 : KArmedTestbed.t Q.
Variable ms : Z.
Hypothesis noise_ok : (0 <= KArmedTestbed.bandit_std e0)%Q.
Hypothesis budget_ok : 0 <= ms.

Lemma trainable_agent (s : t Q * RandomState Q) (self' : t Q) (g' : RandomState Q) :
  trainable e0 ms s -> agent_wf self' -> env self' = env (fst s) ->
  max_steps self' = max_steps (fst s) -> trainable e0 ms (self', g').
Proof.
  intros (_ & He & Hm) Hwf He' Hm'. unfold trainable. cbn [fst].
  split; [exact Hwf|]. split; congruence.
Qed.

Lemma trainable_stream (s : t Q * RandomState Q) (g' : RandomState Q) :
  trainable e0 ms s -> trainable e0 ms (fst s, g').
Proof. intros H. exact H. Qed.

Lemma act_succeeds :
  succeeds (trainable e0 ms) act
    (fun a s' => trainable e0 ms s' /\ 0 <= a < KArmedTestbed.k e0).
Proof.
  intros s Htr. pose proof Htr as (Hwf & He & _).
  destruct (agent_wf_first_bandit _ Hwf) as (Hn & _).
  pose proof Hwf as (_ & _ & Hk & _ & Hq & _).
  destruct (act_run s Hn Hq) as (a & g' & Hrun & Ha).
  exists a, (fst s, g'). split; [exact Hrun|].
  split; [apply trainable_stream; exact Htr|]. rewrite <- He, <- Hk. exact Ha.
Qed.

Lemma bandit_step_succeeds (nb : nat) (a : Z) :
  (nb < length (KArmedTestbed.bandits e0))%nat -> 0 <= a < KArmedTestbed.k e0 ->
  succeeds (trainable e0 ms) (call_bandit nb (Bandit.step a))
    (fun _ s' => trainable e0 ms s').
Proof.
  intros Hnb Ha s Htr. pose proof Htr as (Hwf & He & _).
  rewrite call_bandit_run by (intros; apply step_keeps_bandit).
  rewrite He. destruct (lookup_lt_is_Some_2 _ _ Hnb) as [b Hb]. rewrite Hb.
  destruct Hwf as ([_ Hall] & _). rewrite He in Hall.
  destruct (Hall nb b Hb) as ((_ & Hlen & _) & _ & Hkb & Hstd).
  rewrite step_unfold.
  destruct (getitem_index_Ok (Bandit.q_star b) a (Z.to_nat a)) as (mu & _ & Hmu).
  { apply np_index_nonneg. lia. }
  rewrite Hmu. cbn [fst snd]. rewrite normal_unfold.
  assert (Hno : np_random.negative_scale (Bandit.bandit_std b) = false).
  { rewrite Hstd, Q_negative_scale. apply Qlt_bool_false. exact noise_ok. }
  rewrite Hno. cbn [fst snd].
  eexists. eexists. split; [reflexivity|]. apply trainable_stream. exact Htr.
Qed.

Lemma update_succeeds (a : Z) (r : Q) (weighted : bool) :
  0 <= a < KArmedTestbed.k e0 ->
  succeeds (trainable e0 ms)
    (if weighted then on_fst (weighted_update a r) else on_fst (simple_update a r))
    (fun _ s' => trainable e0 ms s').
Proof.
  intros Ha s Htr. pose proof Htr as (Hwf & He & _).
  pose proof Hwf as (_ & _ & Hk & _ & Hl).
  assert (Ha' : 0 <= a < num_actions (fst s)) by (rewrite Hk, He; exact Ha).
  destruct weighted; rewrite on_fst_run.
  - pose proof (weighted_update_returns (fst s) a r Hl Ha') as Hok.
    pose proof (weighted_update_changes (fst s) a r) as (_ & _ & He' & _ & Hm' & _).
    exists tt. eexists. split; [rewrite Hok; reflexivity|].
    apply (trainable_agent s); try assumption.
    apply agent_wf_weighted_update. exact Hwf.
  - pose proof (simple_update_returns (fst s) a r Hl Ha') as Hok.
    pose proof (simple_update_changes (fst s) a r) as (_ & _ & He' & _ & Hm' & _).
    exists tt. eexists. split; [rewrite Hok; reflexivity|].
    apply (trainable_agent s); try assumption.
    apply agent_wf_simple_update. exact Hwf.
Qed.

Lemma bandit_get_succeeds (nb : nat) :
  (nb < length (KArmedTestbed.bandits e0))%nat ->
  succeeds (trainable e0 ms) (call_bandit nb (on_fst get))
    (fun b s' => trainable e0 ms s' /\ Bandit.oid b = nb).
Proof.
  intros Hnb s Htr. pose proof Htr as (Hwf & He & _).
  rewrite call_bandit_get. rewrite He.
  destruct (lookup_lt_is_Some_2 _ _ Hnb) as [b Hb]. rewrite Hb.
  exists b, s. split; [reflexivity|]. split; [exact Htr|].
  destruct Hwf as ([_ Hall] & _). rewrite He in Hall. apply (Hall nb b Hb).
Qed.

Lemma train_step_succeeds (nb i : nat) (rewards : list Q) (optimal_action : list bool) :
  (nb < length (KArmedTestbed.bandits e0))%nat ->
  (i < length rewards)%nat -> (i < length optimal_action)%nat ->
  succeeds (trainable e0 ms)
    (train_step nb (Z.of_nat i) (rewards, optimal_action))
    (fun acc s' => trainable e0 ms s' /\
                   length (fst acc) = length rewards /\
                   length (snd acc) = length optimal_action).
Proof.
  intros Hnb Hi Hi' s Htr. unfold train_step.
  destruct (act_succeeds s Htr) as (a & s1 & Hact & Htr1 & Ha).
  rewrite (bind_Ok _ _ _ _ _ Hact).
  destruct (bandit_step_succeeds nb a Hnb Ha s1 Htr1) as (reward & s2 & Hstep & Htr2).
  rewrite (bind_Ok _ _ _ _ _ Hstep).
  rewrite (bind_Ok _ _ s2 s2 (fst s2)) by (rewrite on_fst_run; destruct s2; reflexivity).
  destruct (update_succeeds a reward (use_weighted_average (fst s2)) Ha s2 Htr2)
    as (u & s3 & Hupd & Htr3).
  rewrite (bind_Ok _ _ _ _ _ Hupd).
  assert (Hidx : forall (A : Type) (l : list A), (i < length l)%nat ->
                 np_index (length l) (Z.of_nat i) = Ok i).
  { intros A l Hl. rewrite np_index_nonneg by lia. rewrite Nat2Z.id. reflexivity. }
  rewrite (bind_Ok _ _ s3 s3 (<[i:=reward]> rewards))
    by (unfold lift_result; rewrite (setitem_index _ _ i) by (apply Hidx; exact Hi);
        reflexivity).
  destruct (bandit_get_succeeds nb Hnb s3 Htr3) as (b & s4 & Hget & Htr4 & _).
  rewrite (bind_Ok _ _ _ _ _ Hget).
  destruct (a =? Bandit.best_action b).
  - rewrite (bind_Ok _ _ s4 s4 (<[i:=true]> optimal_action))
      by (unfold lift_result; rewrite (setitem_index _ _ i) by (apply Hidx; exact Hi');
          reflexivity).
    eexists. exists s4. split; [reflexivity|]. cbn [fst snd].
    rewrite !length_insert. split; [exact Htr4|]. split; reflexivity.
  - rewrite (bind_Ok _ _ s4 s4 optimal_action) by reflexivity.
    eexists. exists s4. split; [reflexivity|]. cbn [fst snd].
    rewrite !length_insert. split; [exact Htr4|]. split; reflexivity.
Qed.

Lemma reset_succeeds :
  succeeds (trainable e0 ms) (on_fst reset) (fun _ s' => trainable e0 ms s').
Proof.
  intros s Htr. pose proof Htr as (Hwf & He & Hm).
  rewrite on_fst_run.
  pose proof (reset_state (fst s)) as (He' & _ & Hm' & _).
  pose proof (agent_wf_reset (fst s) Hwf) as Hwf'.
  destruct (agent_wf_first_bandit _ Hwf) as (Hn & _).
  pose proof Hwf as (_ & _ & _ & Hinit & _).
  assert (Hok : fst (reset (fst s)) = Ok tt).
  { rewrite reset_unfold, Hinit.
    destruct (Z.ltb_spec (num_actions (fst s)) 0); [lia|reflexivity]. }
  exists tt. eexists. split; [rewrite Hok; reflexivity|].
  apply (trainable_agent s); assumption.
Qed.

Lemma train_run_succeeds (nb : nat) (rewards_testbed : dict (list Q))
    (optimal_action_testbed : dict (list bool)) :
  (nb < length (KArmedTestbed.bandits e0))%nat ->
  trajectories nb (Z.to_nat ms) rewards_testbed ->
  trajectories nb (Z.to_nat ms) optimal_action_testbed ->
  succeeds (trainable e0 ms)
    (train_run nb (rewards_testbed, optimal_action_testbed))
    (fun acc s' => trainable e0 ms s' /\
                   trajectories (S nb) (Z.to_nat ms) (fst acc) /\
                   trajectories (S nb) (Z.to_nat ms) (snd acc)).
Proof.
  intros Hnb Hrt Hot s Htr. unfold train_run.
  destruct (reset_succeeds s Htr) as (u & s1 & Hreset & Htr1).
  rewrite (bind_Ok _ _ _ _ _ Hreset).
  rewrite (bind_Ok _ _ s1 s1 (fst s1)) by (rewrite on_fst_run; destruct s1; reflexivity).
  pose proof Htr1 as (_ & _ & Hms).
  rewrite (bind_Ok _ _ s1 s1 (replicate (Z.to_nat ms) (s_of_Z 0)))
    by (unfold lift_result; rewrite Hms, np_full_Ok by exact budget_ok; reflexivity).
  rewrite Hms.
  destruct (succeeds_for_loop
    (fun (n : nat) (acc : list Q * list bool) s' =>
       trainable e0 ms s' /\ length (fst acc) = Z.to_nat ms /\
       length (snd acc) = Z.to_nat ms)
    (range ms) (train_step nb)) with
    (acc := (replicate (Z.to_nat ms) (s_of_Z (T:=Q) 0), replicate (Z.to_nat ms) false))
    (s := s1)
    as ([rewards optimal_action] & s2 & Hloop & Htr2 & Hlr & Hlo).
  { intros i x [rw op] Hx s' (Htr' & Hrw & Hop). cbn [fst snd] in *.
    apply range_lookup in Hx. destruct Hx as [-> Hi].
    destruct (train_step_succeeds nb i rw op Hnb) with (s := s')
      as (acc' & s'' & Hrun & Htr'' & Hl1 & Hl2); try lia; try assumption.
    exists acc', s''. split; [exact Hrun|]. cbn [fst snd] in *.
    split; [exact Htr''|]. split; congruence. }
  { cbn [fst snd]. rewrite !length_replicate. split; [exact Htr1|]. split; reflexivity. }
  rewrite (bind_Ok _ _ _ _ _ Hloop). cbn [fst snd] in *.
  destruct (bandit_get_succeeds nb Hnb s2 Htr2) as (b & s3 & Hget & Htr3 & Hoid).
  rewrite (bind_Ok _ _ _ _ _ Hget). rewrite Hoid.
  eexists. exists s3. split; [reflexivity|]. cbn [fst snd].
  split; [exact Htr3|]. split; apply trajectories_add; assumption.
Qed.

Lemma train_succeeds :
  succeeds (trainable e0 ms) train
    (fun dfs s' =>
       trainable e0 ms s' /\
       exists rewards_testbed optimal_action_testbed,
         trajectories (length (KArmedTestbed.bandits e0)) (Z.to_nat ms) rewards_testbed /\
         trajectories (length (KArmedTestbed.bandits e0)) (Z.to_nat ms) optimal_action_testbed /\
         fst dfs = {| df_columns := rewards_testbed; df_rows := Z.to_nat ms |} /\
         snd dfs = {| df_columns := optimal_action_testbed; df_rows := Z.to_nat ms |}).
Proof.
  intros s Htr. pose proof Htr as (Hwf & He & _). unfold train.
  rewrite (bind_Ok _ _ s s (fst s)) by (rewrite on_fst_run; destruct s; reflexivity).
  rewrite He.
  destruct (succeeds_for_loop
    (fun (n : nat) (acc : dict (list Q) * dict (list bool)) s' =>
       trainable e0 ms s' /\ trajectories n (Z.to_nat ms) (fst acc) /\
       trajectories n (Z.to_nat ms) (snd acc))
    (seq 0 (length (KArmedTestbed.bandits e0))) train_run) with
    (acc := (@nil (nat * list Q), @nil (nat * list bool))) (s := s)
    as ([rewards_testbed optimal_action_testbed] & s1 & Hloop & Htr1 & Hrt & Hot).
  { intros i x [rt ot] Hx s' (Htr' & Hrt & Hot). cbn [fst snd] in *.
    apply lookup_seq in Hx. destruct Hx as [-> Hi]. cbn [Nat.add].
    apply (train_run_succeeds i rt ot Hi Hrt Hot s' Htr'). }
  { cbn [fst snd]. split; [exact Htr|]. split; split; try reflexivity; apply Forall_nil; exact I. }
  rewrite (bind_Ok _ _ _ _ _ Hloop). cbn [fst snd] in *.
  rewrite length_seq in Hrt, Hot.
  assert (Hpos : (0 < length (KArmedTestbed.bandits e0))%nat).
  { rewrite <- He. apply (agent_wf_first_bandit _ Hwf). }
  rewrite (bind_Ok _ _ s1 s1 _ (f_equal (fun r => (r, s1))
             (pd_DataFrame_trajectories _ _ _ Hpos Hrt))).
  rewrite (bind_Ok _ _ s1 s1 _ (f_equal (fun r => (r, s1))
             (pd_DataFrame_trajectories _ _ _ Hpos Hot))).
  eexists. exists s1. split; [reflexivity|]. split; [exact Htr1|].
  exists rewards_testbed, optimal_action_testbed. cbn [fst snd].
  repeat split; try apply Hrt; try apply Hot.
Qed.
End TrainReturns.

Lemma testbed_run_order {T : Type} {ST : Scalar T} (env : KArmedTestbed.t T) :
  testbed_wf env ->
  map Bandit.oid (KArmedTestbed.bandits env) = seq 0 (length (KArmedTestbed.bandits env)).
Proof.
  intros [_ Hall]. apply list_eq. intros i.
  rewrite list_lookup_fmap.
  destruct (KArmedTestbed.bandits env !! i) as [b|] eqn:Hb; cbn.
  - destruct (Hall i b Hb) as (_ & -> & _).
    symmetry. apply lookup_seq. split; [reflexivity|].
    eapply lookup_lt_Some. exact Hb.
  - symmetry. apply lookup_ge_None. rewrite length_seq.
    apply lookup_ge_None in Hb. exact Hb.
Qed.

(** ** What [train] returns, in any arithmetic

    Whether [train] returns depends on the arithmetic; what it returns,
    when it does, has the same shape in all of them. *)

Section Returns.
Context {S : Type}.

Lemma bind_returns {A B} (m : M S A) (k : A -> M S B) (s s' : S) (b : B) :
  bind m k s = (Ok b, s') ->
  exists a s1, m s = (Ok a, s1) /\ k a s1 = (Ok b, s').
Proof.
  unfold bind. destruct (m s) as [[a|e] s1]; [|discriminate].
  intros H. exists a, s1. split; [reflexivity|exact H].
Qed.

(** A loop that has returned: [I i acc] after [i] iterations. *)
Lemma for_loop_returns {A X} (I : nat -> A -> S -> Prop) (xs : list X)
    (body : X -> A -> M S A) :
  (forall i x acc s acc' s', xs !! i = Some x -> I i acc s ->
     body x acc s = (Ok acc', s') -> I (Datatypes.S i) acc' s') ->
  forall acc s acc' s',
    I O acc s -> for_loop xs body acc s = (Ok acc', s') -> I (length xs) acc' s'.
Proof.
  intros Hbody.
  assert (Hgen : forall ys off acc s acc' s',
    (forall i x, ys !! i = Some x -> xs !! (off + i)%nat = Some x) ->
    I off acc s -> for_loop ys body acc s = (Ok acc', s') ->
    I (length ys + off)%nat acc' s').
  { induction ys as [|y ys IH]; intros off acc s acc' s' Hsub Hs Hrun;
      cbn [for_loop length] in *.
    - injection Hrun as <- <-. exact Hs.
    - apply bind_returns in Hrun. destruct Hrun as (acc1 & s1 & Hstep & Hrest).
      replace (Datatypes.S (length ys) + off)%nat
        with (length ys + Datatypes.S off)%nat by lia.
      apply (IH (Datatypes.S off) acc1 s1); [|
        apply (Hbody off y acc s); [|exact Hs|exact Hstep]|exact Hrest].
      + intros i x Hx.
        replace (Datatypes.S off + i)%nat with (off + Datatypes.S i)%nat by lia.
        apply Hsub. exact Hx.
      + rewrite <- (Nat.add_0_r off). apply Hsub. reflexivity. }
  intros acc s acc' s' Hs Hrun. rewrite <- (Nat.add_0_r (length xs)).
  apply (Hgen xs O acc s); [|exact Hs|exact Hrun]. intros i x Hx. exact Hx.
Qed.
End Returns.

Section TrainShape.
Context {T : Type} {ST : Scalar T}.
Import EpsilonGreedy.
Variable e0 : KArmedTestbed.t T.
Variable ms : Z.

Lemma training_on_reset : preserves (training_on e0 ms) (reset (T:=T)).
Proof.
  intros self (Hwf & He & Hm).
  pose proof (reset_state self) as (He' & _ & Hm' & _).
  split; [apply agent_wf_reset; exact Hwf|]. split; congruence.
Qed.

Lemma training_on_simple_update (a : Z) (r : T) :
  preserves (training_on e0 ms) (simple_update a r).
Proof.
  intros self (Hwf & He & Hm).
  pose proof (simple_update_changes self a r) as (_ & _ & He' & _ & Hm' & _).
  split; [apply agent_wf_simple_update; exact Hwf|]. split; congruence.
Qed.

Lemma training_on_weighted_update (a : Z) (r : T) :
  preserves (training_on e0 ms) (weighted_update a r).
Proof.
  intros self (Hwf & He & Hm).
  pose proof (weighted_update_changes self a r) as (_ & _ & He' & _ & Hm' & _).
  split; [apply agent_wf_weighted_update; exact Hwf|]. split; congruence.
Qed.

(** A step writes into the two arrays of the run; it does not resize
    them. *)
Lemma train_step_lengths (nb : nat) (step : Z) (rewards : list T)
    (optimal_action : list bool) (s s' : t T * RandomState T)
    (rewards' : list T) (optimal_action' : list bool) :
  train_step nb step (rewards, optimal_action) s = (Ok (rewards', optimal_action'), s') ->
  length rewards' = length rewards /\ length optimal_action' = length optimal_action.
Proof.
  unfold train_step. intros H.
  apply bind_returns in H. destruct H as (action & s1 & _ & H).
  apply bind_returns in H. destruct H as (reward & s2 & _ & H).
  apply bind_returns in H. destruct H as (self & s3 & _ & H).
  apply bind_returns in H. destruct H as (u & s4 & _ & H).
  apply bind_returns in H. destruct H as (rw & s5 & Hrw & H).
  apply bind_returns in H. destruct H as (b & s6 & _ & H).
  apply bind_returns in H. destruct H as (op & s7 & Hop & H).
  injection H as <- <- <-.
  unfold lift_result in Hrw. injection Hrw as Hrw _.
  split; [apply (setitem_length _ _ _ _ Hrw)|].
  destruct (action =? Bandit.best_action b).
  - unfold lift_result in Hop. injection Hop as Hop _.
    apply (setitem_length _ _ _ _ Hop).
  - injection Hop as <- _. reflexivity.
Qed.

Lemma train_run_returns (nb : nat) (rewards_testbed : list (nat * list T))
    (optimal_action_testbed : list (nat * list bool))
    (s s' : t T * RandomState T)
    (acc' : list (nat * list T) * list (nat * list bool)) :
  training_on e0 ms (fst s) ->
  trajectories nb (Z.to_nat ms) rewards_testbed ->
  trajectories nb (Z.to_nat ms) optimal_action_testbed ->
  train_run nb (rewards_testbed, optimal_action_testbed) s = (Ok acc', s') ->
  training_on e0 ms (fst s') /\
  trajectories (Datatypes.S nb) (Z.to_nat ms) (fst acc') /\
  trajectories (Datatypes.S nb) (Z.to_nat ms) (snd acc').
Proof.
  intros Hs Hrt Hot Hrun.
  split.
  { pose proof (train_run_keeps (training_on e0 ms) training_on_reset
                  training_on_simple_update training_on_weighted_update
                  nb (rewards_testbed, optimal_action_testbed) s Hs) as Hkeep.
    rewrite Hrun in Hkeep. exact Hkeep. }
  unfold train_run in Hrun.
  apply bind_returns in Hrun. destruct Hrun as (u & s1 & Hreset & Hrun).
  assert (Hs1 : training_on e0 ms (fst s1)).
  { pose proof (preserves_on_fst (training_on e0 ms) reset training_on_reset s Hs) as H.
    rewrite Hreset in H. exact H. }
  apply bind_returns in Hrun. destruct Hrun as (self & s1' & Hget & Hrun).
  rewrite on_fst_run in Hget. cbn [get fst snd] in Hget. injection Hget as <- <-.
  apply bind_returns in Hrun. destruct Hrun as (rewards & s1' & Hfull & Hrun).
  unfold lift_result in Hfull. injection Hfull as Hfull <-.
  apply np_full_inv in Hfull. destruct Hfull as [Hms Hrewards].
  pose proof Hs1 as (_ & _ & Hm). rewrite Hm in *.
  apply bind_returns in Hrun. destruct Hrun as ([rw op] & s2 & Hloop & Hrun).
  assert (Hlen : length rw = Z.to_nat ms /\ length op = Z.to_nat ms).
  { apply (for_loop_returns
             (fun (_ : nat) (acc : list T * list bool) (_ : t T * RandomState T) =>
                length (fst acc) = Z.to_nat ms /\ length (snd acc) = Z.to_nat ms)
             (range ms) (train_step nb)) in Hloop.
    - exact Hloop.
    - intros i x [rw0 op0] s0 [rw1 op1] s0' _ [Hl1 Hl2] Hstep. cbn [fst snd] in *.
      apply train_step_lengths in Hstep. destruct Hstep as [-> ->]. split; assumption.
    - cbn [fst snd]. rewrite Hrewards, !length_replicate. split; reflexivity. }
  assert (Hs2 : training_on e0 ms (fst s2)).
  { pose proof (preserves_for_loop (on_agent (training_on e0 ms)) (range ms) (train_step nb)
                  (train_step_keeps (training_on e0 ms)
                     training_on_simple_update training_on_weighted_update nb)
                  (rewards, replicate (Z.to_nat ms) false) (fst s1, snd s1) Hs1) as H.
    rewrite Hloop in H. exact H. }
  apply bind_returns in Hrun. destruct Hrun as (b & s3 & Hb & Hrun).
  injection Hrun as <- _.
  rewrite call_bandit_get in Hb.
  destruct (KArmedTestbed.bandits (env (fst s2)) !! nb) as [b'|] eqn:Hnb; [|discriminate].
  injection Hb as -> _.
  destruct Hs2 as (([_ Hall] & _) & _).
  destruct (Hall nb b Hnb) as (_ & Hoid & _). rewrite Hoid.
  cbn [fst snd]. destruct Hlen as [Hl1 Hl2].
  split; apply trajectories_add; assumption.
Qed.

Lemma train_returns (s s' : t T * RandomState T)
    (rewards_df : DataFrame T) (optimal_df : DataFrame bool) :
  training_on e0 ms (fst s) ->
  train s = (Ok (rewards_df, optimal_df), s') ->
  training_on e0 ms (fst s') /\
  exists rewards_testbed optimal_action_testbed,
    trajectories (length (KArmedTestbed.bandits e0)) (Z.to_nat ms) rewards_testbed /\
    trajectories (length (KArmedTestbed.bandits e0)) (Z.to_nat ms) optimal_action_testbed /\
    rewards_df = {| df_columns := rewards_testbed; df_rows := Z.to_nat ms |} /\
    optimal_df = {| df_columns := optimal_action_testbed; df_rows := Z.to_nat ms |}.
Proof.
  intros Hs Hrun. pose proof Hs as (Hwf & He & _).
  unfold train in Hrun.
  apply bind_returns in Hrun. destruct Hrun as (self & s0 & Hget & Hrun).
  rewrite on_fst_run in Hget. cbn [get fst snd] in Hget. injection Hget as <- <-.
  rewrite He in Hrun.
  apply bind_returns in Hrun. destruct Hrun as ([rt ot] & s1 & Hloop & Hrun).
  apply (for_loop_returns
           (fun (n : nat) (acc : list (nat * list T) * list (nat * list bool)) s1 =>
              training_on e0 ms (fst s1) /\ trajectories n (Z.to_nat ms) (fst acc) /\
              trajectories n (Z.to_nat ms) (snd acc))
           (seq 0 (length (KArmedTestbed.bandits e0))) train_run) in Hloop.
  - rewrite length_seq in Hloop. cbn [fst snd] in Hloop.
    destruct Hloop as (Hs1 & Hrt & Hot).
    assert (Hpos : (0 < length (KArmedTestbed.bandits e0))%nat).
    { rewrite <- He. apply (agent_wf_first_bandit _ Hwf). }
    destruct s as [self0 g0]. cbn [fst snd] in *.
    apply bind_returns in Hrun. destruct Hrun as (df1 & s2 & Hdf1 & Hrun).
    apply bind_returns in Hrun. destruct Hrun as (df2 & s3 & Hdf2 & Hrun).
    unfold lift_result in Hdf1, Hdf2.
    rewrite (pd_DataFrame_trajectories _ _ _ Hpos Hrt) in Hdf1.
    rewrite (pd_DataFrame_trajectories _ _ _ Hpos Hot) in Hdf2.
    injection Hdf1 as <- <-. injection Hdf2 as <- <-.
    injection Hrun as <- <- <-.
    split; [exact Hs1|]. exists rt, ot.
    split; [exact Hrt|]. split; [exact Hot|]. split; reflexivity.
  - intros i x [rt0 ot0] s0 acc1 s0' Hx (Hs0 & Hrt0 & Hot0) Hstep. cbn [fst snd] in *.
    apply lookup_seq in Hx. destruct Hx as [-> Hi]. cbn [Nat.add] in *.
    apply (train_run_returns i rt0 ot0 s0 s0' acc1 Hs0 Hrt0 Hot0 Hstep).
  - cbn [fst snd]. split; [exact Hs|].
    split; (split; [reflexivity|apply Forall_nil; exact I]).
Qed.
End TrainShape.
(** C7, amended.  Whenever [train()] returns, in any arithmetic, it returns
    two tables of [max_steps] rows and [num_runs] columns, whose columns are
    the runs of the testbed in order, each of [max_steps] entries.  In exact
    arithmetic it returns for every agent in a reachable state with a step
    budget [max_steps >= 0] and a reward noise [bandit_std >= 0]. *)
Theorem train_tables_shape :
  (forall (T : Type) (ST : Scalar T) (s s' : EpsilonGreedy.t T * RandomState T)
          (rewards_df : DataFrame T) (optimal_df : DataFrame bool),
     reachable s ->
     EpsilonGreedy.train s = (Ok (rewards_df, optimal_df), s') ->
     trajectory_table (fst s) rewards_df /\ trajectory_table (fst s) optimal_df)
  /\
  (forall s : EpsilonGreedy.t Q * RandomState Q,
     reachable s ->
     0 <= EpsilonGreedy.max_steps (fst s) ->
     (0 <= KArmedTestbed.bandit_std (EpsilonGreedy.env (fst s)))%Q ->
     exists (rewards_df : DataFrame Q) (optimal_df : DataFrame bool) s',
       EpsilonGreedy.train s = (Ok (rewards_df, optimal_df), s') /\
       trajectory_table (fst s) rewards_df /\ trajectory_table (fst s) optimal_df).
Proof.
  assert (Hshape : forall (T : Type) (ST : Scalar T)
            (s s' : EpsilonGreedy.t T * RandomState T)
            (rewards_df : DataFrame T) (optimal_df : DataFrame bool),
            reachable s ->
            EpsilonGreedy.train s = (Ok (rewards_df, optimal_df), s') ->
            trajectory_table (fst s) rewards_df /\ trajectory_table (fst s) optimal_df).
  { intros T ST s s' rewards_df optimal_df Hreach Hrun.
    pose proof (reachable_by_wf _ _ Hreach) as Hwf.
    destruct (train_returns (EpsilonGreedy.env (fst s)) (EpsilonGreedy.max_steps (fst s))
                s s' rewards_df optimal_df)
      as (_ & rt & ot & [Hrk Hrc] & [Hok Hoc] & -> & ->).
    { split; [exact Hwf|]. split; reflexivity. }
    { exact Hrun. }
    destruct (agent_wf_first_bandit _ Hwf) as (_ & _ & Hruns).
    pose proof Hwf as (Htb & _).
    assert (Hlen : forall (V : Type) (d : dict (list V)),
              map fst d = seq 0 (length (KArmedTestbed.bandits (EpsilonGreedy.env (fst s)))) ->
              length d = Z.to_nat (KArmedTestbed.num_runs (EpsilonGreedy.env (fst s)))).
    { intros V d Hd. rewrite <- (length_map fst d), Hd, length_seq. lia. }
    unfold trajectory_table, df_shape. cbn [df_columns df_rows].
    rewrite (Hlen _ rt Hrk), (Hlen _ ot Hok), (testbed_run_order _ Htb).
    split; (split; [reflexivity|split; assumption]). }
  split; [exact Hshape|].
  intros s Hreach Hms Hstd.
  pose proof (reachable_by_wf _ _ Hreach) as Hwf.
  destruct (train_succeeds (EpsilonGreedy.env (fst s)) (EpsilonGreedy.max_steps (fst s))
              Hstd Hms s)
    as ([rewards_df optimal_df] & s' & Hrun & _).
  { split; [exact Hwf|]. split; reflexivity. }
  exists rewards_df, optimal_df, s'. split; [exact Hrun|].
  apply (Hshape Q Q_scalar s s' rewards_df optimal_df Hreach Hrun).
Qed.

Lemma train_tables_shape_witness :
  (exists (rewards_df : DataFrame Q) (optimal_df : DataFrame bool) s',
     EpsilonGreedy.train (greedy_agent, demo_stream_after)
     = (Ok (rewards_df, optimal_df), s') /\
     (df_shape rewards_df = (4%nat, 3%nat) /\
      map fst (df_columns rewards_df) = [0%nat; 1%nat; 2%nat] /\
      Forall (fun col => length (snd col) = 4%nat) (df_columns rewards_df)) /\
     (df_shape optimal_df = (4%nat, 3%nat) /\
      map fst (df_columns optimal_df) = [0%nat; 1%nat; 2%nat] /\
      Forall (fun col => length (snd col) = 4%nat) (df_columns optimal_df)))
  /\
  (exists (rewards_df : DataFrame float) (optimal_df : DataFrame bool) s',
     EpsilonGreedy.train (binary64_agent, binary64_stream_after)
     = (Ok (rewards_df, optimal_df), s') /\
     df_shape rewards_df = (4%nat, 3%nat) /\ df_shape optimal_df = (4%nat, 3%nat)).
Proof.
  destruct train_tables_shape as [Hany Hexact].
  split.
  - apply (Hexact (greedy_agent, demo_stream_after)).
    + apply greedy_agent_reachable.
    + simpl. lia.
    + discriminate.
  - destruct (EpsilonGreedy.train (binary64_agent, binary64_stream_after))
      as [[[rewards_df optimal_df]|e] s'] eqn:Hrun.
    + exists rewards_df, optimal_df, s'. split; [reflexivity|].
      destruct (Hany float float_scalar (binary64_agent, binary64_stream_after) s'
                  rewards_df optimal_df (binary64_agent_reachable _) Hrun)
        as [(Hr & _) (Ho & _)].
      split; [exact Hr|exact Ho].
    + apply (f_equal fst) in Hrun. vm_compute in Hrun. discriminate.
Defined.

Lemma overflow_trainee_reachable :
  reachable (overflow_trainee, snd overflow_testbed).
Proof.
  apply (reachable_init _ 1 1 (-0x1p1023)%float 0%float 0%float 0 demo_stream
           overflow_env (snd overflow_testbed)
           0%float 3 0x1p1023%float false 0.5%float overflow_trainee); reflexivity.
Qed.

(** C7, counterexample.  In binary64, with one arm of true value
    [-2^1023], no noise and the initial value [2^1023], every reward is
    [-2^1023]: the first difference overflows to minus infinity, the second
    adds plus infinity to it, and the estimate is a nan.  At the third step
    [act()] raises [ValueError] and [train()] returns no table, with a step
    budget of 3 and a noise of 0. *)
Lemma train_overflow_binary64_counterexample :
  reachable (overflow_trainee, snd overflow_testbed) /\
  EpsilonGreedy.max_steps overflow_trainee = 3 /\
  KArmedTestbed.bandit_std (EpsilonGreedy.env overflow_trainee) = 0%float /\
  fst (EpsilonGreedy.train (overflow_trainee, snd overflow_testbed)) = Raise ValueError /\
  EpsilonGreedy.q_values (fst (snd (EpsilonGreedy.train (overflow_trainee, snd overflow_testbed))))
  = [nan] /\
  ~ (exists (rewards_df : DataFrame float) (optimal_df : DataFrame bool) s',
       EpsilonGreedy.train (overflow_trainee, snd overflow_testbed)
       = (Ok (rewards_df, optimal_df), s')).
Proof.
  split; [exact overflow_trainee_reachable|].
  split; [reflexivity|]. split; [reflexivity|].
  assert (H : fst (EpsilonGreedy.train (overflow_trainee, snd overflow_testbed))
              = Raise ValueError) by (vm_compute; reflexivity).
  split; [exact H|]. split; [vm_compute; reflexivity|].
  intros (rewards_df & optimal_df & s' & Hrun). apply (f_equal fst) in Hrun.
  rewrite H in Hrun. cbn [fst] in Hrun. discriminate Hrun.
Qed.

(** * Further properties of the agent *)

(** ** [reset] forgets the history *)

Section ResetForgets.
Context {T : Type} {ST : Scalar T}.
Import EpsilonGreedy.

Lemma same_config_refl (self : t T) : same_config self self.
Proof. repeat split. Qed.

Lemma same_config_trans (s1 s2 s3 : t T) :
  same_config s1 s2 -> same_config s2 s3 -> same_config s1 s3.
Proof.
  intros (A1 & A2 & A3 & A4 & A5 & A6 & A7) (B1 & B2 & B3 & B4 & B5 & B6 & B7).
  repeat split; congruence.
Qed.

Lemma same_config_simple_update (self : t T) (a : Z) (r : T) :
  same_config self (snd (simple_update a r self)).
Proof.
  pose proof (simple_update_changes self a r) as (_ & _ & H). exact H.
Qed.

Lemma same_config_weighted_update (self : t T) (a : Z) (r : T) :
  same_config self (snd (weighted_update a r self)).
Proof.
  pose proof (weighted_update_changes self a r) as (_ & _ & H). exact H.
Qed.

Lemma same_config_reset (self : t T) : same_config self (snd (reset self)).
Proof. exact (reset_state self). Qed.

Lemma reset_same_config (self self' : t T) :
  same_config self self' ->
  fst (reset self') = fst (reset self) /\
  (fst (reset self) = Ok tt -> snd (reset self') = snd (reset self)).
Proof.
  intros (He & Heps & Hms & Hn & Hw & Ha & Hi).
  rewrite !reset_unfold, Hi, Hn.
  destruct (_ || _); [|split; [reflexivity|discriminate]].
  destruct (_ <? _); [split; [reflexivity|discriminate]|].
  split; [reflexivity|]. intros _. cbn [snd].
  unfold set_action_counts, set_q_values. cbn.
  rewrite He, Heps, Hms, Hn, Hw, Ha, Hi. reflexivity.
Qed.
End ResetForgets.

Lemma reset_forgets_history_aux {T : Type} {ST : Scalar T} (self : EpsilonGreedy.t T) :
  (forall self', same_config self self' ->
     fst (EpsilonGreedy.reset self) = Ok tt ->
     EpsilonGreedy.reset self' = EpsilonGreedy.reset self)
  /\ True.
Proof.
  split; [|exact I]. intros self' Hsame Hok.
  destruct (reset_same_config self self' Hsame) as [Hfst Hsnd].
  specialize (Hsnd Hok).
  destruct (EpsilonGreedy.reset self') as [r1 s1], (EpsilonGreedy.reset self) as [r2 s2].
  cbn [fst snd] in *. congruence.
Qed.

(** X1.  If [reset()] returns, the state it leaves depends on the
    configuration only: two agents that differ in their arrays are equal
    after it, so a [reset] after any [simple_update] or [weighted_update]
    gives the state a [reset] before it gives, and a second [reset] changes
    nothing.  If it raises, it has assigned neither array. *)
Theorem reset_forgets_history {T : Type} {ST : Scalar T} (self : EpsilonGreedy.t T) :
  (forall self', same_config self self' ->
     fst (EpsilonGreedy.reset self) = Ok tt ->
     EpsilonGreedy.reset self' = EpsilonGreedy.reset self)
  /\
  (forall a r,
     fst (EpsilonGreedy.reset self) = Ok tt ->
     EpsilonGreedy.reset (snd (EpsilonGreedy.simple_update a r self))
       = EpsilonGreedy.reset self /\
     EpsilonGreedy.reset (snd (EpsilonGreedy.weighted_update a r self))
       = EpsilonGreedy.reset self /\
     EpsilonGreedy.reset (snd (EpsilonGreedy.reset self)) = EpsilonGreedy.reset self)
  /\
  (forall e, fst (EpsilonGreedy.reset self) = Raise e ->
     e = ValueError /\ snd (EpsilonGreedy.reset self) = self).
Proof.
  assert (Hmain : forall self', same_config self self' ->
     fst (EpsilonGreedy.reset self) = Ok tt ->
     EpsilonGreedy.reset self' = EpsilonGreedy.reset self).
  { intros self' Hsame Hok.
    destruct (reset_same_config self self' Hsame) as [Hfst Hsnd].
    specialize (Hsnd Hok).
    destruct (EpsilonGreedy.reset self') as [r1 s1], (EpsilonGreedy.reset self) as [r2 s2].
    cbn [fst snd] in *. congruence. }
  split; [exact Hmain|]. split.
  - intros a r Hok. repeat split; apply Hmain; try exact Hok.
    + apply same_config_simple_update.
    + apply same_config_weighted_update.
    + apply same_config_reset.
  - intros e He. destruct (EpsilonGreedy.reset self) as [r s] eqn:Hr.
    cbn [fst snd] in *. subst r. apply (reset_Raise _ _ _ Hr).
Qed.

Lemma reset_forgets_history_witness :
  EpsilonGreedy.reset (snd (EpsilonGreedy.simple_update 1 7%Q three_armed))
    = EpsilonGreedy.reset three_armed /\
  EpsilonGreedy.reset (snd (EpsilonGreedy.weighted_update 1 7%Q three_armed))
    = EpsilonGreedy.reset three_armed /\
  EpsilonGreedy.reset (snd (EpsilonGreedy.reset three_armed))
    = EpsilonGreedy.reset three_armed.
Proof.
  apply (proj1 (proj2 (reset_forgets_history three_armed))). reflexivity.
Defined.

(** ** Updates with an action outside the range *)

(** X2.  On arrays of [n] entries, [simple_update] and [weighted_update]
    raise [IndexError] and leave the agent untouched when [action >= n] or
    [action < -n]; an action of [-n, 0) is accepted and updates the entry
    [n + action], exactly as that action would. *)
Theorem update_index_error {T : Type} {ST : Scalar T}
    (self : EpsilonGreedy.t T) (a : Z) (r : T) (n : nat) :
  length (EpsilonGreedy.q_values self) = n ->
  length (EpsilonGreedy.action_counts self) = n ->
  (a < - Z.of_nat n \/ Z.of_nat n <= a ->
   EpsilonGreedy.simple_update a r self = (Raise IndexError, self) /\
   EpsilonGreedy.weighted_update a r self = (Raise IndexError, self))
  /\
  (- Z.of_nat n <= a < 0 ->
   EpsilonGreedy.simple_update a r self
     = EpsilonGreedy.simple_update (a + Z.of_nat n) r self /\
   EpsilonGreedy.weighted_update a r self
     = EpsilonGreedy.weighted_update (a + Z.of_nat n) r self).
Proof.
  intros Hq Hc. subst n. split.
  - intros Ha. split.
    + apply simple_update_invalid. rewrite Hc. apply np_index_outside. exact Ha.
    + apply weighted_update_invalid. apply np_index_outside. exact Ha.
  - intros Ha.
    set (n := length (EpsilonGreedy.q_values self)) in *.
    set (j := Z.to_nat (a + Z.of_nat n)).
    assert (Hj : np_index n a = Ok j) by (apply np_index_negative; exact Ha).
    assert (Hj' : np_index n (a + Z.of_nat n) = Ok j) by (apply np_index_nonneg; lia).
    destruct (lookup_lt_is_Some_2 (EpsilonGreedy.q_values self) j) as [q Hv];
      [subst j n; lia|].
    destruct (lookup_lt_is_Some_2 (EpsilonGreedy.action_counts self) j) as [c Hn];
      [subst j; lia|].
    pose proof Hj as Hjc. pose proof Hj' as Hjc'.
    rewrite <- Hc in Hjc at 1. rewrite <- Hc in Hjc' at 1.
    split.
    + rewrite (simple_update_at self a r j c q Hjc Hj Hn Hv).
      rewrite (simple_update_at self _ r j c q Hjc' Hj' Hn Hv). reflexivity.
    + rewrite (weighted_update_at self a r j q Hj Hv).
      rewrite (weighted_update_at self _ r j q Hj' Hv). reflexivity.
Qed.

Lemma update_index_error_witness :
  (EpsilonGreedy.simple_update 3 5%Q three_armed = (Raise IndexError, three_armed) /\
   EpsilonGreedy.weighted_update 3 5%Q three_armed = (Raise IndexError, three_armed))
  /\
  (EpsilonGreedy.simple_update (-1) 5%Q three_armed
     = EpsilonGreedy.simple_update (-1 + 3) 5%Q three_armed /\
   EpsilonGreedy.weighted_update (-1) 5%Q three_armed
     = EpsilonGreedy.weighted_update (-1 + 3) 5%Q three_armed).
Proof.
  split.
  - apply (proj1 (update_index_error three_armed 3 5%Q 3 eq_refl eq_refl)). right. simpl. lia.
  - apply (proj2 (update_index_error three_armed (-1) 5%Q 3 eq_refl eq_refl)). simpl. lia.
Defined.

(** ** Sample averages of interleaved actions *)

Section Interleaved.
Import EpsilonGreedy.

Lemma Qsum_app (l1 l2 : list Q) : (Qsum (l1 ++ l2) == Qsum l1 + Qsum l2)%Q.
Proof.
  induction l1 as [|x l1 IH]; cbn [app Qsum fold_right].
  - unfold Qsum. cbn. ring.
  - fold (Qsum (l1 ++ l2)). fold (Qsum l1). rewrite IH. ring.
Qed.

Lemma rewards_of_snoc (j a : Z) (r : Q) (h : list (Z * Q)) :
  rewards_of j (h ++ [(a, r)]) = rewards_of j h ++ (if decide (a = j) then [r] else []).
Proof.
  unfold rewards_of. rewrite filter_app, map_app. f_equal.
  rewrite filter_cons, filter_nil. cbn [fst].
  destruct (decide (a = j)); reflexivity.
Qed.

Lemma rewards_of_length (j : Z) (h : list (Z * Q)) :
  (length (rewards_of j h) <= length h)%nat.
Proof. unfold rewards_of. rewrite length_map. apply length_filter. Qed.

Lemma tracks_history_step (h : list (Z * Q)) (self : t Q) (a : Z) (r : Q) :
  tracks_history h self ->
  0 <= a < num_actions self ->
  Z.of_nat (length h) < int64_max ->
  exists self',
    simple_update a r self = (Ok tt, self') /\
    same_config self self' /\
    tracks_history (h ++ [(a, r)]) self'.
Proof.
  intros [[Hlq Hlc] Htrack] Ha Hlen.
  set (j := Z.to_nat a).
  assert (Hja : Z.of_nat j = a) by (subst j; lia).
  destruct (Htrack j) as (Hc & v & Hv & Hsum & Hinit); [lia|].
  rewrite Hja in Hc, Hsum, Hinit.
  assert (Hic : np_index (length (action_counts self)) a = Ok j)
    by (apply np_index_nonneg; lia).
  assert (Hiq : np_index (length (q_values self)) a = Ok j)
    by (apply np_index_nonneg; lia).
  pose proof (rewards_of_length a h) as Hle.
  set (c := Z.of_nat (length (rewards_of a h))) in *.
  eexists. split; [apply (simple_update_at self a r j c v Hic Hiq Hc Hv)|].
  rewrite wrap_int64_small by (unfold int64_min, int64_max in *; lia).
  split; [repeat split|].
  split; [unfold lengths_ok; cbn; rewrite !length_insert; split; assumption|].
  cbn [num_actions set_q_values set_action_counts action_counts q_values initialisation].
  intros j' Hj'. rewrite rewards_of_snoc.
  destruct (Nat.eq_dec j' j) as [->|Hne].
  - rewrite Hja. destruct (decide (a = a)) as [_|]; [|congruence].
    rewrite length_app. cbn [length]. rewrite Nat.add_1_r, Nat2Z.inj_succ.
    rewrite !list_lookup_insert_eq by lia.
    split; [f_equal; subst c; lia|].
    eexists. split; [reflexivity|]. split.
    + rewrite Qsum_app. unfold Z.succ. fold c. rewrite Q_sample_step by (subst c; lia).
      rewrite Hsum. unfold Qsum at 3. cbn [fold_right]. ring.
    + intros Hnil. destruct (rewards_of a h); discriminate.
  - destruct (decide (a = Z.of_nat j')) as [Heq|_]; [lia|].
    rewrite app_nil_r, !list_lookup_insert_ne by congruence.
    apply Htrack. exact Hj'.
Qed.

Lemma simple_update_all_run (h : list (Z * Q)) :
  forall (h0 : list (Z * Q)) (self : t Q),
    tracks_history h0 self ->
    Forall (fun p => 0 <= fst p < num_actions self) h ->
    Z.of_nat (length h0 + length h) <= int64_max ->
    exists self',
      simple_update_all h self = (Ok tt, self') /\
      same_config self self' /\
      tracks_history (h0 ++ h) self'.
Proof.
  induction h as [|[a r] h IH]; intros h0 self Htrack Hvalid Hlen.
  - exists self. rewrite app_nil_r. split; [reflexivity|].
    split; [apply same_config_refl|exact Htrack].
  - apply Forall_cons in Hvalid. destruct Hvalid as [Ha Hvalid]. cbn [fst] in Ha.
    cbn [length] in Hlen.
    destruct (tracks_history_step h0 self a r Htrack Ha) as (self1 & Hrun & Hsame & Htrack1);
      [lia|].
    destruct (IH (h0 ++ [(a, r)]) self1 Htrack1) as (self' & Hrun' & Hsame' & Htrack').
    + destruct Hsame as (_ & _ & _ & -> & _). exact Hvalid.
    + rewrite length_app. cbn [length]. lia.
    + exists self'. split; [|split].
      * unfold simple_update_all. cbn [for_loop fst snd].
        rewrite (bind_Ok _ _ _ _ _ Hrun). exact Hrun'.
      * eapply same_config_trans; eassumption.
      * rewrite <- app_assoc in Htrack'. exact Htrack'.
Qed.
End Interleaved.

(** X3.  From a freshly reset agent, after any sequence of
    [simple_update(a, r)] calls with valid actions, interleaved in any
    order, each action's count is the number of rewards it received, its
    estimate is the arithmetic mean of exactly those rewards, and an action
    that received none still has the initial value (fewer than [2^63]
    updates, exact arithmetic). *)
Theorem interleaved_sample_means
    (self0 self : EpsilonGreedy.t Q) (h : list (Z * Q)) :
  EpsilonGreedy.reset self0 = (Ok tt, self) ->
  Forall (fun p => 0 <= fst p < EpsilonGreedy.num_actions self) h ->
  Z.of_nat (length h) <= int64_max ->
  exists self',
    simple_update_all h self = (Ok tt, self') /\
    forall a : Z,
      0 <= a < EpsilonGreedy.num_actions self ->
      getitem (EpsilonGreedy.action_counts self') a
        = Ok (Z.of_nat (length (rewards_of a h))) /\
      exists v,
        getitem (EpsilonGreedy.q_values self') a = Ok v /\
        (rewards_of a h = [] -> (v == EpsilonGreedy.initialisation self)%Q) /\
        (rewards_of a h <> [] -> (v == mean (rewards_of a h))%Q).
Proof.
  intros Hreset Hvalid Hlen.
  pose proof (sample_average_inv_reset _ _ _ Hreset) as [Hl Hinv].
  assert (Htrack : tracks_history [] self).
  { split; [exact Hl|]. intros j Hj.
    change (rewards_of (Z.of_nat j) []) with (@nil Q).
    cbn [length Z.of_nat]. unfold Qsum. cbn [fold_right]. change (inject_Z 0) with 0%Q.
    destruct (reset_Ok _ _ _ Hreset) as (_ & _ & Hc & _).
    pose proof (reset_state self0) as Hst. rewrite Hreset in Hst. cbn [snd] in Hst.
    destruct Hst as (_ & _ & _ & Hnum & _).
    assert (Hcj : EpsilonGreedy.action_counts self !! j = Some 0).
    { rewrite Hc. apply lookup_replicate_2. lia. }
    split; [exact Hcj|].
    destruct (Hinv j 0 Hcj) as [_ Hz]. destruct (Hz eq_refl) as (v & Hv & Heq).
    exists v. split; [exact Hv|]. split; [ring|]. intros _. exact Heq. }
  destruct (simple_update_all_run h [] self Htrack Hvalid) as (self' & Hrun & Hsame & Htrack');
    [cbn [length]; lia|].
  cbn [app] in Htrack'.
  exists self'. split; [exact Hrun|]. intros a Ha.
  destruct Htrack' as [[Hlq Hlc] Htrack'].
  destruct Hsame as (_ & _ & _ & Hnum & _ & _ & Hinit).
  destruct (Htrack' (Z.to_nat a)) as (Hc & v & Hv & Hsum & Hnone); [lia|].
  rewrite Z2Nat.id in Hc, Hsum, Hnone by lia.
  split.
  - eapply getitem_lookup; [apply np_index_nonneg; lia|exact Hc].
  - exists v. split; [eapply getitem_lookup; [apply np_index_nonneg; lia|exact Hv]|].
    split.
    + intros Hnil. rewrite <- Hinit. apply Hnone. exact Hnil.
    + intros Hne. unfold mean. fold (Qsum (rewards_of a h)).
      assert (Hnz : ~ (inject_Z (Z.of_nat (length (rewards_of a h))) == 0)%Q).
      { change 0%Q with (inject_Z 0). rewrite inject_Z_injective.
        destruct (rewards_of a h); [congruence|cbn [length]; lia]. }
      apply (Qmult_inj_r _ _ _ Hnz). rewrite Hsum. field. exact Hnz.
Qed.

Lemma interleaved_sample_means_witness :
  exists self',
    simple_update_all demo_history scenario_fresh = (Ok tt, self') /\
    forall a : Z,
      0 <= a < 2 ->
      getitem (EpsilonGreedy.action_counts self') a
        = Ok (Z.of_nat (length (rewards_of a demo_history))) /\
      exists v,
        getitem (EpsilonGreedy.q_values self') a = Ok v /\
        (rewards_of a demo_history = [] -> (v == 0)%Q) /\
        (rewards_of a demo_history <> [] ->
         (v == mean (rewards_of a demo_history))%Q).
Proof.
  apply (interleaved_sample_means scenario_used scenario_fresh).
  - reflexivity.
  - repeat constructor; simpl; lia.
  - vm_compute. discriminate.
Defined.

(** ** The constant step size as a recency-weighted average *)

Section RecencyWeighted.
Import EpsilonGreedy.

Lemma weighted_updates_run (a : Z) (j : nat) (rs : list Q) :
  forall (self : t Q) (q0 : Q),
    np_index (length (q_values self)) a = Ok j ->
    q_values self !! j = Some q0 ->
    exists self' v,
      weighted_updates a rs self = (Ok tt, self') /\
      q_values self' !! j = Some v /\
      (v == Qpow (1 - alpha self) (length rs) * q0
            + recency_weighted_sum (alpha self) rs)%Q /\
      length (q_values self') = length (q_values self) /\
      action_counts self' = action_counts self.
Proof.
  induction rs as [|r rs IH]; intros self q0 Hj Hq.
  - exists self, q0. cbn [length Qpow recency_weighted_sum].
    repeat split; try assumption. ring.
  - unfold weighted_updates. cbn [for_loop].
    rewrite (bind_Ok _ _ _ _ _ (weighted_update_at self a r j q0 Hj Hq)).
    set (self1 := set_q_values _ _).
    assert (Hlt : (j < length (q_values self))%nat) by (eapply lookup_lt_Some; exact Hq).
    destruct (IH self1 (s_add q0 (s_mul (alpha self) (s_sub r q0))))
      as (self' & v & Hrun & Hv & Hval & Hlen & Hcounts).
    + subst self1. cbn. rewrite length_insert. exact Hj.
    + subst self1. cbn. apply list_lookup_insert_eq. exact Hlt.
    + exists self', v. split; [exact Hrun|]. split; [exact Hv|].
      split; [|split].
      * rewrite Hval. subst self1. cbn [alpha set_q_values length Qpow recency_weighted_sum].
        cbn [s_add s_mul s_sub Q_scalar]. ring.
      * rewrite Hlen. subst self1. cbn. apply length_insert.
      * rewrite Hcounts. reflexivity.
Qed.

Lemma recency_weights_total (alpha : Q) (n : nat) :
  (Qpow (1 - alpha) n + recency_weighted_sum alpha (replicate n 1) == 1)%Q.
Proof.
  induction n as [|n IH]; cbn [Qpow replicate recency_weighted_sum].
  - ring.
  - rewrite length_replicate.
    assert (H : (recency_weighted_sum alpha (replicate n 1) == 1 - Qpow (1 - alpha) n)%Q).
    { apply (Qplus_inj_l _ _ (Qpow (1 - alpha) n)). rewrite IH. ring. }
    rewrite H. ring.
Qed.
End RecencyWeighted.

(** X4.  [n] calls [weighted_update(a, r_i)] for one action turn its
    estimate [q0] into the exponential recency-weighted average
    [(1-alpha)^n q0 + sum_i alpha (1-alpha)^(n-i) r_i] (exact arithmetic),
    whose weights add up to 1; no count changes on the way. *)
Theorem weighted_update_recency_average
    (self : EpsilonGreedy.t Q) (a : Z) (q0 : Q) (rs : list Q) :
  0 <= a < Z.of_nat (length (EpsilonGreedy.q_values self)) ->
  getitem (EpsilonGreedy.q_values self) a = Ok q0 ->
  (exists self' v,
     weighted_updates a rs self = (Ok tt, self') /\
     getitem (EpsilonGreedy.q_values self') a = Ok v /\
     (v == Qpow (1 - EpsilonGreedy.alpha self) (length rs) * q0
           + recency_weighted_sum (EpsilonGreedy.alpha self) rs)%Q /\
     EpsilonGreedy.action_counts self' = EpsilonGreedy.action_counts self)
  /\
  (Qpow (1 - EpsilonGreedy.alpha self) (length rs)
   + recency_weighted_sum (EpsilonGreedy.alpha self) (replicate (length rs) 1) == 1)%Q.
Proof.
  intros Ha Hq0. split; [|apply recency_weights_total].
  pose proof (np_index_nonneg _ _ Ha) as Hj.
  destruct (getitem_Ok _ _ _ Hq0) as (j & Hj' & Hq).
  rewrite Hj in Hj'. injection Hj' as <-.
  destruct (weighted_updates_run a _ rs self q0 Hj Hq)
    as (self' & v & Hrun & Hv & Hval & Hlen & Hcounts).
  exists self', v. split; [exact Hrun|].
  split; [eapply getitem_lookup; [rewrite Hlen; exact Hj|exact Hv]|].
  split; assumption.
Qed.

Lemma weighted_update_recency_average_witness :
  (exists self' v,
     weighted_updates 2 [8%Q; 0%Q] three_armed = (Ok tt, self') /\
     getitem (EpsilonGreedy.q_values self') 2 = Ok v /\
     (v == Qpow (1 - (1 # 4)) 2 * 4 + recency_weighted_sum (1 # 4) [8%Q; 0%Q])%Q /\
     EpsilonGreedy.action_counts self' = [1; 0; 3])
  /\
  (Qpow (1 - (1 # 4)) 2 + recency_weighted_sum (1 # 4) (replicate 2 1) == 1)%Q.
Proof.
  apply (weighted_update_recency_average three_armed 2 4%Q [8%Q; 0%Q]).
  - simpl. lia.
  - reflexivity.
Defined.

(** ** Estimates stay between the values they average *)

Lemma Q_sum_nonneg (x y : Q) : (0 <= x)%Q -> (0 <= y)%Q -> (0 <= x + y)%Q.
Proof.
  intros Hx Hy. apply (Qle_trans _ (0 + 0)); [discriminate|].
  apply Qplus_le_compat; assumption.
Qed.

Lemma Q_convex (lo hi q r t : Q) :
  (lo <= q <= hi)%Q -> (lo <= r <= hi)%Q -> (0 <= t <= 1)%Q ->
  (lo <= q + t * (r - q) <= hi)%Q.
Proof.
  intros [Hq1 Hq2] [Hr1 Hr2] [Ht1 Ht2].
  assert (Hdiff : forall x y : Q, (x <= y)%Q -> (0 <= y - x)%Q).
  { intros x y Hxy. unfold Qminus. rewrite <- Qle_minus_iff. exact Hxy. }
  assert (H1 : (0 <= (1 - t) * (q - lo) + t * (r - lo))%Q).
  { apply Q_sum_nonneg; apply Qmult_le_0_compat; auto. }
  assert (H2 : (0 <= (1 - t) * (hi - q) + t * (hi - r))%Q).
  { apply Q_sum_nonneg; apply Qmult_le_0_compat; auto. }
  split; apply Qle_minus_iff.
  - assert (E : (q + t * (r - q) + - lo == (1 - t) * (q - lo) + t * (r - lo))%Q) by ring.
    rewrite E. exact H1.
  - assert (E : (hi + - (q + t * (r - q)) == (1 - t) * (hi - q) + t * (hi - r))%Q) by ring.
    rewrite E. exact H2.
Qed.

Lemma np_index_Raise (n : nat) (i : Z) (e : exn) :
  np_index n i = Raise e -> e = IndexError.
Proof.
  unfold np_index. destruct (_ && _); [discriminate|].
  destruct (_ && _); [discriminate|]. congruence.
Qed.

Lemma Forall_insert_in_range (lo hi v : Q) (j : nat) (l : list Q) :
  Forall (fun x => (lo <= x <= hi)%Q) l -> (lo <= v <= hi)%Q ->
  Forall (fun x => (lo <= x <= hi)%Q) (<[j:=v]> l).
Proof.
  intros Hl Hv. apply Forall_forall. intros x Hx.
  apply list_elem_of_lookup in Hx. destruct Hx as [i Hi].
  destruct (Nat.eq_dec i j) as [->|Hne].
  - assert (Hlt : (j < length l)%nat).
    { apply lookup_lt_Some in Hi. rewrite length_insert in Hi. exact Hi. }
    rewrite list_lookup_insert_eq in Hi by exact Hlt. injection Hi as <-. exact Hv.
  - rewrite list_lookup_insert_ne in Hi by congruence.
    apply (proj1 (Forall_forall _ _) Hl). apply list_elem_of_lookup. exists i. exact Hi.
Qed.

(** X5.  If every estimate and the reward lie in [[lo, hi]], every estimate
    lies in [[lo, hi]] after the update: after [weighted_update] when
    [0 <= alpha <= 1], after [simple_update] when the counts are
    non-negative and below the 64-bit maximum.  Whatever the action, valid
    or not. *)
Theorem estimates_stay_in_range
    (self : EpsilonGreedy.t Q) (a : Z) (r lo hi : Q) :
  Forall (fun v => (lo <= v <= hi)%Q) (EpsilonGreedy.q_values self) ->
  (lo <= r <= hi)%Q ->
  ((0 <= EpsilonGreedy.alpha self <= 1)%Q ->
   Forall (fun v => (lo <= v <= hi)%Q)
          (EpsilonGreedy.q_values (snd (EpsilonGreedy.weighted_update a r self))))
  /\
  (length (EpsilonGreedy.q_values self) = length (EpsilonGreedy.action_counts self) ->
   Forall (fun c => 0 <= c < int64_max) (EpsilonGreedy.action_counts self) ->
   Forall (fun v => (lo <= v <= hi)%Q)
          (EpsilonGreedy.q_values (snd (EpsilonGreedy.simple_update a r self)))).
Proof.
  intros Hq Hr. split.
  - intros Halpha.
    destruct (np_index (length (EpsilonGreedy.q_values self)) a) as [j|e] eqn:Hj.
    + destruct (getitem_index_Ok _ _ _ Hj) as (q & Hv & _).
      rewrite (weighted_update_at self a r j q Hj Hv). cbn.
      apply Forall_insert_in_range; [exact Hq|].
      apply Q_convex; try assumption.
      apply (proj1 (Forall_forall _ _) Hq). apply list_elem_of_lookup. exists j. exact Hv.
    + rewrite (np_index_Raise _ _ _ Hj) in Hj.
      rewrite (weighted_update_invalid _ _ _ Hj). exact Hq.
  - intros Hlen Hcounts.
    destruct (np_index (length (EpsilonGreedy.q_values self)) a) as [j|e] eqn:Hj.
    + pose proof Hj as Hjc. rewrite Hlen in Hjc.
      destruct (getitem_index_Ok _ _ _ Hj) as (q & Hv & _).
      destruct (getitem_index_Ok _ _ _ Hjc) as (c & Hc & _).
      rewrite (simple_update_at self a r j c q Hjc Hj Hc Hv). cbn.
      assert (Hcr : 0 <= c < int64_max).
      { apply (proj1 (Forall_forall _ _) Hcounts). apply list_elem_of_lookup.
        exists j. exact Hc. }
      rewrite wrap_int64_small by (unfold int64_min, int64_max in *; lia).
      apply Forall_insert_in_range; [exact Hq|].
      apply Q_convex; try assumption.
      * apply (proj1 (Forall_forall _ _) Hq). apply list_elem_of_lookup. exists j. exact Hv.
      * cbn [s_div s_of_Z Q_scalar].
        assert (Hpos : (0 < inject_Z (c + 1))%Q).
        { change 0%Q with (inject_Z 0). rewrite <- Zlt_Qlt. lia. }
        split.
        -- apply Qle_shift_div_l; [exact Hpos|]. rewrite Qmult_0_l. discriminate.
        -- apply Qle_shift_div_r; [exact Hpos|]. rewrite Qmult_1_l.
           change (inject_Z 1 <= inject_Z (c + 1))%Q. rewrite <- Zle_Qle. lia.
    + rewrite (np_index_Raise _ _ _ Hj) in Hj. rewrite Hlen in Hj.
      rewrite (simple_update_invalid _ _ _ Hj). exact Hq.
Qed.

Lemma estimates_stay_in_range_witness :
  Forall (fun v => (1 <= v <= 4)%Q)
         (EpsilonGreedy.q_values (snd (EpsilonGreedy.weighted_update 0 3%Q three_armed)))
  /\
  Forall (fun v => (1 <= v <= 4)%Q)
         (EpsilonGreedy.q_values (snd (EpsilonGreedy.simple_update 1 (3 # 2)%Q three_armed))).
Proof.
  assert (Hq : Forall (fun v => (1 <= v <= 4)%Q) (EpsilonGreedy.q_values three_armed)).
  { repeat constructor; discriminate. }
  assert (Hr1 : (1 <= 3 <= 4)%Q) by (split; discriminate).
  assert (Hr2 : (1 <= 3 # 2 <= 4)%Q) by (split; discriminate).
  destruct (estimates_stay_in_range three_armed 0 3%Q 1%Q 4%Q Hq Hr1) as [Hw _].
  destruct (estimates_stay_in_range three_armed 1 (3 # 2)%Q 1%Q 4%Q Hq Hr2) as [_ Hs].
  split.
  - apply Hw. split; discriminate.
  - apply Hs.
    + reflexivity.
    + repeat constructor; unfold int64_max; lia.
Defined.

(** ** Exploration *)

(** X6.  With [epsilon >= 1] the agent always explores: [act()] returns the
    integer drawn by [np.random.randint(num_actions)], whatever the
    estimates are, and leaves the agent as it is. *)
Theorem act_always_explores (s : EpsilonGreedy.t Q * RandomState Q) :
  (1 <= EpsilonGreedy.epsilon (fst s))%Q ->
  1 <= EpsilonGreedy.num_actions (fst s) ->
  exists g',
    EpsilonGreedy.act s
    = (Ok (bits (generator (snd s) (seed (snd s)) (S (cursor (snd s))))
           mod EpsilonGreedy.num_actions (fst s)),
       (fst s, g')).
Proof.
  intros Heps Hn. destruct s as [self g]. cbn [fst snd] in *.
  unfold EpsilonGreedy.act. unfold bind at 1. rewrite on_fst_run. cbn [get fst snd].
  unfold bind at 1. rewrite on_snd_run. cbn [fst snd].
  destruct (random_run g) as (u & g1 & Hu & _ & Hu1).
  assert (Hg1 : g1 = {| generator := generator g; seed := seed g; cursor := S (cursor g) |}).
  { unfold np_random.random, bind, np_random.next_draw, ret in Hu.
    injection Hu as _ <-. reflexivity. }
  rewrite Hu. cbn [fst snd].
  assert (Hlt : s_ltb u (EpsilonGreedy.epsilon self) = true).
  { cbn [s_ltb Q_scalar]. apply Qlt_bool_iff. eapply Qlt_le_trans; eassumption. }
  rewrite Hlt, on_snd_run. cbn [fst snd].
  destruct (randint_run (EpsilonGreedy.num_actions self) g1 Hn) as (a & g2 & Hrun & _ & Ha).
  rewrite Hrun. cbn [fst snd]. exists g2. rewrite Ha, Hg1. reflexivity.
Qed.

Lemma act_always_explores_witness :
  exists g',
    EpsilonGreedy.act
      (EpsilonGreedy.mk (EpsilonGreedy.env three_armed) 1%Q 10 3 false (1 # 4)%Q 0%Q
         [1%Q; 2%Q; 4%Q] [1; 0; 3], demo_stream)
    = (Ok 1, (EpsilonGreedy.mk (EpsilonGreedy.env three_armed) 1%Q 10 3 false (1 # 4)%Q 0%Q
                [1%Q; 2%Q; 4%Q] [1; 0; 3], g')).
Proof.
  apply (act_always_explores
           (EpsilonGreedy.mk (EpsilonGreedy.env three_armed) 1%Q 10 3 false (1 # 4)%Q 0%Q
              [1%Q; 2%Q; 4%Q] [1; 0; 3], demo_stream)).
  - discriminate.
  - simpl. lia.
Defined.

(** ** Building the testbed *)

Section Construction.
Context {S X B : Type}.

End Construction.

Section TestbedConstruction.


End TestbedConstruction.



(** X8.  The constructor reseeds the stream before it draws: what it
    builds, and the stream it leaves, depend on the arguments and on the
    generator only, not on the seed or position of the stream before the
    call.  With a seed outside [0, 2^32) it raises [ValueError] and has not
    touched the stream. *)
Theorem testbed_construction_reproducible {T : Type} {ST : Scalar T}
    (num_runs k : Z) (k_mean k_std bandit_std : T) (sd : Z) (g1 g2 : RandomState T) :
  (generator g1 = generator g2 ->
   0 <= sd < 2 ^ 32 ->
   KArmedTestbed.init num_runs k k_mean k_std bandit_std sd g1
   = KArmedTestbed.init num_runs k k_mean k_std bandit_std sd g2)
  /\
  (sd < 0 \/ 2 ^ 32 <= sd ->
   KArmedTestbed.init num_runs k k_mean k_std bandit_std sd g1 = (Raise ValueError, g1)).
Proof.
  split.
  - intros Hgen Hsd. unfold KArmedTestbed.init. unfold bind at 1 3.
    rewrite !seed_unfold.
    destruct (Z.leb_spec 0 sd); [|lia]. destruct (Z.ltb_spec sd (2 ^ 32)); [|lia].
    cbn [andb]. rewrite Hgen. reflexivity.
  - intros Hsd. unfold KArmedTestbed.init. unfold bind at 1. rewrite seed_unfold.
    destruct (Z.leb_spec 0 sd), (Z.ltb_spec sd (2 ^ 32)); cbn [andb]; try reflexivity; lia.
Qed.

Lemma testbed_construction_reproducible_witness :
  KArmedTestbed.init 3 2 0%Q 1%Q 1%Q 7 demo_stream
  = KArmedTestbed.init 3 2 0%Q 1%Q 1%Q 7 demo_stream_after
  /\ KArmedTestbed.init 3 2 0%Q 1%Q 1%Q (-1) demo_stream = (Raise ValueError, demo_stream).
Proof.
  split.
  - apply (proj1 (testbed_construction_reproducible 3 2 0%Q 1%Q 1%Q 7
                    demo_stream demo_stream_after)); [reflexivity|lia].
  - apply (proj2 (testbed_construction_reproducible 3 2 0%Q 1%Q 1%Q (-1)
                    demo_stream demo_stream)). left. lia.
Defined.

(** X9.  A testbed built with [num_runs <= 0] has no bandit, and the
    agent's constructor, which reads [env.bandits[0]], raises [IndexError]
    on it, whatever the other arguments. *)
Theorem agent_on_empty_testbed {T : Type} {ST : Scalar T}
    (num_runs k : Z) (k_mean k_std bandit_std : T) (sd : Z) (g g' : RandomState T)
    (env : KArmedTestbed.t T)
    (epsilon : T) (max_steps : Z) (initialisation : T) (weighted : bool) (alpha : T) :
  num_runs <= 0 ->
  KArmedTestbed.init num_runs k k_mean k_std bandit_std sd g = (Ok env, g') ->
  KArmedTestbed.bandits env = [] /\
  EpsilonGreedy.init env epsilon max_steps initialisation weighted alpha = Raise IndexError.
Proof.
  intros Hn Hinit.
  destruct (KArmedTestbed_init_Ok _ _ _ _ _ _ _ _ _ Hinit) as ([Hlen _] & Hruns & _).
  assert (Hnil : KArmedTestbed.bandits env = []).
  { destruct (KArmedTestbed.bandits env); [reflexivity|]. cbn [length] in Hlen. lia. }
  split; [exact Hnil|]. rewrite init_unfold, Hnil. reflexivity.
Qed.

Lemma agent_on_empty_testbed_witness :
  KArmedTestbed.bandits (KArmedTestbed.mk 0 2 0%Q 1%Q 1%Q []) = [] /\
  EpsilonGreedy.init (KArmedTestbed.mk 0 2 0%Q 1%Q 1%Q []) (1 # 10)%Q 5 0%Q false (1 # 10)%Q
  = Raise IndexError.
Proof.
  apply (agent_on_empty_testbed 0 2 0%Q 1%Q 1%Q 0 demo_stream demo_stream).
  - lia.
  - reflexivity.
Defined.

(** ** The reward of a step *)

(** X10.  For an action of [0, K): with a negative noise level [step]
    raises [ValueError] and draws nothing; otherwise it returns the true
    value of the action plus the noise level times the deviate it draws, so
    a bandit without noise returns the true value itself. *)
Theorem step_reward (b : Bandit.t Q) (action : Z) (mu : Q) (g : RandomState Q) :
  0 <= action < Z.of_nat (length (Bandit.q_star b)) ->
  getitem (Bandit.q_star b) action = Ok mu ->
  ((Bandit.bandit_std b < 0)%Q ->
   Bandit.step action (b, g) = (Raise ValueError, (b, g)))
  /\
  ((0 <= Bandit.bandit_std b)%Q ->
   exists r g',
     Bandit.step action (b, g) = (Ok r, (b, g')) /\
     (r == mu + Bandit.bandit_std b * gauss (generator g (seed g) (cursor g)))%Q /\
     ((Bandit.bandit_std b == 0)%Q -> (r == mu)%Q)).
Proof.
  intros Ha Hmu. rewrite step_unfold, Hmu, normal_unfold, Q_negative_scale.
  split.
  - intros Hneg. rewrite (proj2 (Qlt_bool_iff _ _) Hneg). reflexivity.
  - intros Hpos. rewrite (proj2 (Qlt_bool_false _ _) Hpos). cbn [fst snd].
    eexists. eexists. split; [reflexivity|]. cbn [s_add s_mul Q_scalar].
    split; [reflexivity|]. intros Hz. rewrite Hz. ring.
Qed.

Lemma step_reward_witness :
  (exists r g',
     Bandit.step 1 (scenario_bandit, demo_stream) = (Ok r, (scenario_bandit, g')) /\
     (r == 1 + 1 * gauss (generator demo_stream (seed demo_stream) (cursor demo_stream)))%Q /\
     ((1 == 0)%Q -> (r == 1)%Q))
  /\ Bandit.step 0 (Bandit.mk 0 2 (-1)%Q [0%Q; 1%Q] 1, demo_stream)
     = (Raise ValueError, (Bandit.mk 0 2 (-1)%Q [0%Q; 1%Q] 1, demo_stream)).
Proof.
  split.
  - apply (proj2 (step_reward scenario_bandit 1 1%Q demo_stream
                    ltac:(simpl; lia) eq_refl)). discriminate.
  - apply (proj1 (step_reward (Bandit.mk 0 2 (-1)%Q [0%Q; 1%Q] 1) 0 0%Q demo_stream
                    ltac:(simpl; lia) eq_refl)). reflexivity.
Defined.

(** * Further properties of training *)

Section TrainDetail.
Import EpsilonGreedy.
Variable e0 : KArmedTestbed.t Q.
Variable ms : Z.
Hypothesis noise_ok : (0 <= KArmedTestbed.bandit_std e0)%Q.
Hypothesis budget_ok : 0 <= ms.

(** One step of training, in full: the action is valid, the reward is
    written at the step's index, and the agent is what the update rule
    makes of it. *)
Lemma train_step_detail (nb i : nat) (rewards : list Q) (optimal_action : list bool)
    (s : t Q * RandomState Q) :
  trainable e0 ms s ->
  (nb < length (KArmedTestbed.bandits e0))%nat ->
  (i < length rewards)%nat -> (i < length optimal_action)%nat ->
  exists a r g' optimal_action',
    0 <= a < KArmedTestbed.k e0 /\
    train_step nb (Z.of_nat i) (rewards, optimal_action) s
    = (Ok (<[i:=r]> rewards, optimal_action'),
       (snd (update_rule (fst s) a r (fst s)), g')) /\
    length optimal_action' = length optimal_action /\
    trainable e0 ms (snd (update_rule (fst s) a r (fst s)), g').
Proof.
  intros Htr Hnb Hi Hi'. unfold train_step.
  pose proof Htr as (Hwf & He & _).
  destruct (agent_wf_first_bandit _ Hwf) as (Hn & _).
  pose proof Hwf as (_ & _ & Hk & _ & Hl).
  destruct (act_run s Hn (proj1 Hl)) as (a & g1 & Hact & Ha).
  rewrite (bind_Ok _ _ _ _ _ Hact).
  assert (Ha' : 0 <= a < KArmedTestbed.k e0) by (rewrite <- He, <- Hk; exact Ha).
  assert (Htr1 : trainable e0 ms (fst s, g1)) by exact Htr.
  destruct (bandit_step_succeeds e0 ms noise_ok nb a Hnb Ha' (fst s, g1) Htr1)
    as (reward & s2 & Hstep & Htr2).
  pose proof (call_bandit_step_keeps nb a (fst s, g1)) as Hkeep.
  rewrite Hstep in Hkeep. cbn [fst snd] in Hkeep. destruct s2 as [self2 g2].
  cbn [fst] in Hkeep. subst self2.
  rewrite (bind_Ok _ _ _ _ _ Hstep).
  rewrite (bind_Ok _ _ (fst s, g2) (fst s, g2) (fst s)) by reflexivity.
  assert (Hupd : (if use_weighted_average (fst s)
                  then on_fst (weighted_update a reward)
                  else on_fst (simple_update a reward)) (fst s, g2)
                 = (Ok tt, (snd (update_rule (fst s) a reward (fst s)), g2))).
  { unfold update_rule. destruct (use_weighted_average (fst s)); rewrite on_fst_run; cbn [fst snd].
    - rewrite (weighted_update_returns (fst s) a reward Hl Ha). reflexivity.
    - rewrite (simple_update_returns (fst s) a reward Hl Ha). reflexivity. }
  rewrite (bind_Ok _ _ _ _ _ Hupd).
  set (s3 := (snd (update_rule (fst s) a reward (fst s)), g2)).
  assert (Htr3 : trainable e0 ms s3).
  { destruct (update_succeeds e0 ms a reward (use_weighted_average (fst s)) Ha' (fst s, g2) Htr2)
      as (u & s3' & Hupd' & Htr3).
    cbn [fst] in Hupd'. rewrite Hupd in Hupd'. injection Hupd' as _ <-. exact Htr3. }
  assert (Hidx : forall (A : Type) (l : list A), (i < length l)%nat ->
                 np_index (length l) (Z.of_nat i) = Ok i).
  { intros A l Hlt. rewrite np_index_nonneg by lia. rewrite Nat2Z.id. reflexivity. }
  rewrite (bind_Ok _ _ s3 s3 (<[i:=reward]> rewards))
    by (unfold lift_result; rewrite (setitem_index _ _ i) by (apply Hidx; exact Hi);
        reflexivity).
  destruct (bandit_get_succeeds e0 ms nb Hnb s3 Htr3) as (b & s4 & Hget & _ & _).
  assert (Hs4 : s4 = s3).
  { rewrite call_bandit_get in Hget. destruct (_ !! nb); congruence. }
  subst s4. rewrite (bind_Ok _ _ _ _ _ Hget).
  exists a, reward, g2.
  destruct (a =? Bandit.best_action b).
  - rewrite (bind_Ok _ _ s3 s3 (<[i:=true]> optimal_action))
      by (unfold lift_result; rewrite (setitem_index _ _ i) by (apply Hidx; exact Hi');
          reflexivity).
    eexists. split; [exact Ha'|]. split; [reflexivity|].
    split; [apply length_insert|exact Htr3].
  - rewrite (bind_Ok _ _ s3 s3 optimal_action) by reflexivity.
    eexists. split; [exact Ha'|]. split; [reflexivity|].
    split; [reflexivity|exact Htr3].
Qed.

(** A property [J i rewards self] of the step count, the rewards written
    and the agent, which [reset] establishes and every step keeps, holds
    of every run's column and of the agent after training. *)
Variable P0 : t Q -> Prop.
Variable J : nat -> list Q -> t Q -> Prop.
Hypothesis J_reset :
  forall self self1, agent_wf self -> P0 self -> reset self = (Ok tt, self1) ->
    J O (replicate (Z.to_nat ms) 0%Q) self1.
Hypothesis J_step :
  forall i rewards self a r,
    (i < Z.to_nat ms)%nat -> length rewards = Z.to_nat ms ->
    agent_wf self -> env self = e0 ->
    J i rewards self -> 0 <= a < KArmedTestbed.k e0 ->
    J (S i) (<[i:=r]> rewards) (snd (update_rule self a r self)).
Hypothesis J_P0 : forall rewards self, J (Z.to_nat ms) rewards self -> P0 self.

Lemma train_run_detail (nb : nat) (rewards_testbed : dict (list Q))
    (optimal_action_testbed : dict (list bool)) (s : t Q * RandomState Q) :
  (nb < length (KArmedTestbed.bandits e0))%nat ->
  trainable e0 ms s -> P0 (fst s) ->
  exists rewards optimal_action s',
    train_run nb (rewards_testbed, optimal_action_testbed) s
    = (Ok (dict_set rewards_testbed nb rewards,
           dict_set optimal_action_testbed nb optimal_action), s') /\
    trainable e0 ms s' /\
    length rewards = Z.to_nat ms /\ length optimal_action = Z.to_nat ms /\
    J (Z.to_nat ms) rewards (fst s').
Proof.
  intros Hnb Htr HP. unfold train_run.
  destruct (reset_succeeds e0 ms s Htr) as ([] & s1 & Hreset & Htr1).
  rewrite (bind_Ok _ _ _ _ _ Hreset).
  assert (HJ0 : J O (replicate (Z.to_nat ms) 0%Q) (fst s1)).
  { rewrite on_fst_run in Hreset. injection Hreset as Hok <-. cbn [fst].
    apply (J_reset (fst s)); [apply Htr|exact HP|].
    destruct (reset (fst s)) as [r0 s0]. cbn [fst snd] in *. congruence. }
  rewrite (bind_Ok _ _ s1 s1 (fst s1)) by (rewrite on_fst_run; destruct s1; reflexivity).
  pose proof Htr1 as (_ & _ & Hms).
  rewrite (bind_Ok _ _ s1 s1 (replicate (Z.to_nat ms) (s_of_Z 0)))
    by (unfold lift_result; rewrite Hms, np_full_Ok by exact budget_ok; reflexivity).
  rewrite Hms.
  destruct (succeeds_for_loop
    (fun (n : nat) (acc : list Q * list bool) s' =>
       trainable e0 ms s' /\ length (fst acc) = Z.to_nat ms /\
       length (snd acc) = Z.to_nat ms /\ J n (fst acc) (fst s'))
    (range ms) (train_step nb)) with
    (acc := (replicate (Z.to_nat ms) (s_of_Z (T:=Q) 0), replicate (Z.to_nat ms) false))
    (s := s1)
    as ([rewards optimal_action] & s2 & Hloop & Htr2 & Hlr & Hlo & HJ).
  { intros i x [rw op] Hx s' (Htr' & Hrw & Hop & HJ'). cbn [fst snd] in *.
    apply range_lookup in Hx. destruct Hx as [-> Hi].
    destruct (train_step_detail nb i rw op s' Htr' Hnb) as (a & r & g' & op' & Ha & Hrun & Hlen & Htr'');
      try lia.
    eexists. eexists. split; [exact Hrun|]. cbn [fst snd].
    split; [exact Htr''|]. split; [rewrite length_insert; exact Hrw|].
    split; [congruence|].
    apply J_step; try assumption; apply Htr'. }
  { cbn [fst snd]. rewrite !length_replicate. split; [exact Htr1|].
    split; [reflexivity|]. split; [reflexivity|exact HJ0]. }
  rewrite (bind_Ok _ _ _ _ _ Hloop). cbn [fst snd] in *.
  rewrite range_length in HJ.
  destruct (bandit_get_succeeds e0 ms nb Hnb s2 Htr2) as (b & s3 & Hget & _ & Hoid).
  assert (Hs3 : s3 = s2).
  { rewrite call_bandit_get in Hget. destruct (_ !! nb); congruence. }
  subst s3. rewrite (bind_Ok _ _ _ _ _ Hget). rewrite Hoid.
  exists rewards, optimal_action, s2. split; [reflexivity|].
  split; [exact Htr2|]. split; [exact Hlr|]. split; [exact Hlo|exact HJ].
Qed.

Lemma train_detail (s : t Q * RandomState Q) :
  trainable e0 ms s -> P0 (fst s) ->
  exists (rewards_df : DataFrame Q) (optimal_df : DataFrame bool) s' rewards,
    train s = (Ok (rewards_df, optimal_df), s') /\
    trainable e0 ms s' /\
    last (df_columns rewards_df)
      = Some (pred (length (KArmedTestbed.bandits e0)), rewards) /\
    length rewards = Z.to_nat ms /\
    J (Z.to_nat ms) rewards (fst s').
Proof.
  intros Htr HP. pose proof Htr as (Hwf & He & _). unfold train.
  rewrite (bind_Ok _ _ s s (fst s)) by (rewrite on_fst_run; destruct s; reflexivity).
  rewrite He.
  destruct (succeeds_for_loop
    (fun (n : nat) (acc : dict (list Q) * dict (list bool)) s' =>
       trainable e0 ms s' /\ P0 (fst s') /\
       trajectories n (Z.to_nat ms) (fst acc) /\
       trajectories n (Z.to_nat ms) (snd acc) /\
       ((0 < n)%nat -> exists rewards,
          last (fst acc) = Some (pred n, rewards) /\ length rewards = Z.to_nat ms /\
          J (Z.to_nat ms) rewards (fst s')))
    (seq 0 (length (KArmedTestbed.bandits e0))) train_run) with
    (acc := (@nil (nat * list Q), @nil (nat * list bool))) (s := s)
    as ([rewards_testbed optimal_action_testbed] & s1 & Hloop & Htr1 & _ & Hrt & Hot & Hlast).
  { intros i x [rt ot] Hx s' (Htr' & HP' & Hrt & Hot & _). cbn [fst snd] in *.
    apply lookup_seq in Hx. destruct Hx as [-> Hi]. cbn [Nat.add].
    destruct (train_run_detail i rt ot s' Hi Htr' HP')
      as (rewards & optimal_action & s'' & Hrun & Htr'' & Hlr & Hlo & HJ).
    eexists. exists s''. split; [exact Hrun|]. cbn [fst snd].
    split; [exact Htr''|]. split; [apply (J_P0 rewards); exact HJ|].
    split; [apply trajectories_add; assumption|].
    split; [apply trajectories_add; assumption|].
    intros _. exists rewards. rewrite (dict_set_fresh _ _ _ (proj1 Hrt)).
    rewrite last_snoc. cbn [pred]. split; [reflexivity|]. split; assumption. }
  { cbn [fst snd]. split; [exact Htr|]. split; [exact HP|].
    split; [split; [reflexivity|apply Forall_nil; exact I]|].
    split; [split; [reflexivity|apply Forall_nil; exact I]|]. lia. }
  rewrite (bind_Ok _ _ _ _ _ Hloop). cbn [fst snd] in *.
  rewrite length_seq in Hrt, Hot, Hlast.
  assert (Hpos : (0 < length (KArmedTestbed.bandits e0))%nat).
  { rewrite <- He. apply (agent_wf_first_bandit _ Hwf). }
  rewrite (bind_Ok _ _ s1 s1 _ (f_equal (fun r => (r, s1))
             (pd_DataFrame_trajectories _ _ _ Hpos Hrt))).
  rewrite (bind_Ok _ _ s1 s1 _ (f_equal (fun r => (r, s1))
             (pd_DataFrame_trajectories _ _ _ Hpos Hot))).
  destruct (Hlast Hpos) as (rewards & Hl & Hlen & HJ).
  eexists. eexists. exists s1, rewards. split; [reflexivity|].
  cbn [df_columns]. split; [exact Htr1|]. split; [exact Hl|]. split; assumption.
Qed.
End TrainDetail.

(** ** What training leaves in the agent *)

Lemma Forall_replicate_eq {A} (P : A -> Prop) (n : nat) (x : A) :
  P x -> Forall P (replicate n x).
Proof. intros Hx. apply Forall_replicate. exact Hx. Qed.

(** What holds of the state a computation leaves, and the continuation
    keeps, holds of the state the sequence leaves, whether the first part
    returns or raises. *)
Lemma bind_keeps {S A B} (I : S -> Prop) (m : M S A) (k : A -> M S B) (s : S) :
  I (snd (m s)) -> (forall a, preserves I (k a)) -> I (snd (bind m k s)).
Proof.
  intros Hm Hk. unfold bind. destruct (m s) as [[a|e] s1]; cbn [snd] in *.
  - apply Hk. exact Hm.
  - exact Hm.
Qed.

Section Uncounted.
Context {T : Type} {ST : Scalar T}.
Import EpsilonGreedy.
Variable n : Z.

Lemma reset_wf_Ok (self : t T) : agent_wf self -> fst (reset self) = Ok tt.
Proof.
  intros Hwf. destruct (agent_wf_first_bandit _ Hwf) as (Hn & _).
  pose proof Hwf as (_ & _ & _ & Hinit & _).
  rewrite reset_unfold, Hinit.
  destruct (Z.ltb_spec (num_actions self) 0); [lia|reflexivity].
Qed.

Lemma uncounted_reset (self : t T) :
  agent_wf self -> num_actions self = n -> use_weighted_average self = true ->
  uncounted n (snd (reset self)).
Proof.
  intros Hwf Hn Hw.
  pose proof (reset_state self) as (_ & _ & _ & Hn' & Hw' & _).
  pose proof (reset_wf_Ok self Hwf) as Hok.
  destruct (reset self) as [r self'] eqn:Hreset. cbn [fst snd] in *. subst r.
  destruct (reset_Ok _ _ _ Hreset) as (_ & _ & Hc & _).
  split; [|split; [congruence|split; [congruence|]]].
  - pose proof (agent_wf_reset self Hwf) as H. rewrite Hreset in H. exact H.
  - rewrite Hc. apply Forall_replicate_eq. reflexivity.
Qed.

Lemma uncounted_weighted_update (a : Z) (r : T) :
  preserves (uncounted n) (weighted_update a r).
Proof.
  intros self (Hwf & Hn & Hw & Hc).
  pose proof (weighted_update_changes self a r) as (Hc' & _ & _ & _ & _ & Hn' & Hw' & _).
  cbv zeta in *.
  split; [apply agent_wf_weighted_update; exact Hwf|].
  split; [congruence|]. split; [congruence|]. rewrite Hc'. exact Hc.
Qed.

(** The step of [train] reads the rule off the agent: with the constant
    step size it never calls [simple_update]. *)
Lemma train_step_uncounted (nb : nat) (step : Z) (acc : list T * list bool) :
  preserves (on_agent (uncounted n)) (train_step nb step acc).
Proof.
  unfold train_step. destruct acc as [rewards optimal_action].
  apply preserves_bind; [apply act_keeps|]. intros action.
  apply preserves_bind; [apply call_bandit_step_preserves|]. intros reward.
  intros s Hs.
  rewrite (bind_Ok _ _ s s (fst s)) by (rewrite on_fst_run; destruct s; reflexivity).
  pose proof Hs as (_ & _ & Hw & _). rewrite Hw.
  apply (preserves_bind (on_agent (uncounted n))); [| |exact Hs].
  { apply (preserves_on_fst (uncounted n)), uncounted_weighted_update. }
  intros _. apply preserves_bind; [apply preserves_lift_result|]. intros rewards'.
  apply preserves_bind; [apply call_bandit_get_preserves|]. intros b.
  apply preserves_bind.
  { apply preserves_if; [apply preserves_lift_result|apply preserves_ret]. }
  intros optimal'. apply preserves_ret.
Qed.

(** Every run starts with a [reset], which a well-formed agent accepts. *)
Lemma train_run_uncounted (nb : nat) (acc : dict (list T) * dict (list bool))
    (s : t T * RandomState T) :
  agent_wf (fst s) -> num_actions (fst s) = n -> use_weighted_average (fst s) = true ->
  uncounted n (fst (snd (train_run nb acc s))).
Proof.
  intros Hwf Hn Hw. unfold train_run. destruct acc as [rewards_testbed optimal_action_testbed].
  assert (Hreset : on_fst reset s = (Ok tt, (snd (reset (fst s)), snd s))).
  { rewrite on_fst_run, (reset_wf_Ok _ Hwf). reflexivity. }
  rewrite (bind_Ok _ _ _ _ _ Hreset).
  apply (preserves_bind (on_agent (uncounted n))); [| |apply uncounted_reset; assumption].
  { apply (preserves_on_fst (uncounted n)), preserves_get. }
  intros self. apply preserves_bind; [apply preserves_lift_result|]. intros rewards.
  apply preserves_bind; [apply preserves_for_loop; apply train_step_uncounted|].
  intros [rewards' optimal'].
  apply preserves_bind; [apply call_bandit_get_preserves|]. intros b.
  apply preserves_ret.
Qed.
End Uncounted.

(** X11.  Training with the constant step size never counts a selection:
    after [train()], whether it has returned or raised and in any
    arithmetic, every entry of [action_counts] is 0, and there are
    [num_actions] of them. *)
Theorem weighted_training_counts_nothing {T : Type} {ST : Scalar T}
    (s : EpsilonGreedy.t T * RandomState T) :
  reachable s ->
  EpsilonGreedy.use_weighted_average (fst s) = true ->
  Forall (fun c => c = 0)
         (EpsilonGreedy.action_counts (fst (snd (EpsilonGreedy.train s)))) /\
  Z.of_nat (length (EpsilonGreedy.action_counts (fst (snd (EpsilonGreedy.train s)))))
  = EpsilonGreedy.num_actions (fst s).
Proof.
  intros Hreach Hw. pose proof (reachable_by_wf _ _ Hreach) as Hwf.
  set (n := EpsilonGreedy.num_actions (fst s)).
  assert (Hun : uncounted n (fst (snd (EpsilonGreedy.train s)))).
  { unfold EpsilonGreedy.train.
    rewrite (bind_Ok _ _ s s (fst s)) by (rewrite on_fst_run; destruct s; reflexivity).
    destruct (agent_wf_first_bandit _ Hwf) as (_ & Hpos & _).
    apply (bind_keeps (on_agent (uncounted n))).
    - destruct (seq 0 (length (KArmedTestbed.bandits (EpsilonGreedy.env (fst s)))))
        as [|x xs] eqn:Hseq.
      { apply (f_equal (@length nat)) in Hseq. rewrite length_seq in Hseq.
        cbn [length] in Hseq. lia. }
      cbn [for_loop]. apply (bind_keeps (on_agent (uncounted n))).
      + apply train_run_uncounted; [exact Hwf|reflexivity|exact Hw].
      + intros acc'. apply preserves_for_loop.
        intros x' acc'' s0 (Hwf0 & Hn0 & Hw0 & _).
        apply train_run_uncounted; assumption.
    - intros [rewards_testbed optimal_action_testbed].
      apply preserves_bind; [apply preserves_lift_result|]. intros df1.
      apply preserves_bind; [apply preserves_lift_result|]. intros df2.
      apply preserves_ret. }
  destruct Hun as (Hwf' & Hn' & _ & Hc). split; [exact Hc|].
  destruct Hwf' as (_ & _ & _ & _ & _ & Hlc). rewrite Hlc. exact Hn'.
Qed.

Lemma weighted_training_counts_nothing_witness :
  Forall (fun c => c = 0)
         (EpsilonGreedy.action_counts
            (fst (snd (EpsilonGreedy.train (weighted_agent, demo_stream_after))))) /\
  Z.of_nat (length (EpsilonGreedy.action_counts
                      (fst (snd (EpsilonGreedy.train (weighted_agent, demo_stream_after))))))
  = 2.
Proof.
  apply (weighted_training_counts_nothing (weighted_agent, demo_stream_after)).
  - apply (reachable_init _ 3 2 0%Q 1%Q 1%Q 0 demo_stream demo_env demo_stream_after
             (1 # 10)%Q 4 0%Q true (1 # 2)%Q weighted_agent); reflexivity.
  - reflexivity.
Defined.

Section Accounting.
Import EpsilonGreedy.

Lemma Qsum_insert (l : list Q) :
  forall (i : nat) (x y : Q),
    l !! i = Some x -> (Qsum (<[i:=y]> l) == Qsum l - x + y)%Q.
Proof.
  induction l as [|z l IH]; intros i x y Hi; [discriminate|].
  destruct i as [|i]; cbn in Hi.
  - injection Hi as ->. cbn. fold (Qsum l). ring.
  - cbn. fold (Qsum (<[i:=y]> l)). fold (Qsum l). rewrite (IH i x y Hi). ring.
Qed.

Lemma Qsum_zeros (n : nat) : (Qsum (replicate n 0%Q) == 0)%Q.
Proof.
  induction n as [|n IH]; [reflexivity|].
  cbn. fold (Qsum (replicate n 0%Q)). rewrite IH. reflexivity.
Qed.

Lemma Zsum_cons (z : Z) (l : list Z) : Zsum (z :: l) = z + Zsum l.
Proof. reflexivity. Qed.

Lemma Zsum_insert (l : list Z) :
  forall (i : nat) (x y : Z),
    l !! i = Some x -> Zsum (<[i:=y]> l) = Zsum l - x + y.
Proof.
  induction l as [|z l IH]; intros i x y Hi; [discriminate|].
  destruct i as [|i].
  - change (<[O:=y]> (z :: l)) with (y :: l).
    change ((z :: l) !! O) with (Some z) in Hi. injection Hi as ->.
    rewrite !Zsum_cons. lia.
  - change (<[S i:=y]> (z :: l)) with (z :: <[i:=y]> l).
    change ((z :: l) !! S i) with (l !! i) in Hi.
    rewrite !Zsum_cons, (IH i x y Hi). lia.
Qed.

Lemma Zsum_zeros (n : nat) : Zsum (replicate n 0) = 0.
Proof.
  induction n as [|n IH]; [reflexivity|].
  change (replicate (S n) 0) with (0 :: replicate n 0). rewrite Zsum_cons, IH. reflexivity.
Qed.

Lemma Zsum_nonneg (l : list Z) : Forall (fun c => 0 <= c) l -> 0 <= Zsum l.
Proof.
  induction 1 as [|c l Hc _ IH]; [reflexivity|]. rewrite Zsum_cons. lia.
Qed.

Lemma Zsum_lookup_le (l : list Z) :
  forall (i : nat) (c : Z),
    Forall (fun c => 0 <= c) l -> l !! i = Some c -> c <= Zsum l.
Proof.
  induction l as [|z l IH]; intros i c Hl Hi; [discriminate|].
  apply Forall_cons in Hl. destruct Hl as [Hz Hl].
  pose proof (Zsum_nonneg l Hl) as Hs. rewrite Zsum_cons.
  destruct i as [|i]; cbn in Hi.
  - injection Hi as ->. lia.
  - specialize (IH i c Hl Hi). lia.
Qed.

Lemma weighted_total_zeros (n : nat) (q : list Q) :
  (weighted_total (replicate n 0%Z) q == 0)%Q.
Proof.
  unfold weighted_total. revert q. induction n as [|n IH]; intros q; [reflexivity|].
  destruct q as [|v q]; [reflexivity|].
  change (Qsum (zip_with (fun c v => (inject_Z c * v)%Q) (replicate (S n) 0%Z) (v :: q)))
    with (inject_Z 0 * v
          + Qsum (zip_with (fun c v => (inject_Z c * v)%Q) (replicate n 0%Z) q))%Q.
  rewrite IH. change (inject_Z 0) with 0%Q. ring.
Qed.

Lemma weighted_total_insert (counts : list Z) (q : list Q) (j : nat) (c c' : Z) (v v' : Q) :
  counts !! j = Some c -> q !! j = Some v ->
  (weighted_total (<[j:=c']> counts) (<[j:=v']> q)
   == weighted_total counts q - inject_Z c * v + inject_Z c' * v')%Q.
Proof.
  intros Hc Hv. unfold weighted_total.
  rewrite <- (insert_zip_with (fun c v => (inject_Z c * v)%Q)).
  apply Qsum_insert. rewrite lookup_zip_with, Hc. cbn. rewrite Hv. reflexivity.
Qed.

Lemma run_accounts_reset (ms : Z) (self self1 : t Q) :
  use_weighted_average self = false ->
  reset self = (Ok tt, self1) ->
  run_accounts O (replicate (Z.to_nat ms) 0%Q) self1.
Proof.
  intros Hu Hreset.
  pose proof (reset_state self) as (_ & _ & _ & _ & Hu' & _).
  rewrite Hreset in Hu'. cbn [snd] in Hu'.
  destruct (reset_Ok _ _ _ Hreset) as (_ & _ & Hc & Hq).
  unfold run_accounts. rewrite Hc, Hq, !length_replicate.
  split; [congruence|]. split; [reflexivity|].
  split; [apply Forall_replicate_eq; lia|].
  split; [apply Zsum_zeros|].
  split; [intros t _ Ht; apply lookup_replicate_2; exact Ht|].
  rewrite weighted_total_zeros, Qsum_zeros. reflexivity.
Qed.

Lemma run_accounts_step (ms : Z) (i : nat) (rewards : list Q) (self : t Q) (a : Z) (r : Q) :
  ms <= int64_max -> (i < Z.to_nat ms)%nat -> length rewards = Z.to_nat ms ->
  0 <= a < Z.of_nat (length (q_values self)) ->
  run_accounts i rewards self ->
  run_accounts (S i) (<[i:=r]> rewards) (snd (update_rule self a r self)).
Proof.
  intros Hms Hi Hlen Ha (Hu & Hl & Hpos & Hsum & Hzero & Htotal).
  unfold update_rule. rewrite Hu.
  set (j := Z.to_nat a).
  assert (Hjq : np_index (length (q_values self)) a = Ok j) by (apply np_index_nonneg; lia).
  assert (Hjc : np_index (length (action_counts self)) a = Ok j) by (rewrite <- Hl; exact Hjq).
  destruct (getitem_index_Ok _ _ _ Hjq) as (v & Hv & _).
  destruct (getitem_index_Ok _ _ _ Hjc) as (c & Hc & _).
  rewrite (simple_update_at self a r j c v Hjc Hjq Hc Hv). cbn [snd].
  assert (Hc0 : 0 <= c).
  { apply (proj1 (Forall_forall _ _) Hpos). apply list_elem_of_lookup. exists j. exact Hc. }
  pose proof (Zsum_lookup_le _ _ _ Hpos Hc) as Hcle.
  rewrite wrap_int64_small by (unfold int64_min, int64_max in *; lia).
  unfold run_accounts.
  cbn [action_counts q_values use_weighted_average set_q_values set_action_counts].
  rewrite !length_insert.
  split; [exact Hu|]. split; [exact Hl|].
  split.
  { apply Forall_forall. intros x Hx. apply list_elem_of_lookup in Hx. destruct Hx as [t Ht].
    destruct (Nat.eq_dec t j) as [->|Hne].
    - rewrite list_lookup_insert_eq in Ht by (eapply lookup_lt_Some; exact Hc).
      injection Ht as <-. lia.
    - rewrite list_lookup_insert_ne in Ht by congruence.
      apply (proj1 (Forall_forall _ _) Hpos). apply list_elem_of_lookup. exists t. exact Ht. }
  split; [rewrite (Zsum_insert _ _ _ _ Hc); lia|].
  split.
  { intros t Ht Htl. rewrite list_lookup_insert_ne by lia. apply Hzero; lia. }
  assert (Hri : rewards !! i = Some 0%Q) by (apply Hzero; lia).
  rewrite (weighted_total_insert _ _ _ _ _ _ _ Hc Hv), (Qsum_insert _ _ _ _ Hri), Htotal.
  pose proof (Q_sample_step v r c Hc0) as Hstep.
  rewrite (Qmult_comm (inject_Z (c + 1))), Hstep. ring.
Qed.
End Accounting.

(** X12.  When training by sample averages returns, the agent holds the
    account of the last run: its counts add up to [max_steps], and the sum
    over the actions of count times estimate equals the sum of the rewards
    in the last column of the reward table (exact arithmetic, [max_steps]
    below [2^63]). *)
Theorem sample_average_training_accounts (s : EpsilonGreedy.t Q * RandomState Q) :
  reachable s ->
  EpsilonGreedy.use_weighted_average (fst s) = false ->
  0 <= EpsilonGreedy.max_steps (fst s) <= int64_max ->
  (0 <= KArmedTestbed.bandit_std (EpsilonGreedy.env (fst s)))%Q ->
  exists (rewards_df : DataFrame Q) (optimal_df : DataFrame bool) s' rewards,
    EpsilonGreedy.train s = (Ok (rewards_df, optimal_df), s') /\
    last (df_columns rewards_df)
      = Some (pred (length (KArmedTestbed.bandits (EpsilonGreedy.env (fst s)))), rewards) /\
    Zsum (EpsilonGreedy.action_counts (fst s')) = EpsilonGreedy.max_steps (fst s) /\
    (weighted_total (EpsilonGreedy.action_counts (fst s')) (EpsilonGreedy.q_values (fst s'))
     == Qsum rewards)%Q.
Proof.
  intros Hreach Huwa [Hms Hmax] Hstd.
  pose proof (reachable_by_wf _ _ Hreach) as Hwf.
  destruct (train_detail (EpsilonGreedy.env (fst s)) (EpsilonGreedy.max_steps (fst s))
              Hstd Hms (fun self => EpsilonGreedy.use_weighted_average self = false)
              run_accounts) with (s := s)
    as (rdf & odf & s' & rewards & Hrun & _ & Hlast & _ & HJ).
  - intros self self1 _ Hu Hreset. eapply run_accounts_reset; eassumption.
  - intros i rewards self a r Hi Hlen Hwf' He HJ Ha.
    apply (run_accounts_step (EpsilonGreedy.max_steps (fst s))); try assumption.
    destruct Hwf' as (_ & _ & Hk & _ & Hlq & _). rewrite Hlq, Hk, He. exact Ha.
  - intros rewards self HJ. apply HJ.
  - split; [exact Hwf|]. split; reflexivity.
  - exact Huwa.
  - exists rdf, odf, s', rewards. split; [exact Hrun|]. split; [exact Hlast|].
    destruct HJ as (_ & _ & _ & Hsum & _ & Htotal). split; [|exact Htotal].
    rewrite Hsum. lia.
Qed.

Lemma sample_average_training_accounts_witness :
  exists (rewards_df : DataFrame Q) (optimal_df : DataFrame bool) s' rewards,
    EpsilonGreedy.train (greedy_agent, demo_stream_after)
    = (Ok (rewards_df, optimal_df), s') /\
    last (df_columns rewards_df) = Some (2%nat, rewards) /\
    Zsum (EpsilonGreedy.action_counts (fst s')) = 4 /\
    (weighted_total (EpsilonGreedy.action_counts (fst s')) (EpsilonGreedy.q_values (fst s'))
     == Qsum rewards)%Q.
Proof.
  apply (sample_average_training_accounts (greedy_agent, demo_stream_after)).
  - apply greedy_agent_reachable.
  - reflexivity.
  - unfold int64_max. simpl. lia.
  - discriminate.
Defined.

(** ** Training at the edges of its configuration *)

Section TrainEdges.
Import EpsilonGreedy.

Lemma bind_fst_Raise {S A B} (m : M S A) (k : A -> M S B) (s : S) (e : exn) :
  fst (m s) = Raise e -> fst (bind m k s) = Raise e.
Proof.
  unfold bind. destruct (m s) as [[a|e'] s']; cbn [fst]; intros H; [discriminate|].
  injection H as ->. reflexivity.
Qed.

Lemma bind_assoc {S A B C} (m : M S A) (k : A -> M S B) (k' : B -> M S C) (s : S) :
  bind (bind m k) k' s = bind m (fun a => bind (k a) k') s.
Proof. unfold bind. destruct (m s) as [[a|e] s']; reflexivity. Qed.

Lemma bind_same {S A B} (m : M S A) (k : A -> M S B) (s1 s2 : S) :
  m s1 = m s2 -> bind m k s1 = bind m k s2.
Proof. intros H. unfold bind. rewrite H. reflexivity. Qed.

Lemma train_first_run {T : Type} {ST : Scalar T} (self : t T) (g : RandomState T) :
  KArmedTestbed.bandits (env self) <> [] ->
  exists (k1 : unit -> M (t T * RandomState T) (dict (list T) * dict (list bool)))
         (k2 : dict (list T) * dict (list bool)
               -> M (t T * RandomState T) (dict (list T) * dict (list bool)))
         (k3 : dict (list T) * dict (list bool)
               -> M (t T * RandomState T) (DataFrame T * DataFrame bool)),
    (forall self' g', env self' = env self ->
       train (self', g') = bind (bind (bind (on_fst reset) k1) k2) k3 (self', g')).
Proof.
  intros Hne. unfold train.
  destruct (KArmedTestbed.bandits (env self)) as [|b bs] eqn:Hbs; [congruence|].
  eexists. eexists. eexists. intros self' g' He.
  unfold bind at 1. rewrite on_fst_run. cbn [get fst snd]. rewrite He, Hbs.
  cbn [length seq for_loop]. unfold train_run at 1.
  reflexivity.
Qed.

Lemma train_run_unfold {T : Type} {ST : Scalar T} (i : nat)
    (rewards_testbed : list (nat * list T)) (optimal_action_testbed : list (nat * list bool)) :
  train_run i (rewards_testbed, optimal_action_testbed) =
  (run on_fst reset in
   let* self := on_fst get in
   let* rewards := lift_result (np_full (max_steps self) (s_of_Z 0)) in
   let optimal_action := replicate (Z.to_nat (max_steps self)) false in
   let* '(rewards, optimal_action) :=
     for_loop (range (max_steps self)) (train_step i) (rewards, optimal_action) in
   let* k_armed_bandit := call_bandit i (on_fst get) in
   ret (dict_set rewards_testbed (Bandit.oid k_armed_bandit) rewards,
        dict_set optimal_action_testbed (Bandit.oid k_armed_bandit) optimal_action)).
Proof. reflexivity. Qed.

Lemma first_step_raises (e0 : KArmedTestbed.t Q) (ms : Z) (s : t Q * RandomState Q)
    (acc : list Q * list bool) :
  trainable e0 ms s -> (KArmedTestbed.bandit_std e0 < 0)%Q ->
  fst (train_step O 0 acc s) = Raise ValueError.
Proof.
  intros Htr Hneg. pose proof Htr as (Hwf & He & _).
  destruct (agent_wf_first_bandit _ Hwf) as (Hn & Hpos & _).
  pose proof Hwf as (_ & _ & Hk & _ & Hl).
  destruct (act_run s Hn (proj1 Hl)) as (a & g1 & Hact & Ha).
  unfold train_step. destruct acc as [rw op].
  rewrite (bind_Ok _ _ _ _ _ Hact).
  apply bind_fst_Raise.
  rewrite call_bandit_run by (intros; apply step_keeps_bandit). cbn [fst snd].
  destruct (lookup_lt_is_Some_2 _ _ Hpos) as [b Hb]. rewrite Hb.
  destruct Hwf as ([_ Hall] & _).
  destruct (Hall O b Hb) as ((_ & Hlen & _) & _ & Hkb & Hstd).
  rewrite step_unfold.
  destruct (getitem_index_Ok (Bandit.q_star b) a (Z.to_nat a)) as (mu & _ & Hmu).
  { apply np_index_nonneg. lia. }
  rewrite Hmu. cbn [fst snd]. rewrite normal_unfold.
  assert (Hyes : np_random.negative_scale (Bandit.bandit_std b) = true).
  { rewrite Hstd, He, Q_negative_scale. apply Qlt_bool_iff. exact Hneg. }
  rewrite Hyes. reflexivity.
Qed.
End TrainEdges.

(** X13.  [train()] does not return when the configuration the
    constructors accepted is unusable: with [max_steps < 0] it raises
    [ValueError] (from [np.zeros]) after resetting the agent for the first
    run, before any action is selected; with [max_steps >= 1] and a
    negative noise level it raises [ValueError] at the first step. *)
Theorem train_rejects_configuration (s : EpsilonGreedy.t Q * RandomState Q) :
  reachable s ->
  (EpsilonGreedy.max_steps (fst s) < 0 ->
   exists self',
     EpsilonGreedy.reset (fst s) = (Ok tt, self') /\
     EpsilonGreedy.train s = (Raise ValueError, (self', snd s)))
  /\
  (1 <= EpsilonGreedy.max_steps (fst s) ->
   (KArmedTestbed.bandit_std (EpsilonGreedy.env (fst s)) < 0)%Q ->
   fst (EpsilonGreedy.train s) = Raise ValueError).
Proof.
  intros Hreach. pose proof (reachable_by_wf _ _ Hreach) as Hwf.
  set (e0 := EpsilonGreedy.env (fst s)). set (ms := EpsilonGreedy.max_steps (fst s)).
  assert (Htr : trainable e0 ms s) by (split; [exact Hwf|split; reflexivity]).
  destruct (agent_wf_first_bandit _ Hwf) as (_ & Hpos & _).
  assert (Hne : KArmedTestbed.bandits (EpsilonGreedy.env (fst s)) <> []).
  { intros Hnil. rewrite Hnil in Hpos. cbn in Hpos. lia. }
  destruct (reset_succeeds e0 ms s Htr) as ([] & s1 & Hreset & Htr1).
  pose proof Htr1 as (_ & _ & Hms1).
  unfold EpsilonGreedy.train.
  rewrite (bind_Ok _ _ s s (fst s)) by (rewrite on_fst_run; destruct s; reflexivity).
  destruct (KArmedTestbed.bandits (EpsilonGreedy.env (fst s))) as [|b bs] eqn:Hbs;
    [congruence|].
  cbn [length seq for_loop]. rewrite train_run_unfold.
  split.
  - intros Hneg. fold ms in Hneg.
    assert (Hs1 : s1 = (snd (EpsilonGreedy.reset (fst s)), snd s)).
    { rewrite on_fst_run in Hreset. congruence. }
    exists (snd (EpsilonGreedy.reset (fst s))).
    split.
    { rewrite on_fst_run in Hreset.
      destruct (EpsilonGreedy.reset (fst s)) as [r0 s0]; cbn [fst snd] in *; congruence. }
    rewrite <- Hs1.
    rewrite !bind_assoc. rewrite (bind_Ok _ _ _ _ _ Hreset).
    rewrite ?bind_assoc.
    rewrite (bind_Ok _ _ s1 s1 (fst s1)) by (rewrite on_fst_run; destruct s1; reflexivity).
    rewrite ?bind_assoc. rewrite Hms1.
    assert (Hfull : lift_result (np_full ms (s_of_Z (T:=Q) 0)) s1 = (Raise ValueError, s1)).
    { unfold lift_result. rewrite np_full_Raise by exact Hneg. reflexivity. }
    rewrite (bind_Raise _ _ _ _ _ Hfull). reflexivity.
  - intros Hone Hneg. fold ms in Hone. fold e0 in Hneg.
    apply bind_fst_Raise. apply bind_fst_Raise.
    rewrite (bind_Ok _ _ _ _ _ Hreset).
    rewrite (bind_Ok _ _ s1 s1 (fst s1)) by (rewrite on_fst_run; destruct s1; reflexivity).
    rewrite Hms1.
    rewrite (bind_Ok _ _ s1 s1 (replicate (Z.to_nat ms) (s_of_Z 0)))
      by (unfold lift_result; rewrite np_full_Ok by lia; reflexivity).
    apply bind_fst_Raise.
    assert (Hr : exists xs, range ms = 0 :: xs).
    { unfold range. destruct (Z.to_nat ms) as [|n] eqn:Hz; [lia|]. cbn. eexists. reflexivity. }
    destruct Hr as [xs ->]. cbn [for_loop]. apply bind_fst_Raise.
    apply (first_step_raises e0 ms); assumption.
Qed.

Lemma train_rejects_configuration_witness :
  exists self',
    EpsilonGreedy.reset negative_budget_agent = (Ok tt, self') /\
    EpsilonGreedy.train (negative_budget_agent, demo_stream_after)
    = (Raise ValueError, (self', demo_stream_after)).
Proof.
  apply (proj1 (train_rejects_configuration (negative_budget_agent, demo_stream_after)
    ltac:(apply (reachable_init _ 3 2 0%Q 1%Q 1%Q 0 demo_stream demo_env demo_stream_after
                   (1 # 10)%Q (-5) 0%Q false (1 # 10)%Q negative_budget_agent);
          reflexivity))).
  simpl. lia.
Defined.

(** X14.  Training does not look at what the agent has learnt before:
    every run starts with [reset], so two agents with the same
    configuration and any arrays give the same outcome, and, when the
    testbed has a bandit and [reset] succeeds, the same tables, final agent
    and stream. *)
Theorem train_ignores_previous_estimates {T : Type} {ST : Scalar T}
    (self self' : EpsilonGreedy.t T) (g : RandomState T) :
  same_config self self' ->
  fst (EpsilonGreedy.train (self', g)) = fst (EpsilonGreedy.train (self, g))
  /\
  (KArmedTestbed.bandits (EpsilonGreedy.env self) <> [] ->
   fst (EpsilonGreedy.reset self) = Ok tt ->
   EpsilonGreedy.train (self', g) = EpsilonGreedy.train (self, g)).
Proof.
  intros Hsame. pose proof Hsame as (He & _).
  destruct (reset_same_config self self' Hsame) as [Hfst Hsnd].
  destruct (KArmedTestbed.bandits (EpsilonGreedy.env self)) as [|b bs] eqn:Hbs.
  - split; [|congruence].
    unfold EpsilonGreedy.train.
    rewrite (bind_Ok _ _ (self', g) (self', g) self') by reflexivity.
    rewrite (bind_Ok _ _ (self, g) (self, g) self) by reflexivity.
    rewrite He, Hbs. reflexivity.
  - destruct (train_first_run self g) as (k1 & k2 & k3 & Htrain); [rewrite Hbs; discriminate|].
    rewrite (Htrain self' g He), (Htrain self g eq_refl).
    destruct (fst (EpsilonGreedy.reset self)) as [[]|e] eqn:Hr.
    + assert (Heq : on_fst (S2:=RandomState T) EpsilonGreedy.reset (self', g)
                    = on_fst EpsilonGreedy.reset (self, g)).
      { rewrite !on_fst_run. cbn [fst snd]. rewrite Hfst, Hr, (Hsnd eq_refl). reflexivity. }
      assert (Hall : bind (bind (bind (on_fst EpsilonGreedy.reset) k1) k2) k3 (self', g)
                     = bind (bind (bind (on_fst EpsilonGreedy.reset) k1) k2) k3 (self, g)).
      { apply bind_same, bind_same, bind_same. exact Heq. }
      split; [rewrite Hall; reflexivity|]. intros _ _. exact Hall.
    + split; [|discriminate].
      assert (HR : forall x, fst (EpsilonGreedy.reset x) = Raise e ->
                fst (bind (bind (bind (on_fst EpsilonGreedy.reset) k1) k2) k3 (x, g))
                = Raise e).
      { intros x Hx. apply bind_fst_Raise, bind_fst_Raise, bind_fst_Raise.
        rewrite on_fst_run. exact Hx. }
      rewrite (HR self' Hfst), (HR self Hr). reflexivity.
Qed.

Lemma train_ignores_previous_estimates_witness :
  EpsilonGreedy.train (fst greedy_state, demo_stream_after)
  = EpsilonGreedy.train (greedy_agent, demo_stream_after).
Proof.
  apply (proj2 (train_ignores_previous_estimates greedy_agent (fst greedy_state)
                  demo_stream_after
                  (same_config_simple_update greedy_agent 1 5%Q))).
  - discriminate.
  - reflexivity.
Defined.

Section TrainWithoutSteps.
Import EpsilonGreedy.

Lemma train_run_without_steps (e0 : KArmedTestbed.t Q) (nb : nat)
    (rewards_testbed : list (nat * list Q)) (optimal_action_testbed : list (nat * list bool))
    (s : t Q * RandomState Q) :
  trainable e0 0 s -> (nb < length (KArmedTestbed.bandits e0))%nat ->
  fst (reset (fst s)) = Ok tt /\
  train_run nb (rewards_testbed, optimal_action_testbed) s
  = (Ok (dict_set rewards_testbed nb [], dict_set optimal_action_testbed nb []),
     (snd (reset (fst s)), snd s)).
Proof.
  intros Htr Hnb.
  destruct (reset_succeeds e0 0 s Htr) as ([] & s1 & Hreset & Htr1).
  assert (Hs1 : s1 = (snd (reset (fst s)), snd s) /\ fst (reset (fst s)) = Ok tt).
  { rewrite on_fst_run in Hreset. split; congruence. }
  destruct Hs1 as [Hs1 Hok]. split; [exact Hok|].
  rewrite train_run_unfold. rewrite (bind_Ok _ _ _ _ _ Hreset).
  rewrite (bind_Ok _ _ s1 s1 (fst s1)) by (rewrite on_fst_run; destruct s1; reflexivity).
  pose proof Htr1 as (_ & _ & Hms). rewrite Hms.
  rewrite (bind_Ok _ _ s1 s1 []) by reflexivity.
  change (range 0) with (@nil Z). cbn [for_loop Z.to_nat replicate].
  rewrite (bind_Ok _ _ s1 s1 ([], [])) by reflexivity.
  destruct (bandit_get_succeeds e0 0 nb Hnb s1 Htr1) as (b & s2 & Hget & _ & Hoid).
  assert (Hs2 : s2 = s1).
  { rewrite call_bandit_get in Hget. destruct (_ !! nb); congruence. }
  subst s2. rewrite (bind_Ok _ _ _ _ _ Hget). rewrite Hoid, <- Hs1. reflexivity.
Qed.
End TrainWithoutSteps.

(** X15.  With [max_steps = 0] training selects no action and draws
    nothing: it returns two tables without rows, one column per run, leaves
    the random stream where it was and the agent as [reset] leaves it. *)
Theorem train_without_steps (s : EpsilonGreedy.t Q * RandomState Q) :
  reachable s ->
  EpsilonGreedy.max_steps (fst s) = 0 ->
  exists (rewards_df : DataFrame Q) (optimal_df : DataFrame bool) self',
    EpsilonGreedy.reset (fst s) = (Ok tt, self') /\
    EpsilonGreedy.train s = (Ok (rewards_df, optimal_df), (self', snd s)) /\
    df_shape rewards_df
    = (O, Z.to_nat (KArmedTestbed.num_runs (EpsilonGreedy.env (fst s)))) /\
    df_shape optimal_df
    = (O, Z.to_nat (KArmedTestbed.num_runs (EpsilonGreedy.env (fst s)))).
Proof.
  intros Hreach Hzero. pose proof (reachable_by_wf _ _ Hreach) as Hwf.
  set (e0 := EpsilonGreedy.env (fst s)).
  assert (Htr : trainable e0 0 s) by (split; [exact Hwf|split; [reflexivity|exact Hzero]]).
  destruct (agent_wf_first_bandit _ Hwf) as (_ & Hpos & Hruns). fold e0 in Hpos, Hruns.
  destruct (reset_succeeds e0 0 s Htr) as ([] & s1 & Hreset & _).
  assert (Hok : fst (EpsilonGreedy.reset (fst s)) = Ok tt).
  { rewrite on_fst_run in Hreset. congruence. }
  set (self' := snd (EpsilonGreedy.reset (fst s))).
  destruct (succeeds_for_loop
    (fun (n : nat) (acc : dict (list Q) * dict (list bool)) s' =>
       trainable e0 0 s' /\ snd s' = snd s /\ same_config (fst s) (fst s') /\
       ((0 < n)%nat -> fst s' = self') /\
       trajectories n O (fst acc) /\ trajectories n O (snd acc))
    (seq 0 (length (KArmedTestbed.bandits e0))) EpsilonGreedy.train_run) with
    (acc := (@nil (nat * list Q), @nil (nat * list bool))) (s := s)
    as ([rt ot] & s2 & Hloop & Htr2 & Hg & _ & Hself & Hrt & Hot).
  { intros i x [rt ot] Hx s' (Htr' & Hg' & Hsame & _ & Hrt & Hot). cbn [fst snd] in *.
    apply lookup_seq in Hx. destruct Hx as [-> Hi]. cbn [Nat.add].
    destruct (train_run_without_steps e0 i rt ot s' Htr' Hi) as [_ Hrun].
    assert (Hres : EpsilonGreedy.reset (fst s') = EpsilonGreedy.reset (fst s)).
    { apply (proj1 (reset_forgets_history_aux (fst s))); assumption. }
    eexists. eexists. split; [exact Hrun|]. cbn [fst snd].
    split.
    { destruct Htr' as (Hwf' & He' & Hm').
      split; [|split; cbn [fst]].
      - cbn [fst]. apply agent_wf_reset. exact Hwf'.
      - rewrite <- He'. apply reset_state.
      - rewrite <- Hm'. apply reset_state. }
    split; [exact Hg'|].
    split; [rewrite Hres; apply same_config_reset|].
    split; [intros _; rewrite Hres; reflexivity|].
    split; apply trajectories_add; try assumption; reflexivity. }
  { cbn [fst snd]. split; [exact Htr|]. split; [reflexivity|].
    split; [apply same_config_refl|]. split; [lia|].
    split; (split; [reflexivity|apply Forall_nil; exact I]). }
  cbn [fst snd] in *. rewrite length_seq in Hself, Hrt, Hot.
  exists {| df_columns := rt; df_rows := O |}, {| df_columns := ot; df_rows := O |}, self'.
  split; [destruct (EpsilonGreedy.reset (fst s)) as [r0 s0]; cbn [fst snd] in *; subst self';
          cbn; congruence|].
  split.
  { unfold EpsilonGreedy.train.
    rewrite (bind_Ok _ _ s s (fst s)) by (rewrite on_fst_run; destruct s; reflexivity).
    fold e0. rewrite (bind_Ok _ _ _ _ _ Hloop).
    rewrite (bind_Ok _ _ s2 s2 _ (f_equal (fun r => (r, s2))
               (pd_DataFrame_trajectories _ _ _ Hpos Hrt))).
    rewrite (bind_Ok _ _ s2 s2 _ (f_equal (fun r => (r, s2))
               (pd_DataFrame_trajectories _ _ _ Hpos Hot))).
    unfold ret. f_equal. destruct s2 as [self2 g2]. cbn [fst snd] in *.
    rewrite (Hself Hpos), Hg. reflexivity. }
  unfold df_shape. cbn [df_columns df_rows].
  assert (Hlen : forall (V : Type) (d : dict (list V)),
            map fst d = seq 0 (length (KArmedTestbed.bandits e0)) ->
            length d = Z.to_nat (KArmedTestbed.num_runs e0)).
  { intros V d Hd. rewrite <- (length_map fst d), Hd, length_seq. lia. }
  rewrite (Hlen _ rt (proj1 Hrt)), (Hlen _ ot (proj1 Hot)). split; reflexivity.
Qed.

Lemma train_without_steps_witness :
  exists (rewards_df : DataFrame Q) (optimal_df : DataFrame bool) self',
    EpsilonGreedy.reset zero_budget_agent = (Ok tt, self') /\
    EpsilonGreedy.train (zero_budget_agent, demo_stream_after)
    = (Ok (rewards_df, optimal_df), (self', demo_stream_after)) /\
    df_shape rewards_df = (O, 3%nat) /\
    df_shape optimal_df = (O, 3%nat).
Proof.
  apply (train_without_steps (zero_budget_agent, demo_stream_after)
    ltac:(apply (reachable_init _ 3 2 0%Q 1%Q 1%Q 0 demo_stream demo_env demo_stream_after
                   (1 # 10)%Q 0 0%Q false (1 # 10)%Q zero_budget_agent);
          reflexivity)).
  reflexivity.
Defined.

(** X16.  Training never changes what the agent was configured with:
    whether [train()] returns or raises, the agent it leaves has the same
    testbed (every bandit with its true values), [epsilon], [max_steps],
    [num_actions], update rule, [alpha] and [initialisation]; only the two
    arrays can differ. *)
Theorem train_keeps_configuration {T : Type} {ST : Scalar T}
    (s : EpsilonGreedy.t T * RandomState T) :
  same_config (fst s) (fst (snd (EpsilonGreedy.train s))).
Proof.
  apply (train_keeps (fun self => same_config (fst s) self)).
  - intros self Hself. apply (same_config_trans _ _ _ Hself), same_config_reset.
  - intros a r self Hself. apply (same_config_trans _ _ _ Hself), same_config_simple_update.
  - intros a r self Hself. apply (same_config_trans _ _ _ Hself), same_config_weighted_update.
  - apply same_config_refl.
Qed.
